(** * Aether-Sync: the scripted multi-agent world simulation

    A shallow embedding of the simulation layer of the repository
    (aether_enhanced.py, aether_full.py, aether_server.py,
    multi_agent_test.py, live_showcase.py, aether_final.py) and the
    properties of its specification.

    Conventions of the embedding
    - Python [int] is [Z]; [//] is [Z.div] (floor), [%] is [Z.modulo],
      [int(f)] of a float is truncation toward zero ([Z.quot]).
    - Python [str] is [string], restricted to what the byte model can
      express: whitespace is the ASCII part of [str.isspace].
    - A Python [dict] keyed by agent name is an insertion-ordered
      association list ([dict] below): assignment to a present key
      keeps its slot, assignment to a new key appends.  The emulator
      server's registry, whose order is never observed, is a [gmap].
    - Agents are objects mutated in place and reached through the
      registry.  The embedding names an agent by its registry key and
      performs every field assignment as a read-modify-write of the
      registry, in the order of the source statements, so that two
      references to one object (a trade or a battle with oneself) see
      each other's writes.
    - [random] and the wall clock are inputs: each call takes the
      values drawn during it ([Env]), and one clock reading serves
      all the entries a call logs.  Console output is not modelled.
    - The values of [random.random()], which are only compared with
      thresholds, are rationals ([Q]).  The tax rate, the one float
      that enters arithmetic, is an IEEE binary64 number ([float]),
      and [int(wallet * tax_rate)] is computed on binary64
      ([Py.int_mul]) as CPython does. *)

From Stdlib Require Import ZArith List String Ascii Lia Bool QArith Qround DecimalString.
From Stdlib Require Import Floats Uint63.
From stdpp Require Import gmap strings list.

Import ListNotations.
Local Open Scope Z_scope.

(** ** Python strings *)

Module Py.

Definition startswith (s p : string) : bool := String.prefix p s.

(** [str.isspace] on the ASCII range: TAB, LF, VT, FF, CR, FS, GS, RS,
    US and SPACE. *)
Definition isspace (c : ascii) : bool :=
  let n := N_of_ascii c in
  ((9 <=? n) && (n <=? 13) || (28 <=? n) && (n <=? 32))%N.

(** [split_from cur s]: the tokens of [s], where [cur] is the token
    being read ([None] between tokens). *)
Fixpoint split_from (cur : option string) (s : string) : list string :=
  match s with
  | EmptyString => match cur with Some t => [t] | None => [] end
  | String c s' =>
      if isspace c then
        match cur with
        | Some t => t :: split_from None s'
        | None => split_from None s'
        end
      else
        split_from
          (Some (String.append (default EmptyString cur) (String c EmptyString))) s'
  end.

(** [s.split()] *)
Definition split (s : string) : list string := split_from None s.

(** [s[n:]] *)
Fixpoint drop (n : nat) (s : string) : string :=
  match n, s with
  | O, _ => s
  | S n', String _ s' => drop n' s'
  | S _, EmptyString => EmptyString
  end.

(** [str(z)] for an integer. *)
Definition str (z : Z) : string := NilZero.string_of_int (Z.to_int z).

Definition is_lower (c : ascii) : bool :=
  let n := N_of_ascii c in ((97 <=? n) && (n <=? 122))%N.
Definition is_upper (c : ascii) : bool :=
  let n := N_of_ascii c in ((65 <=? n) && (n <=? 90))%N.
Definition upper (c : ascii) : ascii :=
  if is_lower c then ascii_of_N (N_of_ascii c - 32) else c.
Definition lower (c : ascii) : ascii :=
  if is_upper c then ascii_of_N (N_of_ascii c + 32) else c.

(** [s.title()] on ASCII letters: a letter that follows a letter is
    lower-cased, any other letter is upper-cased. *)
Fixpoint title_from (after_letter : bool) (s : string) : string :=
  match s with
  | EmptyString => EmptyString
  | String c s' =>
      let cased := is_lower c || is_upper c in
      String (if after_letter then lower c else upper c) (title_from cased s')
  end.
Definition title (s : string) : string := title_from false s.

(** [random.choice(l)], the draw being the index [i]. *)
Definition choice {A : Type} (i : nat) (l : list A) (d : A) : A :=
  nth (i mod length l) l d.

(** [min(l, key=...)] and [max(l, key=...)]: the first element that
    attains the extremum. *)
Definition min_by {A : Type} (key : A -> Z) (l : list A) : option A :=
  match l with
  | [] => None
  | a :: l' =>
      Some (fold_left (fun best c => if key c <? key best then c else best) l' a)
  end.
Definition max_by {A : Type} (key : A -> Z) (l : list A) : option A :=
  match l with
  | [] => None
  | a :: l' =>
      Some (fold_left (fun best c => if key best <? key c then c else best) l' a)
  end.

(** [float(z)]: the binary64 number nearest to the integer, ties to
    even; an integer beyond the range of binary64, for which CPython
    raises OverflowError, gives an infinity here. *)
Definition float_of_int (z : Z) : float :=
  SF2Prim (binary_normalize prec emax z 0 false).

(** [z * rate] for an integer [z] and a float [rate]: the integer is
    converted and the product is taken, and rounded, in binary64. *)
Definition product (z : Z) (rate : float) : float :=
  PrimFloat.mul (float_of_int z) rate.

(** [int(f)] of a finite float: truncation toward zero.  (Of an
    infinity or a NaN, [int] raises; see [int_defined].) *)
Definition trunc_float (f : float) : Z :=
  match Prim2SF f with
  | S754_finite sg m e =>
      let mag := if (0 <=? e)%Z then Z.shiftl (Zpos m) e
                 else Z.shiftr (Zpos m) (- e) in
      if sg then - mag else mag
  | _ => 0
  end.

(** [int(z * rate)] as CPython computes it. *)
Definition int_mul (z : Z) (rate : float) : Z := trunc_float (product z rate).


(** The double nearest to 0.05, which the literal [0.05] denotes. *)
Definition binary64_rate : float := 0x1.999999999999ap-5%float.

(** The exact value of a finite float. *)
Definition exact (f : float) : Q :=
  match Prim2SF f with
  | S754_finite sg m e =>
      let v := if (0 <=? e)%Z then inject_Z (Z.shiftl (Zpos m) e)
               else Zpos m # Pos.shiftl 1 (Z.to_N (- e)) in
      if sg then Qopp v else v
  | _ => 0
  end.


End Py.

(** ** Insertion-ordered dictionaries *)

Section Dict.
Context {V : Type}.

Definition dict := list (string * V).

(** [d.get(k)] *)
Fixpoint dget (k : string) (d : dict) : option V :=
  match d with
  | [] => None
  | (k', v) :: d' => if String.eqb k k' then Some v else dget k d'
  end.

(** [d[k] = v] *)
Fixpoint dset (k : string) (v : V) (d : dict) : dict :=
  match d with
  | [] => [(k, v)]
  | (k', v') :: d' =>
      if String.eqb k k' then (k', v) :: d' else (k', v') :: dset k v d'
  end.

(** In-place mutation of the object stored under [k]. *)
Definition dupd (k : string) (f : V -> V) (d : dict) : dict :=
  match dget k d with
  | Some v => dset k (f v) d
  | None => d
  end.

(** [d.keys()] and [d.values()], in insertion order. *)
Definition dkeys (d : dict) : list string := map fst d.
Definition dvalues (d : dict) : list V := map snd d.
End Dict.
Arguments dict V : clear implicits.

(** ** aether_enhanced.py *)

Module Enhanced.

Local Notation "a +++ b" := (String.append a b)
  (at level 60, right associativity).

Inductive ItemType :=
  POTION | POKEBALL | GOLD_NUGGET | RARE_CANDY | LAND_DEED | MYSTERY_BOX.

(** [list(ItemType)], in definition order. *)
Definition all_item_types : list ItemType :=
  [POTION; POKEBALL; GOLD_NUGGET; RARE_CANDY; LAND_DEED; MYSTERY_BOX].

(** [ItemType.value] *)
Definition item_label (t : ItemType) : string :=
  match t with
  | POTION => "potion" | POKEBALL => "pokeball"
  | GOLD_NUGGET => "gold_nugget" | RARE_CANDY => "rare_candy"
  | LAND_DEED => "land_deed" | MYSTERY_BOX => "mystery_box"
  end.

Module Item.
Record t := mk {
    type : ItemType;
    quantity : Z;
    owner : string;
    value : Z
  }.
Definition set_owner (o : string) (i : t) : t :=
    mk (type i) (quantity i) o (value i).
End Item.

Module Territory.
Record t := mk {
    x : Z;
    y : Z;
    owner : string;
    name : string;
    value : Z;
    tax_rate : float
  }.
  (** The dataclass defaults: [value = 100], [tax_rate = 0.05]. *)
Definition default_tax_rate : float := Py.binary64_rate.
Definition make (x y : Z) (owner name : string) : t :=
    mk x y owner name 100 default_tax_rate.
End Territory.

Module Agent.
Record t := mk {
    name : string;
    personality : string;
    x : Z;
    y : Z;
    wallet : Z;
    inventory : list Item.t;
    actions : Z;
    reputation : Z;
    guild : option string;
    level : Z;
    xp : Z
  }.
  (** [Agent(name=..., personality=...)] with the dataclass defaults. *)
Definition make (name personality : string) : t :=
    mk name personality 6 4 100 [] 0 50 None 1 0.

Definition set_x (v : Z) (a : t) : t :=
    mk (name a) (personality a) v (y a) (wallet a) (inventory a)
       (actions a) (reputation a) (guild a) (level a) (xp a).
Definition set_y (v : Z) (a : t) : t :=
    mk (name a) (personality a) (x a) v (wallet a) (inventory a)
       (actions a) (reputation a) (guild a) (level a) (xp a).
Definition set_wallet (v : Z) (a : t) : t :=
    mk (name a) (personality a) (x a) (y a) v (inventory a)
       (actions a) (reputation a) (guild a) (level a) (xp a).
Definition set_inventory (v : list Item.t) (a : t) : t :=
    mk (name a) (personality a) (x a) (y a) (wallet a) v
       (actions a) (reputation a) (guild a) (level a) (xp a).
Definition set_actions (v : Z) (a : t) : t :=
    mk (name a) (personality a) (x a) (y a) (wallet a) (inventory a)
       v (reputation a) (guild a) (level a) (xp a).
Definition set_level (v : Z) (a : t) : t :=
    mk (name a) (personality a) (x a) (y a) (wallet a) (inventory a)
       (actions a) (reputation a) (guild a) v (xp a).
Definition set_xp (v : Z) (a : t) : t :=
    mk (name a) (personality a) (x a) (y a) (wallet a) (inventory a)
       (actions a) (reputation a) (guild a) (level a) v.
End Agent.

Module ChatEntry.
Record t := mk {
    time : string;
    agent : string;
    text : string;
    type : string;
    tick : Z
  }.
End ChatEntry.

(** The state of an [AetherEnhanced] object. *)
Record World := mkWorld {
  agents : dict Agent.t;
  territories : list Territory.t;
  chat_history : list ChatEntry.t;
  tick : Z;
  market_prices : ItemType -> Z;
  events : list string
}.

Definition set_agents (v : dict Agent.t) (w : World) : World :=
  mkWorld v (territories w) (chat_history w) (tick w) (market_prices w) (events w).
Definition set_territories (v : list Territory.t) (w : World) : World :=
  mkWorld (agents w) v (chat_history w) (tick w) (market_prices w) (events w).
Definition set_chat_history (v : list ChatEntry.t) (w : World) : World :=
  mkWorld (agents w) (territories w) v (tick w) (market_prices w) (events w).
Definition set_tick (v : Z) (w : World) : World :=
  mkWorld (agents w) (territories w) (chat_history w) v (market_prices w) (events w).
Definition set_market_prices (v : ItemType -> Z) (w : World) : World :=
  mkWorld (agents w) (territories w) (chat_history w) (tick w) v (events w).

(** [AetherEnhanced.__init__] *)
Definition init : World :=
  mkWorld [] [] [] 0
    (fun t => match t with
              | POTION => 20 | POKEBALL => 50 | GOLD_NUGGET => 100
              | RARE_CANDY => 200 | LAND_DEED => 150 | MYSTERY_BOX => 75
              end)
    ["A wild Pidgey flies overhead"; "Market prices shift slightly";
     "A trainer walks by"; "Wind rustles the grass";
     "Sunlight breaks through clouds"; "You hear a distant cry";
     "A merchant passes through"; "The air feels electric"]%string.

(** What one call draws from [random] and reads from the clock. *)
Record Env := mkEnv {
  now : string;            (* datetime.now().strftime("%H:%M:%S") *)
  found : ItemType;        (* random.choice(list(ItemType)) *)
  trade_delta : Z;         (* random.randint(-5, 5) *)
  roll : Z;                (* random.randint(1, 10), challenger *)
  target_roll : Z;         (* random.randint(1, 10), challenged *)
  pick : nat;              (* index drawn by random.choice in think *)
  coin : Q                 (* random.random() in think *)
}.

Definition env_ok (e : Env) : Prop :=
  -5 <= trade_delta e <= 5 /\ 1 <= roll e <= 10 /\ 1 <= target_roll e <= 10.

(** [chat_limit]: the literal 30 of [chat]. *)
Definition chat_limit : Z := 30.

(** [AetherEnhanced.chat]: append, then drop index 0 when the list has
    grown past 30. *)
Definition chat (now agent message msg_type : string) (w : World) : World :=
  let entry := ChatEntry.mk now agent message msg_type (tick w) in
  let h := chat_history w ++ [entry] in
  set_chat_history
    (if chat_limit <? Z.of_nat (length h) then tl h else h) w.

(** Mutation of the agent object registered under [k]. *)
Definition upd (k : string) (f : Agent.t -> Agent.t) (w : World) : World :=
  set_agents (dupd k f (agents w)) w.

(** Continue with the current state of the agent registered under [k]. *)
Definition with_agent (k : string) (w : World) (f : Agent.t -> World) : World :=
  match dget k (agents w) with
  | Some a => f a
  | None => w
  end.

(** [AetherEnhanced.register_agent]; [sx], [sy], [sw] are the three
    [randint] draws, from [4,8], [3,7] and [0,100]. *)
Definition register_agent (now : string) (sx sy sw : Z)
    (name personality : string) (w : World) : World :=
  let agent := Agent.make name personality in
  let agent := Agent.set_x sx agent in
  let agent := Agent.set_y sy agent in
  let agent := Agent.set_wallet (100 + sw) agent in
  let w := set_agents (dset name agent (agents w)) w in
  chat now "system"
    ("🎉 " +++ name +++ " the " +++ Py.title personality
       +++ " enters Kanto-Prime!")
    "join" w.

Definition spawn_ok (sx sy sw : Z) : Prop :=
  4 <= sx <= 8 /\ 3 <= sy <= 7 /\ 0 <= sw <= 100.

(** One iteration of the loop of [check_territory]. *)
Definition tax_step (now who : string) (terr : Territory.t) (w : World) : World :=
  with_agent who w (fun agent =>
    if (Territory.x terr =? Agent.x agent) && (Territory.y terr =? Agent.y agent) then
      if negb (String.eqb (Territory.owner terr) (Agent.name agent)) then
        let tax := Py.int_mul (Agent.wallet agent) (Territory.tax_rate terr) in
        let w := upd who (fun a => Agent.set_wallet (Agent.wallet a - tax) a) w in
        let w :=
          match dget (Territory.owner terr) (agents w) with
          | Some _ =>
              upd (Territory.owner terr)
                (fun o => Agent.set_wallet (Agent.wallet o + tax) o) w
          | None => w
          end in
        chat now (Agent.name agent)
          ("Paid " +++ Py.str tax +++ "g tax to " +++ Territory.owner terr
             +++ "'s territory")
          "system" w
      else w
    else w).

(** [AetherEnhanced.check_territory] *)
Definition check_territory (now who : string) (w : World) : World :=
  fold_left (fun w terr => tax_step now who terr w) (territories w) w.

(** The position update of the move branch. *)
Definition step_dir (direction : string) (a : Agent.t) : Agent.t :=
  if String.eqb direction "up" then Agent.set_y (Z.max 4 (Agent.y a - 1)) a
  else if String.eqb direction "down" then Agent.set_y (Z.min 11 (Agent.y a + 1)) a
  else if String.eqb direction "left" then Agent.set_x (Z.max 4 (Agent.x a - 1)) a
  else if String.eqb direction "right" then Agent.set_x (Z.min 11 (Agent.x a + 1)) a
  else a.

(** The level-up check of the move branch. *)
Definition level_up (now who : string) (w : World) : World :=
  with_agent who w (fun agent =>
    if Agent.level agent * 10 <=? Agent.xp agent then
      let w := upd who (fun a => Agent.set_level (Agent.level a + 1) a) w in
      let w := upd who (Agent.set_xp 0) w in
      let w := upd who (fun a => Agent.set_wallet (Agent.wallet a + 50) a) w in
      chat now (Agent.name agent)
        ("Leveled up to " +++ Py.str (Agent.level agent + 1)
           +++ "! Gained 50g bonus!")
        "levelup" w
    else w).

(** The periodic movement announcement of the move branch. *)
Definition announce (now who direction : string) (w : World) : World :=
  with_agent who w (fun agent =>
    if Agent.actions agent mod 5 =? 0 then
      chat now (Agent.name agent)
        ("Moving " +++ direction +++ " to (" +++ Py.str (Agent.x agent)
           +++ ", " +++ Py.str (Agent.y agent) +++ ")")
        "movement" w
    else w).

(** The move branch up to its territory check. *)
Definition arrive (e : Env) (who action : string) (w : World) : World :=
  let direction := List.last (Py.split action) EmptyString in
  let w := upd who (step_dir direction) w in
  let w := upd who (fun a => Agent.set_actions (Agent.actions a + 1) a) w in
  let w := upd who (fun a => Agent.set_xp (Agent.xp a + 1) a) w in
  let w := level_up (now e) who w in
  announce (now e) who direction w.

Definition do_move (e : Env) (who action : string) (w : World) : World :=
  check_territory (now e) who (arrive e who action w).

Definition do_say (e : Env) (who action : string) (w : World) : World :=
  with_agent who w (fun agent =>
    chat (now e) (Agent.name agent) (Py.drop 4 action) "chat" w).

Definition do_search (e : Env) (who : string) (w : World) : World :=
  with_agent who w (fun agent =>
    let found_type := found e in
    let item := Item.mk found_type 1 (Agent.name agent) (market_prices w found_type) in
    let w := upd who (fun a => Agent.set_inventory (Agent.inventory a ++ [item]) a) w in
    let w := upd who (fun a => Agent.set_xp (Agent.xp a + 5) a) w in
    chat (now e) (Agent.name agent)
      ("Found " +++ item_label found_type +++ "!") "loot" w).

Definition do_buy_land (e : Env) (who : string) (w : World) : World :=
  with_agent who w (fun agent =>
    if 150 <=? Agent.wallet agent then
      let w := upd who (fun a => Agent.set_wallet (Agent.wallet a - 150) a) w in
      let territory :=
        Territory.make (Agent.x agent) (Agent.y agent) (Agent.name agent)
          (Agent.name agent +++ "'s Land") in
      let w := set_territories (territories w ++ [territory]) w in
      let w := upd who (fun a =>
        Agent.set_inventory
          (Agent.inventory a ++ [Item.mk LAND_DEED 1 (Agent.name agent) 150]) a) w in
      chat (now e) (Agent.name agent)
        ("Bought land at (" +++ Py.str (Agent.x agent) +++ ", "
           +++ Py.str (Agent.y agent) +++ ")!")
        "system" w
    else w).

(** [action.split()[1] if len(action.split()) > 1 else None] *)
Definition target_of (action : string) : option string :=
  match Py.split action with
  | _ :: t :: _ => Some t
  | _ => None
  end.

(** The statements of a successful sale, in source order. *)
Definition settle_trade (e : Env) (who target_name : string)
    (agent target : Agent.t) (item : Item.t) (price : Z) (w : World) : World :=
  let w := upd target_name (fun t => Agent.set_wallet (Agent.wallet t - price) t) w in
  let w := upd who (fun a => Agent.set_wallet (Agent.wallet a + price) a) w in
  let item := Item.set_owner (Agent.name target) item in
  let w := upd who (fun a => Agent.set_inventory (tl (Agent.inventory a)) a) w in
  let w := upd target_name (fun t =>
             Agent.set_inventory (Agent.inventory t ++ [item]) t) w in
  chat (now e) (Agent.name agent)
    ("Sold " +++ item_label (Item.type item) +++ " to " +++ Agent.name target
       +++ " for " +++ Py.str price +++ "g!")
    "trade" w.

Definition do_offer_trade (e : Env) (who action : string) (w : World) : World :=
  with_agent who w (fun agent =>
    match target_of action with
    | Some target_name =>
        match dget target_name (agents w) with
        | Some target =>
            match Agent.inventory agent with
            | item :: _ =>
                if 30 <=? Agent.wallet target then
                  let price := market_prices w (Item.type item) + trade_delta e in
                  if price <=? Agent.wallet target then
                    settle_trade e who target_name agent target item price w
                  else w
                else w
            | [] => w
            end
        | None => w
        end
    | None => w
    end).

Definition do_challenge (e : Env) (who action : string) (w : World) : World :=
  with_agent who w (fun agent =>
    match target_of action with
    | Some target_name =>
        match dget target_name (agents w) with
        | Some target =>
            let power := roll e + Agent.level agent in
            let target_power := target_roll e + Agent.level target in
            if target_power <? power then
              let winnings := Z.min (Agent.wallet target / 10) 50 in
              let w := upd target_name
                         (fun t => Agent.set_wallet (Agent.wallet t - winnings) t) w in
              let w := upd who
                         (fun a => Agent.set_wallet (Agent.wallet a + winnings) a) w in
              chat (now e) (Agent.name agent)
                ("Defeated " +++ Agent.name target +++ " in battle! Won "
                   +++ Py.str winnings +++ "g!")
                "battle" w
            else
              let loss := Z.min (Agent.wallet agent / 10) 30 in
              let w := upd who
                         (fun a => Agent.set_wallet (Agent.wallet a - loss) a) w in
              let w := upd target_name
                         (fun t => Agent.set_wallet (Agent.wallet t + loss) t) w in
              chat (now e) (Agent.name agent)
                ("Lost to " +++ Agent.name target +++ "! Lost "
                   +++ Py.str loss +++ "g!")
                "battle" w
        | None => w
        end
    | None => w
    end).

(** [AetherEnhanced.execute_action].  The acting agent is the object
    registered under [who]; the only caller, [tick_world], passes
    registered agents, and for an unregistered key the embedding
    leaves the world as it is. *)
Definition execute_action (e : Env) (who action : string) (w : World) : World :=
  if Py.startswith action "move" then do_move e who action w
  else if Py.startswith action "say" then do_say e who action w
  else if String.eqb action "search" then do_search e who w
  else if String.eqb action "buy_land" then do_buy_land e who w
  else if Py.startswith action "offer_trade" then do_offer_trade e who action w
  else if Py.startswith action "challenge" then do_challenge e who action w
  else w.

(** [AetherEnhanced.get_nearest_agent] *)
Definition get_nearest_agent (agent : Agent.t) (w : World) : option Agent.t :=
  let others :=
    List.filter (fun a => negb (String.eqb (Agent.name a) (Agent.name agent)))
      (dvalues (agents w)) in
  Py.min_by
    (fun a => Z.abs (Agent.x a - Agent.x agent) + Z.abs (Agent.y a - Agent.y agent))
    others.

(** [AetherEnhanced.get_richest_agent]; an empty [exclude] is falsy
    and excludes nobody. *)
Definition get_richest_agent (exclude : string) (w : World) : option Agent.t :=
  let candidates :=
    if String.eqb exclude "" then dvalues (agents w)
    else List.filter (fun a => negb (String.eqb (Agent.name a) exclude))
           (dvalues (agents w)) in
  Py.max_by Agent.wallet candidates.

Definition directions : list string := ["up"; "down"; "left"; "right"]%string.

(** [random.choice(["up", "down", "left", "right"])] *)
Definition random_direction (e : Env) : string := Py.choice (pick e) directions "up"%string.

(** The approach step shared by the social, merchant and fighter
    branches: a bare direction, without the [move] keyword. *)
Definition toward (dx dy : Z) : string :=
  if Z.abs dy <? Z.abs dx then (if 0 <? dx then "right" else "left")
  else (if 0 <? dy then "down" else "up").

Definition adjacent (dx dy : Z) : bool := (Z.abs dx <=? 1) && (Z.abs dy <=? 1).

(** [Agent.think] *)
Definition think (e : Env) (self : Agent.t) (w : World) : string :=
  let p := Agent.personality self in
  if String.eqb p "explorer" then
    if 10 <? Agent.y self then "move up"
    else if Agent.y self <? 2 then "move down"
    else if 15 <? Agent.x self then "move left"
    else random_direction e
  else if String.eqb p "gatherer" then
    if Qle_bool (coin e) (7 # 10) then
      if 150 <=? Agent.wallet self then "buy_land" else random_direction e
    else "search"
  else if String.eqb p "social" then
    match get_nearest_agent self w with
    | Some nearest =>
        let dx := Agent.x nearest - Agent.x self in
        let dy := Agent.y nearest - Agent.y self in
        if adjacent dx dy then
          if Qle_bool (coin e) (1 # 2)
          then "offer_trade " +++ Agent.name nearest
          else "say Hey " +++ Agent.name nearest +++ "! Want to team up?"
        else toward dx dy
    | None => random_direction e
    end
  else if String.eqb p "merchant" then
    match get_richest_agent (Agent.name self) w with
    | Some target =>
        let dx := Agent.x target - Agent.x self in
        let dy := Agent.y target - Agent.y self in
        if adjacent dx dy && negb (Nat.eqb (length (Agent.inventory self)) 0)
        then "offer_trade " +++ Agent.name target
        else toward dx dy
    | None => random_direction e
    end
  else if String.eqb p "fighter" then
    let others :=
      List.filter (fun a => negb (String.eqb (Agent.name a) (Agent.name self)))
        (dvalues (agents w)) in
    match others with
    | [] => random_direction e
    | first :: _ =>
        let target := Py.choice (pick e) others first in
        let dx := Agent.x target - Agent.x self in
        let dy := Agent.y target - Agent.y self in
        if adjacent dx dy then "challenge " +++ Agent.name target
        else toward dx dy
    end
  else "move up".

(** What one call of [tick_world] draws: the draws of each agent's turn
    (by position in the registry), those of the world event and the
    price changes of the market fluctuation. *)
Record TickEnv := mkTickEnv {
  turn : nat -> Env;
  event_coin : Q;            (* random.random() *)
  event_pick : nat;          (* random.choice(self.events) *)
  event_now : string;
  change : ItemType -> Z     (* random.randint(-2, 5), per item type *)
}.

(** The body of the agent loop of [tick_world] for the agent
    registered under [k], whose turn is the [i]-th. *)
Definition agent_turn (te : TickEnv) (w : World) (ik : nat * string) : World :=
  let '(i, k) := ik in
  with_agent k w (fun agent =>
    let action := think (turn te i) agent w in
    execute_action (turn te i) k action w).

Definition world_event (te : TickEnv) (w : World) : World :=
  if Qle_bool (12 # 100) (event_coin te) then w
  else chat (event_now te) "World"
         (Py.choice (event_pick te) (events w) EmptyString) "event" w.

Definition fluctuate (te : TickEnv) (w : World) : World :=
  if tick w mod 10 =? 0 then
    set_market_prices
      (fun t => Z.max 10 (market_prices w t + change te t)) w
  else w.

(** [AetherEnhanced.tick_world] *)
Definition tick_world (te : TickEnv) (w : World) : World :=
  let w := set_tick (tick w + 1) w in
  let keys := dkeys (agents w) in
  let w := fold_left (agent_turn te) (combine (seq 0 (length keys)) keys) w in
  let w := world_event te w in
  fluctuate te w.

(** The operations of the world. *)
Inductive Op :=
| OpRegister (now : string) (sx sy sw : Z) (name personality : string)
| OpAct (e : Env) (who action : string)
| OpTick (te : TickEnv).

Definition apply_op (w : World) (op : Op) : World :=
  match op with
  | OpRegister now sx sy sw name personality =>
      register_agent now sx sy sw name personality w
  | OpAct e who action => execute_action e who action w
  | OpTick te => tick_world te w
  end.

Definition run (ops : list Op) (w : World) : World := fold_left apply_op ops w.

(** The draws lie in the ranges the source asks [random] for. *)
Definition op_ok (op : Op) : Prop :=
  match op with
  | OpRegister _ sx sy sw _ _ => spawn_ok sx sy sw
  | OpAct e _ _ => env_ok e
  | OpTick te => forall i, env_ok (turn te i)
  end.

(** *** Predicates of the specification *)

(** Every registered agent has a non-negative wallet. *)
Definition wallets_nonneg (w : World) : Prop :=
  forall k a, dget k (agents w) = Some a -> 0 <= Agent.wallet a.

(** What the class maintains besides the wallets: no price below the
    floor 10 of the market fluctuation (the constructor starts at 20
    and above). *)
Definition well_formed (w : World) : Prop :=
  forall t, 10 <= market_prices w t.

(** The invariant of the trades and battles: wallets and prices. *)
Definition Inv (w : World) : Prop := wallets_nonneg w /\ well_formed w.

(** [Q k a] holds of every agent [a] and its registry key [k]. *)
Definition every_agent (Q : string -> Agent.t -> Prop) (w : World) : Prop :=
  forall k a, dget k (agents w) = Some a -> Q k a.

(** Every agent object is registered under its own name. *)
Definition names_ok (w : World) : Prop :=
  every_agent (fun k a => Agent.name a = k) w.

(** Where the code keeps an agent: columns 4 to 11, rows 3 to 11. *)
Definition in_reach (a : Agent.t) : Prop :=
  4 <= Agent.x a <= 11 /\ 3 <= Agent.y a <= 11.

(** The guards of [execute_action]: the action strings one of its
    branches recognises. *)
Definition recognized (action : string) : bool :=
  Py.startswith action "move" || Py.startswith action "say"
  || String.eqb action "search" || String.eqb action "buy_land"
  || Py.startswith action "offer_trade" || Py.startswith action "challenge".

(** The action forms as the specification lists them (move <dir>,
    say <text>, search, buy_land, offer_trade <target>,
    challenge <target>): the first word of the string is one of the
    six keywords. *)
Definition listed_form (action : string) : bool :=
  match Py.split action with
  | keyword :: _ =>
      existsb (String.eqb keyword)
        ["move"; "say"; "search"; "buy_land"; "offer_trade"; "challenge"]%string
  | [] => false
  end.

(** The rectangle of the move branch. *)
Definition in_rectangle (a : Agent.t) : Prop :=
  4 <= Agent.x a <= 11 /\ 4 <= Agent.y a <= 11.


(** The price [offer_trade] asks for [item]: its market price and the
    draw from [-5, 5]. *)
Definition quote (e : Env) (w : World) (item : Item.t) : Z :=
  market_prices w (Item.type item) + trade_delta e.

(** The actor holds something and the target's wallet covers the
    price of the first item. *)
Definition affordable (e : Env) (agent target : Agent.t) (w : World) : Prop :=
  exists item, hd_error (Agent.inventory agent) = Some item /\
               quote e w item <= Agent.wallet target.

(** The sale from [w] to [w']: the first item of the agent registered
    under [who], re-labelled with the target's name, has moved to the
    end of the inventory of the agent registered under [tn], its
    price has moved the other way, nobody else is touched, and a
    trade entry of the seller is in the chat. *)
Definition sale (e : Env) (who tn : string) (agent target : Agent.t)
    (w w' : World) : Prop :=
  exists item,
    hd_error (Agent.inventory agent) = Some item /\
    dget who (agents w') =
      Some (Agent.set_inventory (tl (Agent.inventory agent))
              (Agent.set_wallet (Agent.wallet agent + quote e w item) agent)) /\
    dget tn (agents w') =
      Some (Agent.set_inventory
              (Agent.inventory target ++ [Item.set_owner (Agent.name target) item])
              (Agent.set_wallet (Agent.wallet target - quote e w item) target)) /\
    (forall k, k <> who -> k <> tn -> dget k (agents w') = dget k (agents w)) /\
    exists text,
      chat_history w' =
      chat_history (chat (now e) (Agent.name agent) text "trade" w).

(** [floor(wallet * tax_rate)] *)
Definition floor_mul (z : Z) (r : Q) : Z := Qfloor (inject_Z z * r).


End Enhanced.

(** ** aether_full.py *)

Module Full.

Local Notation "a +++ b" := (String.append a b)
  (at level 60, right associativity).

Inductive ItemType := POTION | POKEBALL | GOLD | LAND.

Definition item_label (t : ItemType) : string :=
  match t with
  | POTION => "potion" | POKEBALL => "pokeball" | GOLD => "gold" | LAND => "land"
  end.

Module Item.
Record t := mk { type : ItemType; quantity : Z; owner : string }.
Definition set_owner (o : string) (i : t) : t := mk (type i) (quantity i) o.
End Item.

Module Territory.
Record t := mk { x : Z; y : Z; owner : string; name : string; value : Z }.
Definition make (x y : Z) (owner name : string) : t := mk x y owner name 100.
End Territory.

Module Agent.
Record t := mk {
  name : string;
  personality : string;
  x : Z;
  y : Z;
  wallet : Z;
  inventory : list Item.t;
  actions : Z;
  reputation : Z;
  guild : option string;
  messages : list string
}.
Definition make (name personality : string) : t :=
  mk name personality 0 0 100 [] 0 50 None [].
Definition set_x (v : Z) (a : t) : t :=
  mk (name a) (personality a) v (y a) (wallet a) (inventory a)
     (actions a) (reputation a) (guild a) (messages a).
Definition set_y (v : Z) (a : t) : t :=
  mk (name a) (personality a) (x a) v (wallet a) (inventory a)
     (actions a) (reputation a) (guild a) (messages a).
Definition set_wallet (v : Z) (a : t) : t :=
  mk (name a) (personality a) (x a) (y a) v (inventory a)
     (actions a) (reputation a) (guild a) (messages a).
Definition set_inventory (v : list Item.t) (a : t) : t :=
  mk (name a) (personality a) (x a) (y a) (wallet a) v
     (actions a) (reputation a) (guild a) (messages a).
Definition set_actions (v : Z) (a : t) : t :=
  mk (name a) (personality a) (x a) (y a) (wallet a) (inventory a)
     v (reputation a) (guild a) (messages a).
Definition set_messages (v : list string) (a : t) : t :=
  mk (name a) (personality a) (x a) (y a) (wallet a) (inventory a)
     (actions a) (reputation a) (guild a) v.
End Agent.

Module Line.
Record t := mk { text : string; type : string }.
End Line.

(** The state of an [AetherWorld] object (its lock and its unused
    [log] list apart). *)
Record World := mkWorld {
  agents : dict Agent.t;
  territories : list Territory.t;
  market : ItemType -> Z;
  tick : Z;
  chat_overlay : list Line.t
}.

Definition set_agents (v : dict Agent.t) (w : World) : World :=
  mkWorld v (territories w) (market w) (tick w) (chat_overlay w).
Definition set_territories (v : list Territory.t) (w : World) : World :=
  mkWorld (agents w) v (market w) (tick w) (chat_overlay w).
Definition set_chat_overlay (v : list Line.t) (w : World) : World :=
  mkWorld (agents w) (territories w) (market w) (tick w) v.

Definition init : World :=
  mkWorld [] []
    (fun t => match t with POTION => 20 | POKEBALL => 50 | GOLD => 1 | LAND => 100 end)
    0 [].

Record Env := mkEnv {
  now : string;
  found : nat;             (* index drawn among POTION, POKEBALL, GOLD *)
  trade_delta : Z          (* random.randint(-5, 10) *)
}.

Definition chat_limit : Z := 20.

(** [AetherWorld.broadcast] *)
Definition broadcast (now message msg_type : string) (w : World) : World :=
  let formatted := "[" +++ now +++ "] " +++ message in
  let h := chat_overlay w ++ [Line.mk formatted msg_type] in
  set_chat_overlay
    (if chat_limit <? Z.of_nat (length h) then tl h else h) w.

Definition upd (k : string) (f : Agent.t -> Agent.t) (w : World) : World :=
  set_agents (dupd k f (agents w)) w.

Definition with_agent (k : string) (w : World) (f : Agent.t -> World) : World :=
  match dget k (agents w) with
  | Some a => f a
  | None => w
  end.

(** [AetherWorld.register_agent]; spawn draws from [-2,2], [-2,2] and
    [0,50]. *)
Definition register_agent (now : string) (sx sy sw : Z)
    (name personality : string) (w : World) : World :=
  let agent := Agent.make name personality in
  let agent := Agent.set_x sx agent in
  let agent := Agent.set_y sy agent in
  let agent := Agent.set_wallet (100 + sw) agent in
  let w := set_agents (dset name agent (agents w)) w in
  broadcast now
    ("🎉 " +++ name +++ " (" +++ personality +++ ") has entered Kanto-Prime!")
    "system" w.

Definition step_dir (direction : string) (a : Agent.t) : Agent.t :=
  if String.eqb direction "up" then Agent.set_y (Z.max (-50) (Agent.y a - 1)) a
  else if String.eqb direction "down" then Agent.set_y (Z.min 50 (Agent.y a + 1)) a
  else if String.eqb direction "left" then Agent.set_x (Z.max (-50) (Agent.x a - 1)) a
  else if String.eqb direction "right" then Agent.set_x (Z.min 50 (Agent.x a + 1)) a
  else a.

(** [AetherWorld.check_territory]: a warning per foreign territory on
    the agent's cell, no tax. *)
Definition check_territory (now who : string) (w : World) : World :=
  fold_left
    (fun w terr =>
       with_agent who w (fun agent =>
         if (Territory.x terr =? Agent.x agent) && (Territory.y terr =? Agent.y agent)
            && negb (String.eqb (Territory.owner terr) (Agent.name agent))
         then broadcast now
                ("⚠️ " +++ Agent.name agent +++ " entered " +++ Territory.owner terr
                   +++ "'s territory!") "warning" w
         else w))
    (territories w) w.

Definition target_of (action : string) : option string :=
  match Py.split action with
  | _ :: t :: _ => Some t
  | _ => None
  end.

Definition settle_trade (e : Env) (who target_name : string)
    (agent target : Agent.t) (item : Item.t) (price : Z) (w : World) : World :=
  let w := upd target_name (fun t => Agent.set_wallet (Agent.wallet t - price) t) w in
  let w := upd who (fun a => Agent.set_wallet (Agent.wallet a + price) a) w in
  let item := Item.set_owner (Agent.name target) item in
  let w := upd who (fun a => Agent.set_inventory (tl (Agent.inventory a)) a) w in
  let w := upd target_name (fun t =>
             Agent.set_inventory (Agent.inventory t ++ [item]) t) w in
  broadcast (now e)
    ("💰 " +++ Agent.name agent +++ " sold " +++ item_label (Item.type item)
       +++ " to " +++ Agent.name target +++ " for " +++ Py.str price +++ "g!")
    "trade" w.

Definition do_offer_trade (e : Env) (who action : string) (w : World) : World :=
  with_agent who w (fun agent =>
    match target_of action with
    | Some target_name =>
        match dget target_name (agents w) with
        | Some target =>
            match Agent.inventory agent with
            | item :: _ =>
                let price := market w (Item.type item) + trade_delta e in
                if price <=? Agent.wallet target then
                  settle_trade e who target_name agent target item price w
                else w
            | [] => w
            end
        | None => w
        end
    | None => w
    end).

Definition do_move (e : Env) (who action : string) (w : World) : World :=
  let direction := List.last (Py.split action) EmptyString in
  let w := upd who (step_dir direction) w in
  let w := upd who (fun a => Agent.set_actions (Agent.actions a + 1) a) w in
  let w := with_agent who w (fun agent =>
    if Agent.actions agent mod 5 =? 0 then
      broadcast (now e)
        ("🚶 " +++ Agent.name agent +++ " moved " +++ direction +++ " to ("
           +++ Py.str (Agent.x agent) +++ ", " +++ Py.str (Agent.y agent) +++ ")")
        "movement" w
    else w) in
  check_territory (now e) who w.

Definition do_say (e : Env) (who action : string) (w : World) : World :=
  with_agent who w (fun agent =>
    let msg := Py.drop 4 action in
    let w := upd who (fun a => Agent.set_messages (Agent.messages a ++ [msg]) a) w in
    broadcast (now e) ("💬 " +++ Agent.name agent +++ ": " +++ msg) "chat" w).

Definition do_gather (e : Env) (who : string) (w : World) : World :=
  with_agent who w (fun agent =>
    let found_type := Py.choice (found e) [POTION; POKEBALL; GOLD] POTION in
    let w := upd who (fun a =>
      Agent.set_inventory
        (Agent.inventory a ++ [Item.mk found_type 1 (Agent.name agent)]) a) w in
    broadcast (now e)
      ("✨ " +++ Agent.name agent +++ " found " +++ item_label found_type +++ "!")
      "loot" w).

Definition do_buy_land (e : Env) (who : string) (w : World) : World :=
  with_agent who w (fun agent =>
    if 100 <=? Agent.wallet agent then
      let w := upd who (fun a => Agent.set_wallet (Agent.wallet a - 100) a) w in
      let w := set_territories
                 (territories w ++
                    [Territory.make (Agent.x agent) (Agent.y agent) (Agent.name agent)
                       (Agent.name agent +++ "'s Land")]) w in
      broadcast (now e)
        ("🏰 " +++ Agent.name agent +++ " bought land at ("
           +++ Py.str (Agent.x agent) +++ ", " +++ Py.str (Agent.y agent) +++ ")!")
        "system" w
    else w).

(** [AetherWorld.execute_action] *)
Definition execute_action (e : Env) (who action : string) (w : World) : World :=
  if Py.startswith action "move" then do_move e who action w
  else if Py.startswith action "say" then do_say e who action w
  else if String.eqb action "gather" then do_gather e who w
  else if String.eqb action "buy_land" then do_buy_land e who w
  else if Py.startswith action "offer_trade" then do_offer_trade e who action w
  else w.

(** *** Predicates of the specification *)

Definition quote (e : Env) (w : World) (item : Item.t) : Z :=
  market w (Item.type item) + trade_delta e.

Definition affordable (e : Env) (agent target : Agent.t) (w : World) : Prop :=
  exists item, hd_error (Agent.inventory agent) = Some item /\
               quote e w item <= Agent.wallet target.

Definition sale (e : Env) (who tn : string) (agent target : Agent.t)
    (w w' : World) : Prop :=
  exists item,
    hd_error (Agent.inventory agent) = Some item /\
    dget who (agents w') =
      Some (Agent.set_inventory (tl (Agent.inventory agent))
              (Agent.set_wallet (Agent.wallet agent + quote e w item) agent)) /\
    dget tn (agents w') =
      Some (Agent.set_inventory
              (Agent.inventory target ++ [Item.set_owner (Agent.name target) item])
              (Agent.set_wallet (Agent.wallet target - quote e w item) target)) /\
    (forall k, k <> who -> k <> tn -> dget k (agents w') = dget k (agents w)) /\
    exists text,
      chat_overlay w' = chat_overlay (broadcast (now e) text "trade" w).

End Full.

(** ** live_showcase.py: the chat overlay *)

Module Showcase.

Module Message.
Record t := mk {
  time : string;
  agent : string;
  text : string;
  type : string;
  tick : Z
}.
End Message.

(** A [ChatOverlay] object ([agents], never written, apart). *)
Record ChatOverlay := mkChatOverlay {
  messages : list Message.t;
  max_lines : Z
}.

(** [ChatOverlay(max_lines)]; the default is 10, the showcase passes 15. *)
Definition new (max_lines : Z) : ChatOverlay := mkChatOverlay [] max_lines.

(** [ChatOverlay.add_message]; [now] and [stamp] are the clock reading
    and [int(time.time() * 10) % 10000]. *)
Definition add_message (now : string) (stamp : Z) (agent text msg_type : string)
    (c : ChatOverlay) : ChatOverlay :=
  let h := messages c ++ [Message.mk now agent text msg_type stamp] in
  mkChatOverlay
    (if max_lines c <? Z.of_nat (length h) then tl h else h)
    (max_lines c).

End Showcase.

(** ** aether_server.py: the agent registry of the emulator server *)

Module Server.

Module Agent.
Record t := mk {
  name : string;
  x : Z;
  y : Z;
  map_id : Z;
  last_seen : string;
  action_count : Z
}.
(** [Agent(name=name)] *)
Definition make (name : string) : t := mk name 0 0 0 "" 0.
End Agent.

(** What [_get_position] reads from the emulated memory. *)
Record Position := mkPosition { pos_x : Z; pos_y : Z; pos_map : Z }.

(** The registry part of an [AetherMCPServer] object. *)
Record State := mkState {
  agents : gmap string Agent.t;
  current_agent : option string;
  tick_count : Z
}.

Definition init : State := mkState ∅ None 0.

(** The result dictionary of [register_agent]:
    [{"success": True, "agent": ..., "position": asdict(agent)}]. *)
Record Reply := mkReply {
  success : bool;
  agent : string;
  position : Agent.t
}.

(** [AetherMCPServer.register_agent]: a new object only for a new
    name; then the object under [name] gets the emulator's position
    and the clock reading. *)
Definition register_agent (now : string) (pos : Position) (name : string)
    (s : State) : State * Reply :=
  let registry :=
    match agents s !! name with
    | None => <[name := Agent.make name]> (agents s)
    | Some _ => agents s
    end in
  let agent := default (Agent.make name) (registry !! name) in
  let agent :=
    Agent.mk (Agent.name agent) (pos_x pos) (pos_y pos) (pos_map pos) now
      (Agent.action_count agent) in
  (mkState (<[name := agent]> registry) (Some name) (tick_count s),
   mkReply true name agent).

End Server.

(** ** multi_agent_test.py: the orchestrator *)

Module Orchestrator.

Module Agent.
Record t := mk {
  name : string;
  personality : string;
  x : Z;
  y : Z;
  map_id : Z;
  actions : Z;
  inventory : list string
}.
(** [Agent(name=..., personality=...)]; [__post_init__] replaces the
    [None] inventory by an empty list. *)
Definition make (name personality : string) : t := mk name personality 0 0 0 0 [].
Definition set_x (v : Z) (a : t) : t :=
  mk (name a) (personality a) v (y a) (map_id a) (actions a) (inventory a).
Definition set_y (v : Z) (a : t) : t :=
  mk (name a) (personality a) (x a) v (map_id a) (actions a) (inventory a).
Definition set_actions (v : Z) (a : t) : t :=
  mk (name a) (personality a) (x a) (y a) (map_id a) v (inventory a).
End Agent.

(** The keyword arguments of [log_event], per event type. *)
Inductive Payload :=
| Registered (agent personality : string)
| Moved (agent direction : string) (from_pos to_pos : Z * Z) (actions : Z)
| Spoke (agent message : string)
| Thought (agent thought : string)
| Interacted (agent1 agent2 interaction : string) (location : Z * Z).

Module Entry.
Record t := mk {
  timestamp : string;
  tick : Z;
  event : string;
  kwargs : Payload
}.
End Entry.

(** An element of [world_state["agents"]]. *)
Record Sighting := mkSighting {
  s_name : string; s_x : Z; s_y : Z; s_map : Z
}.

(** The state of an [AetherOrchestrator] object; [tick] and
    [seen] are [world_state["tick"]] and [world_state["agents"]]. *)
Record State := mkState {
  agents : dict Agent.t;
  tick : Z;
  seen : list Sighting;
  log : list Entry.t;
  running : bool
}.

Definition init : State := mkState [] 0 [] [] false.

Definition set_agents (v : dict Agent.t) (o : State) : State :=
  mkState v (tick o) (seen o) (log o) (running o).

(** [AetherOrchestrator.log_event]: the log is append-only. *)
Definition log_event (now event_type : string) (kwargs : Payload) (o : State) : State :=
  mkState (agents o) (tick o) (seen o)
    (log o ++ [Entry.mk now (tick o) event_type kwargs]) (running o).

(** [AetherOrchestrator.register_agent] *)
Definition register_agent (now name personality : string) (o : State) : State :=
  let agent := Agent.make name personality in
  let o := set_agents (dset name agent (agents o)) o in
  log_event now "AGENT_REGISTERED" (Registered name personality) o.

(** The body of the inner loop of [check_interactions]. *)
Definition meet (now : string) (a1 : Agent.t) (o : State) (a2 : Agent.t) : State :=
  let distance := Z.abs (Agent.x a1 - Agent.x a2) + Z.abs (Agent.y a1 - Agent.y a2) in
  if distance =? 0 then
    log_event now "AGENT_INTERACTED"
      (Interacted (Agent.name a1) (Agent.name a2) "MET" (Agent.x a1, Agent.y a1)) o
  else o.

(** The outer loop over [enumerate(agent_list)]: [a1] against
    [agent_list[i+1:]]. *)
Fixpoint interactions (now : string) (agent_list : list Agent.t) (o : State) : State :=
  match agent_list with
  | [] => o
  | a1 :: rest => interactions now rest (fold_left (meet now a1) rest o)
  end.

(** [AetherOrchestrator.check_interactions] *)
Definition check_interactions (now : string) (o : State) : State :=
  interactions now (dvalues (agents o)) o.

Definition step_dir (direction : string) (a : Agent.t) : Agent.t :=
  if String.eqb direction "up" then Agent.set_y (Z.max 0 (Agent.y a - 1)) a
  else if String.eqb direction "down" then Agent.set_y (Z.min 255 (Agent.y a + 1)) a
  else if String.eqb direction "left" then Agent.set_x (Z.max 0 (Agent.x a - 1)) a
  else if String.eqb direction "right" then Agent.set_x (Z.min 255 (Agent.x a + 1)) a
  else a.

(** [AetherOrchestrator.execute_action] *)
Definition execute_action (now who action : string) (o : State) : State :=
  match dget who (agents o) with
  | None => o
  | Some agent =>
      if Py.startswith action "move" then
        let direction := List.last (Py.split action) EmptyString in
        let old_pos := (Agent.x agent, Agent.y agent) in
        let moved := step_dir direction agent in
        let moved := Agent.set_actions (Agent.actions moved + 1) moved in
        let o := set_agents (dset who moved (agents o)) o in
        log_event now "AGENT_MOVED"
          (Moved (Agent.name moved) direction old_pos
             (Agent.x moved, Agent.y moved) (Agent.actions moved)) o
      else if Py.startswith action "say" then
        log_event now "AGENT_SPOKE" (Spoke (Agent.name agent) (Py.drop 4 action)) o
      else if String.eqb action "observe" then
        log_event now "AGENT_THOUGHT"
          (Thought (Agent.name agent) "Observing the world...") o
      else o
  end.

(** The body of the agent loop of [simulate_world].  The decisions of
    [Agent.think] are an input: [decide agent seen] is the action the
    agent returns for the published sightings. *)
Definition turn (now : string) (decide : Agent.t -> list Sighting -> string)
    (o : State) (k : string) : State :=
  match dget k (agents o) with
  | Some agent => execute_action now k (decide agent (seen o)) o
  | None => o
  end.

(** The tick up to its interaction check: the counter, the published
    sightings, and every agent's turn in registry order. *)
Definition act_all (now : string) (decide : Agent.t -> list Sighting -> string)
    (o : State) : State :=
  let o := mkState (agents o) (tick o + 1) (seen o) (log o) (running o) in
  let o := mkState (agents o) (tick o)
             (map (fun a => mkSighting (Agent.name a) (Agent.x a) (Agent.y a)
                              (Agent.map_id a))
                (dvalues (agents o)))
             (log o) (running o) in
  fold_left (turn now decide) (dkeys (agents o)) o.

(** [AetherOrchestrator.simulate_world] *)
Definition simulate_world (now : string) (decide : Agent.t -> list Sighting -> string)
    (o : State) : State :=
  check_interactions now (act_all now decide o).

(** The [AGENT_INTERACTED] entries of a log that report a meeting of
    the agents named [n1] and [n2], in either order. *)
Definition is_met (n1 n2 : string) (en : Entry.t) : bool :=
  String.eqb (Entry.event en) "AGENT_INTERACTED" &&
  match Entry.kwargs en with
  | Interacted a b i _ =>
      String.eqb i "MET" &&
      ((String.eqb a n1 && String.eqb b n2) || (String.eqb a n2 && String.eqb b n1))
  | _ => false
  end.

Definition met_count (n1 n2 : string) (l : list Entry.t) : nat :=
  length (List.filter (is_met n1 n2) l).

(** What [register_agent] and [execute_action] maintain: the keys of
    the registry are distinct, as in any dictionary, and every agent
    object is registered under its own name. *)
Definition well_formed (o : State) : Prop :=
  List.NoDup (dkeys (agents o)) /\
  forall k a, dget k (agents o) = Some a -> Agent.name a = k.

(** Two agents on the same tile. *)
Definition colocated (a1 a2 : Agent.t) : bool :=
  Z.abs (Agent.x a1 - Agent.x a2) + Z.abs (Agent.y a1 - Agent.y a2) =? 0.

(** The entries one run of the check adds for the agents [l], at tick
    [t]: one per pair of positions [i < j] on the same tile. *)
Definition meeting (now : string) (t : Z) (a1 a2 : Agent.t) : list Entry.t :=
  if colocated a1 a2 then
    [Entry.mk now t "AGENT_INTERACTED"
       (Interacted (Agent.name a1) (Agent.name a2) "MET" (Agent.x a1, Agent.y a1))]
  else [].

Fixpoint meetings (now : string) (t : Z) (l : list Agent.t) : list Entry.t :=
  match l with
  | [] => []
  | a1 :: rest => flat_map (meeting now t a1) rest ++ meetings now t rest
  end.

End Orchestrator.

(** ** aether_final.py: the smart agent *)

Module Final.

(** A [SmartAgent] object (its emulator handle apart). *)
Record SmartAgent := mkSmartAgent {
  name : string;
  role : string;
  actions : Z;
  position_history : list (Z * Z);
  last_direction : option string;
  stuck_count : Z
}.

(** [SmartAgent.__init__] *)
Definition new (name role : string) : SmartAgent :=
  mkSmartAgent name role 0 [] None 0.

Definition directions : list string := ["up"; "down"; "left"; "right"]%string.

(** The [perpendicular] table; [perpendicular.get(d, directions)]. *)
Definition perpendicular (d : string) : list string :=
  if String.eqb d "up" then ["left"; "right"]%string
  else if String.eqb d "down" then ["left"; "right"]%string
  else if String.eqb d "left" then ["up"; "down"]%string
  else if String.eqb d "right" then ["up"; "down"]%string
  else directions.

(** [l.index(v)] *)
Fixpoint index (v : string) (l : list string) : option nat :=
  match l with
  | [] => None
  | h :: t => if String.eqb h v then Some O else option_map S (index v t)
  end.

(** [weights[idx] = v] *)
Fixpoint assign (idx : nat) (v : Z) (weights : list Z) : list Z :=
  match idx, weights with
  | _, [] => []
  | O, _ :: t => v :: t
  | S i, h :: t => h :: assign i v t
  end.

(** [itertools.accumulate(weights)] *)
Fixpoint accumulate (acc : Z) (weights : list Z) : list Z :=
  match weights with
  | [] => []
  | h :: t => (acc + h) :: accumulate (acc + h) t
  end.

(** [bisect(cum_weights, x, 0, hi)]: the number of entries, among the
    first [hi], that are at most [x]. *)
Fixpoint bisect (cum_weights : list Z) (x : Q) (hi : nat) : nat :=
  match hi, cum_weights with
  | S hi', c :: t => if Qle_bool (inject_Z c) x then S (bisect t x hi') else O
  | _, _ => O
  end.

(** [random.choices(population, weights=weights)[0]], [u] being the
    value of [random()] in [[0,1)]. *)
Definition choices (u : Q) (population : list string) (weights : list Z) : string :=
  let cum_weights := accumulate 0 weights in
  let total := List.last cum_weights 0 in
  let i := bisect cum_weights (u * inject_Z total)%Q (length population - 1) in
  nth i population EmptyString.

Record Env := mkEnv {
  pick : nat;     (* index drawn by random.choice(choices) *)
  u : Q           (* random() inside random.choices *)
}.

Definition truthy (d : option string) : bool :=
  match d with
  | Some s => negb (String.eqb s "")
  | None => false
  end.

(** [SmartAgent.smart_move]: the agent after the call and the
    direction returned; [None] is the [ValueError] of
    [directions.index] on a string that is no direction. *)
Definition smart_move (e : Env) (a : SmartAgent) : option (SmartAgent * string) :=
  if truthy (last_direction a) && (3 <? stuck_count a) then
    let choices_ := perpendicular (default EmptyString (last_direction a)) in
    let direction := Py.choice (pick e) choices_ EmptyString in
    Some (mkSmartAgent (name a) (role a) (actions a) (position_history a)
            (Some direction) 0,
          direction)
  else
    let weights := [25; 25; 25; 25] in
    let weights' :=
      if truthy (last_direction a) then
        option_map (fun idx => assign idx 5 weights)
          (index (default EmptyString (last_direction a)) directions)
      else Some weights in
    match weights' with
    | Some ws =>
        let direction := choices (u e) directions ws in
        Some (mkSmartAgent (name a) (role a) (actions a) (position_history a)
                (Some direction) (stuck_count a),
              direction)
    | None => None
    end.

(** The directions at right angles to [d]. *)
Definition is_perpendicular (d next : string) : bool :=
  if String.eqb d "up" || String.eqb d "down"
  then String.eqb next "left" || String.eqb next "right"
  else if String.eqb d "left" || String.eqb d "right"
  then String.eqb next "up" || String.eqb next "down"
  else false.

(** Successive calls of [smart_move], one per draw; the directions
    returned, oldest first. *)
Fixpoint moves (es : list Env) (a : SmartAgent) : option (SmartAgent * list string) :=
  match es with
  | [] => Some (a, [])
  | e :: es' =>
      match smart_move e a with
      | Some (a', d) =>
          match moves es' a' with
          | Some (a'', ds) => Some (a'', d :: ds)
          | None => None
          end
      | None => None
      end
  end.

End Final.

(** ** Scenarios

    Small concrete runs, used to exercise the definitions. *)

Module Scenario.
Import Enhanced.

Definition env : Env := mkEnv "12:00:00" POTION 0 7 3 0 (1 # 2).

(** Koolie spawns on the lowest row the spawn draw allows. *)
Definition koolie_alone : World :=
  register_agent "12:00:00" 4 3 100 "Koolie" "explorer" init.

Definition two_agents : World :=
  register_agent "12:00:01" 5 5 25 "Scout-7" "gatherer" koolie_alone.

(** Scout-7 after a first search: level 1, 5 xp. *)
Definition scout_searched : World :=
  execute_action env "Scout-7" "search" two_agents.

(** Koolie buys the cell (4, 4) and Scout-7 walks onto it. *)
Definition koolie_landlord : World :=
  execute_action env "Koolie" "buy_land"
    (execute_action env "Koolie" "move up" two_agents).

(** Scout-7 one step to the left of Koolie's land, and the object it
    is once its next move, up, has arrived there. *)
Definition scout_next_door : World :=
  execute_action env "Scout-7" "move left" koolie_landlord.





(** The full world: Scout-7 has spent its 100 gold on land and then
    found a gold nugget; Koolie stands by. *)
Definition full_seller_without_gold : Full.World :=
  Full.execute_action (Full.mkEnv "12:00:03" 2 0) "Scout-7" "gather"
    (Full.execute_action (Full.mkEnv "12:00:02" 0 0) "Scout-7" "buy_land"
       (Full.register_agent "12:00:01" 1 1 0 "Koolie" "explorer"
          (Full.register_agent "12:00:00" 0 0 0 "Scout-7" "gatherer" Full.init))).

(** Scout-7 holds a potion; Koolie, after buying land with 175 gold,
    is left with 25: enough for the potion at 20, short of 30. *)
Definition koolie_short : World :=
  execute_action env "Scout-7" "search"
    (execute_action env "Koolie" "buy_land"
       (register_agent "12:00:01" 5 5 25 "Scout-7" "gatherer"
          (register_agent "12:00:00" 4 4 75 "Koolie" "explorer" init))).

(** The two objects of [scout_searched] and the Koolie of
    [koolie_short]. *)
Definition potion_of_scout : Item.t := Item.mk POTION 1 "Scout-7" 20.

Definition scout_with_potion : Agent.t :=
  Agent.mk "Scout-7" "gatherer" 5 5 125 [potion_of_scout] 0 50 None 1 5.

Definition koolie_rich : Agent.t :=
  Agent.mk "Koolie" "explorer" 4 3 200 [] 0 50 None 1 0.

Definition koolie_poor : Agent.t :=
  Agent.mk "Koolie" "explorer" 4 4 25 [Item.mk LAND_DEED 1 "Koolie" 150]
    0 50 None 1 0.

(** A world whose chat holds 30 entries. *)
Definition crowded : World :=
  Nat.iter 30 (chat "12:00:30" "World" "Wind rustles the grass" "event") init.

(** The orchestrator after two registrations: both agents are on the
    default tile (0, 0). *)
Definition two_at_origin : Orchestrator.State :=
  Orchestrator.register_agent "12:00:01" "Scout-7" "gatherer"
    (Orchestrator.register_agent "12:00:00" "Koolie" "explorer" Orchestrator.init).

(** Draws under which [random.choices] lands in the first weight
    band: [random()] returns 0.01. *)
Definition low_draw : Final.Env := Final.mkEnv 0 (1 # 100).

Definition demo_ops : list Op :=
  [OpRegister "12:00:00" 4 3 100 "Koolie" "explorer";
   OpRegister "12:00:01" 5 5 25 "Scout-7" "gatherer";
   OpAct env "Scout-7" "search";
   OpAct env "Scout-7" "offer_trade Koolie";
   OpAct env "Koolie" "challenge Scout-7";
   OpAct env "Koolie" "move up";
   OpAct env "Koolie" "buy_land";
   OpAct env "Scout-7" "move left";
   OpAct env "Scout-7" "move up"]%string.

End Scenario.

(** ** Python list slices *)

Module PyList.

(** [l[start:]] for an integer [start]: a negative start counts from
    the end, and either way the start is clipped to the list. *)
Definition slice_from {A : Type} (start : Z) (l : list A) : list A :=
  let n := Z.of_nat (length l) in
  let s := if start <? 0 then Z.max 0 (n + start) else Z.min n start in
  skipn (Z.to_nat s) l.

(** [l[-n:]] *)
Definition last_n {A : Type} (n : Z) (l : list A) : list A := slice_from (- n) l.

(** [sum(l)] *)
Definition sum (l : list Z) : Z := fold_right Z.add 0 l.

(** [m] is the first element of [l] whose key is least. *)
Definition first_least {A : Type} (key : A -> Z) (l : list A) (m : A) : Prop :=
  exists pre post,
    l = pre ++ m :: post /\
    (forall a, In a pre -> key m < key a) /\
    (forall a, In a post -> key m <= key a).

End PyList.

(** ** aether_enhanced.py: measures of a world *)

Module EnhancedWorld.
Import Enhanced.

(** [sum(a.wallet for a in self.agents.values())], the total wealth
    that [run] reports. *)
Definition total_gold (w : World) : Z :=
  PyList.sum (map Agent.wallet (dvalues (agents w))).

(** The messages [print_chat_history(n)] prints: [chat_history[-n:]]. *)
Definition recent (n : Z) (w : World) : list ChatEntry.t :=
  PyList.last_n n (chat_history w).

(** What [think] reads of an agent besides its wallet and inventory. *)
Definition placement (a : Agent.t) : string * Z * Z :=
  (Agent.personality a, Agent.x a, Agent.y a).

(** The five personalities [think] knows. *)
Definition personalities : list string :=
  ["explorer"; "gatherer"; "social"; "merchant"; "fighter"]%string.

(** An agent of a known personality away from the edges at which the
    explorer branch turns back. *)
Definition settled (a : Agent.t) : Prop :=
  In (Agent.personality a) personalities /\
  2 <= Agent.y a <= 10 /\ Agent.x a <= 15.

(** [w'] has the agents of [w] under the same keys, each with the
    personality and position it has in [w]. *)
Definition same_places (w w' : World) : Prop :=
  forall k, option_map placement (dget k (agents w')) =
            option_map placement (dget k (agents w)).

(** The number of world ticks among operations. *)
Definition ticks_in (ops : list Op) : Z :=
  Z.of_nat (length (List.filter
                      (fun op => match op with OpTick _ => true | _ => false end) ops)).

(** The agents other than [agent], as [get_nearest_agent] lists them. *)
Definition others (agent : Agent.t) (w : World) : list Agent.t :=
  List.filter (fun a => negb (String.eqb (Agent.name a) (Agent.name agent)))
    (dvalues (agents w)).

Definition distance (agent a : Agent.t) : Z :=
  Z.abs (Agent.x a - Agent.x agent) + Z.abs (Agent.y a - Agent.y agent).

(** The agents [get_richest_agent] chooses among: everybody for an
    empty [exclude], else those of another name. *)
Definition candidates (exclude : string) (w : World) : list Agent.t :=
  if String.eqb exclude "" then dvalues (agents w)
  else List.filter (fun a => negb (String.eqb (Agent.name a) exclude))
         (dvalues (agents w)).

(** [len([m for m in self.chat_history if m['type'] == t])], the
    counts of the final report of [run]. *)
Definition count_type (t : string) (w : World) : Z :=
  Z.of_nat (length (List.filter (fun m => String.eqb (ChatEntry.type m) t)
                      (chat_history w))).

(** "Total events", the length of the chat history. *)
Definition total_events (w : World) : Z := Z.of_nat (length (chat_history w)).

(** The five registrations of [run], with their draws. *)
Definition opening (now : string) (draw : string -> Z * Z * Z) : list Op :=
  map (fun '(name, personality) =>
         let '(sx, sy, sw) := draw name in
         OpRegister now sx sy sw name personality)
    [("Koolie", "explorer"); ("Scout-7", "gatherer"); ("Merchant-X", "merchant");
     ("HelpBot", "social"); ("Warrior-Z", "fighter")]%string.

(** A registration, or an action that is no move, with its draws in
    the ranges the source asks [random] for. *)
Definition no_move (op : Op) : Prop :=
  match op with
  | OpRegister _ sx sy sw _ _ => spawn_ok sx sy sw
  | OpAct e _ action => env_ok e /\ Py.startswith action "move" = false
  | OpTick _ => False
  end.

(** Registrations, a search, a trade, a battle and a land purchase. *)
Definition dealings : list Op :=
  [OpRegister "12:00:00" 4 3 100 "Koolie" "explorer";
   OpRegister "12:00:01" 5 5 25 "Scout-7" "gatherer";
   OpAct Scenario.env "Scout-7" "search";
   OpAct Scenario.env "Scout-7" "offer_trade Koolie";
   OpAct Scenario.env "Koolie" "challenge Scout-7";
   OpAct Scenario.env "Koolie" "buy_land"]%string.

(** Koolie at the end of [Scenario.demo_ops]. *)
Definition koolie_after_demo : Agent.t :=
  Agent.mk "Koolie" "explorer" 4 4 50
    [Item.mk POTION 1 "Koolie" 20; Item.mk LAND_DEED 1 "Koolie" 150]
    1 50 None 1 1.

End EnhancedWorld.

(** ** Further scenarios *)

Module Cases.
Import Enhanced.

(** A tick in which every agent draws as in [Scenario.env], no world
    event occurs and no price changes. *)
Definition calm_tick : TickEnv :=
  mkTickEnv (fun _ => Scenario.env) (1 # 2) 0 "12:00:05" (fun _ => 0).

End Cases.

(** ** multi_agent_test.py: decisions and runs *)

Module OrchestratorRun.
Import Orchestrator.

Local Notation "a +++ b" := (String.append a b)
  (at level 60, right associativity).

Definition directions : list string := ["up"; "down"; "left"; "right"]%string.

(** [Agent.think].  [pick] is the index [random.choice] draws;
    [show] stands for Python's formatting of a sighting dictionary
    inside the f-string of the social branch.  The comprehension of
    that branch compares each sighting, a dictionary, with the agent's
    name, a string: they always differ, so it keeps every sighting. *)
Definition think (pick : nat) (show : Sighting -> string)
    (self : Agent.t) (seen : list Sighting) : string :=
  let p := Agent.personality self in
  if String.eqb p "explorer" then
    "move " +++ Py.choice pick directions "up"
  else if String.eqb p "gatherer" then
    if 5 <? Agent.x self then "move left"
    else if Agent.x self <? -5 then "move right"
    else if 5 <? Agent.y self then "move up"
    else if Agent.y self <? -5 then "move down"
    else "move " +++ Py.choice pick directions "up"
  else if String.eqb p "social" then
    match List.filter (fun _ => true) seen with
    | first :: _ => "say Hello to " +++ show first
    | [] => "move up"
    end
  else "observe".

(** The operations of the orchestrator; a tick takes the draws of its
    agents, [draws agent] being the index drawn in that agent's turn. *)
Inductive Op :=
| OpRegister (now name personality : string)
| OpAct (now who action : string)
| OpCheck (now : string)
| OpTick (now : string) (draws : Agent.t -> nat) (show : Sighting -> string).

Definition apply_op (o : State) (op : Op) : State :=
  match op with
  | OpRegister now name personality => register_agent now name personality o
  | OpAct now who action => execute_action now who action o
  | OpCheck now => check_interactions now o
  | OpTick now draws show =>
      simulate_world now (fun a seen => think (draws a) show a seen) o
  end.

Definition run (ops : list Op) (o : State) : State := fold_left apply_op ops o.

(** The tick stamps of a log never go down. *)
Fixpoint stamps_ordered (l : list Entry.t) : Prop :=
  match l with
  | [] => True
  | e :: rest =>
      (forall e', In e' rest -> Entry.tick e <= Entry.tick e') /\ stamps_ordered rest
  end.

(** [o'] continues [o]: its log extends the log of [o] by entries
    stamped between the ticks of [o] and [o'], in order. *)
Definition continues (o o' : State) : Prop :=
  tick o <= tick o' /\
  exists added,
    log o' = log o ++ added /\
    stamps_ordered added /\
    Forall (fun en => tick o <= Entry.tick en <= tick o') added.

(** The AGENT_INTERACTED entries of a log. *)
Definition interactions_of (l : list Entry.t) : list Entry.t :=
  List.filter (fun en => String.eqb (Entry.event en) "AGENT_INTERACTED") l.

(** The grid of [execute_action]. *)
Definition on_grid (a : Agent.t) : Prop :=
  0 <= Agent.x a <= 255 /\ 0 <= Agent.y a <= 255.

(** Every two agents of the list stand on one tile. *)
Definition one_tile (l : list Agent.t) : Prop :=
  forall a b, In a l -> In b l -> colocated a b = true.

(** The events [execute_action] logs for an action. *)
Definition action_events : list string :=
  ["AGENT_MOVED"; "AGENT_SPOKE"; "AGENT_THOUGHT"]%string.

(** The registrations of [run_simulation]. *)
Definition three_registered : State :=
  register_agent "12:00:02" "SocialBot" "social" Scenario.two_at_origin.

End OrchestratorRun.


(** ** The emulator server (aether_server.py), request by request *)

Module Mcp.
Import Server.

(** The [WindowEvent] values the server sends. *)
Inductive WindowEvent :=
| PRESS_ARROW_UP | PRESS_ARROW_DOWN | PRESS_ARROW_LEFT | PRESS_ARROW_RIGHT
| RELEASE_ARROW_UP | RELEASE_ARROW_DOWN | RELEASE_ARROW_LEFT | RELEASE_ARROW_RIGHT
| PRESS_BUTTON_START | RELEASE_BUTTON_START.

(** PyBoy, as far as the server uses it: [tick()], [send_input(ev)]
    and the read [memory[addr]].  The emulator itself is not part of
    the repository; the server is modelled over any emulator. *)
Class Emulator := {
  Emu : Type;
  pyboy_tick : Emu -> Emu;
  pyboy_send_input : WindowEvent -> Emu -> Emu;
  pyboy_memory : Emu -> Z -> Z
}.

(** What [save_state] records in [last_save]; the paths are the file
    names inside the save directory. *)
Record SaveInfo := mkSaveInfo {
  save_name : string;
  save_path : string;
  save_agents : string;
  save_time : string
}.

(** An element of the ["nearby"] list of [get_world_state]. *)
Record Tile := mkTile { tile_x : Z; tile_y : Z; solid : bool }.

Section Machine.
Context `{Emulator}.

(** An [AetherMCPServer] object with the files its saves have
    written: the emulator snapshots ([*.state]) and the JSON
    registries ([*.agents.json]), by the path the server computes for
    them from the save name.  A file holds what was written to it:
    [pyboy.load_state] of a snapshot gives the emulator that was
    saved, and rebuilding the agents from [json.load] of a dumped
    registry gives the registry back, its fields being strings and
    integers.  Whether a file can be written is not the server's to
    decide (the name may lead into a directory that does not exist):
    it is an input of the call, [can_write]. *)
Record Machine := mkMachine {
  pyboy : Emu;
  registry : State;
  last_save : option SaveInfo;
  state_files : gmap string Emu;
  agent_files : gmap string (gmap string Agent.t)
}.

Definition set_pyboy (e : Emu) (m : Machine) : Machine :=
  mkMachine e (registry m) (last_save m) (state_files m) (agent_files m).
Definition set_registry (s : State) (m : Machine) : Machine :=
  mkMachine (pyboy m) s (last_save m) (state_files m) (agent_files m).

Definition PLAYER_X : Z := 0xD361.
Definition PLAYER_Y : Z := 0xD360.
Definition PLAYER_MAP : Z := 0xD35E.

Definition ticks (n : nat) (e : Emu) : Emu := Nat.iter n pyboy_tick e.

(** The boot sequence of [__init__]. *)
Definition boot (e : Emu) : Emu :=
  let e := ticks 250 e in
  let e := pyboy_send_input PRESS_BUTTON_START e in
  let e := ticks 30 e in
  let e := pyboy_send_input RELEASE_BUTTON_START e in
  let e := ticks 150 e in
  let e := pyboy_send_input PRESS_BUTTON_START e in
  let e := ticks 30 e in
  let e := pyboy_send_input RELEASE_BUTTON_START e in
  ticks 100 e.

(** [AetherMCPServer.__init__], from the emulator started on the ROM
    and the save directory as it is found. *)
Definition create (rom : Emu) (states : gmap string Emu)
    (rosters : gmap string (gmap string Agent.t)) : Machine :=
  mkMachine (boot rom) init None states rosters.

(** [AetherMCPServer._get_position] *)
Definition _get_position (e : Emu) : Position :=
  mkPosition (pyboy_memory e PLAYER_X) (pyboy_memory e PLAYER_Y)
    (pyboy_memory e PLAYER_MAP).

Definition position_eqb (p q : Position) : bool :=
  (pos_x p =? pos_x q) && (pos_y p =? pos_y q) && (pos_map p =? pos_map q).

(** The world view of [get_world_state]. *)
Record WorldView := mkWorldView {
  view_tick : Z;
  view_player : Position;
  view_agents : gmap string Agent.t;
  view_current_agent : option string;
  view_nearby : list Tile;
  view_timestamp : string
}.

(** The result dictionaries of the request handler; [Error] is
    [{"error": ...}]. *)
Inductive Reply :=
| Initialized (server version world game : string) (capabilities : list string)
| Registered (reply : Server.Reply)
| Moved (agent direction : string) (old_position new_position : Position)
    (moved : bool) (action_count : Z)
| Observed (state : WorldView)
| Saved (save : SaveInfo)
| Loaded (loaded : string) (position : Position) (agents_loaded : nat)
| Saves (saves : list string)
| Error (error : string).

(** A call returns a reply, or raises; either way it leaves a
    machine behind. *)
Inductive Outcome :=
| Return (m : Machine) (reply : Reply)
| Raise (m : Machine).

Definition machine_of (o : Outcome) : Machine :=
  match o with Return m _ => m | Raise m => m end.
Definition reply_of (o : Outcome) : option Reply :=
  match o with Return _ r => Some r | Raise _ => None end.

(** What a call meets outside: the readings of
    [datetime.now().isoformat()], in the order of the calls, what the
    scan of the save directory in [list_saves] yields, and, for each
    path, whether a file can be created and written there. *)
Record Env := mkEnv {
  reading : nat -> string;
  scan : list string;
  can_write : string -> bool
}.

(** Truth value of an optional string: [None] and the empty string
    are false. *)
Definition truthy (s : option string) : bool :=
  match s with
  | Some s => negb (String.eqb s "")
  | None => false
  end.

Definition key_map (direction : string) : option WindowEvent :=
  if String.eqb direction "up" then Some PRESS_ARROW_UP
  else if String.eqb direction "down" then Some PRESS_ARROW_DOWN
  else if String.eqb direction "left" then Some PRESS_ARROW_LEFT
  else if String.eqb direction "right" then Some PRESS_ARROW_RIGHT
  else None.

Definition release_map (direction : string) : option WindowEvent :=
  if String.eqb direction "up" then Some RELEASE_ARROW_UP
  else if String.eqb direction "down" then Some RELEASE_ARROW_DOWN
  else if String.eqb direction "left" then Some RELEASE_ARROW_LEFT
  else if String.eqb direction "right" then Some RELEASE_ARROW_RIGHT
  else None.

(** [AetherMCPServer.register_agent] on the machine. *)
Definition register (now name : string) (m : Machine) : Machine * Server.Reply :=
  let '(s, r) := register_agent now (_get_position (pyboy m)) name (registry m) in
  (set_registry s m, r).

(** [AetherMCPServer.move].  A named agent is registered first,
    before the direction is looked at.  The agent object is fetched
    with [dict.get]: when the registry has no entry for the current
    agent, the first assignment to the object raises, after the
    emulator has been driven. *)
Definition move (env : Env) (direction : string) (agent_name : option string)
    (m : Machine) : Outcome :=
  let entered :=
    if truthy agent_name then
      Some (fst (register (reading env 0) (default EmptyString agent_name) m), 1%nat)
    else if negb (truthy (current_agent (registry m))) then None
    else Some (m, 0%nat) in
  match entered with
  | None => Return m (Error "No agent registered. Use register_agent first.")
  | Some (m, read) =>
      let key :=
        if truthy agent_name then default EmptyString agent_name
        else default EmptyString (current_agent (registry m)) in
      let agent := agents (registry m) !! key in
      match key_map direction, release_map direction with
      | Some press, Some release =>
          let old_pos := _get_position (pyboy m) in
          let e := pyboy_send_input press (pyboy m) in
          let e := ticks 15 e in
          let e := pyboy_send_input release e in
          let new_pos := _get_position e in
          match agent with
          | None => Raise (set_pyboy e m)
          | Some a =>
              let a :=
                Agent.mk (Agent.name a) (pos_x new_pos) (pos_y new_pos)
                  (pos_map new_pos) (reading env read) (Agent.action_count a + 1) in
              let s := registry m in
              let s :=
                mkState (<[key := a]> (agents s)) (current_agent s)
                  (tick_count s + 15) in
              Return (set_registry s (set_pyboy e m))
                (Moved (Agent.name a) direction old_pos new_pos
                   (negb (position_eqb old_pos new_pos)) (Agent.action_count a))
          end
      | _, _ => Return m (Error ("Unknown direction: " ++ direction))
      end
  end.

(** The 5 x 5 block of tiles around the player, row by row. *)
Definition nearby_tiles (pos : Position) : list Tile :=
  flat_map (fun dy =>
      map (fun dx => mkTile (pos_x pos + dx) (pos_y pos + dy) false)
        [-2; -1; 0; 1; 2])
    [-2; -1; 0; 1; 2].

(** [AetherMCPServer.get_world_state] *)
Definition get_world_state (env : Env) (m : Machine) : WorldView :=
  let pos := _get_position (pyboy m) in
  mkWorldView (tick_count (registry m)) pos (agents (registry m))
    (current_agent (registry m)) (nearby_tiles pos) (reading env 0).

Definition state_file (name : string) : string := (name ++ ".state")%string.
Definition agents_file (name : string) : string := (name ++ ".agents.json")%string.

(** [AetherMCPServer.save_state].  Nothing in it catches an error:
    when the snapshot cannot be written, [pyboy.save_state] raises and
    nothing has changed; when the registry cannot be written, [open]
    raises after the snapshot has been written, and [last_save] is not
    set. *)
Definition save_state (env : Env) (name : string) (m : Machine) : Outcome :=
  if negb (can_write env (state_file name)) then Raise m
  else
    let states := <[state_file name := pyboy m]> (state_files m) in
    let m := mkMachine (pyboy m) (registry m) (last_save m) states (agent_files m) in
    if negb (can_write env (agents_file name)) then Raise m
    else
      let rosters := <[agents_file name := agents (registry m)]> (agent_files m) in
      let info := mkSaveInfo name (state_file name) (agents_file name) (reading env 0) in
      Return (mkMachine (pyboy m) (registry m) (Some info) states rosters) (Saved info).

(** [AetherMCPServer.load_state]: the registry is replaced only when
    the agents file is there; the current agent and the tick count are
    not part of a save. *)
Definition load_state (name : string) (m : Machine) : Machine * Reply :=
  match state_files m !! state_file name with
  | None => (m, Error ("Save '" ++ name ++ "' not found"))
  | Some e =>
      let m := set_pyboy e m in
      let m :=
        match agent_files m !! agents_file name with
        | Some roster =>
            set_registry
              (mkState roster (current_agent (registry m)) (tick_count (registry m))) m
        | None => m
        end in
      (m, Loaded name (_get_position (pyboy m)) (size (agents (registry m))))
  end.

(** An MCP request: [request.get("method")] and the string-valued
    entries of [request.get("params", {})]. *)
Record Request := mkRequest {
  method : option string;
  params : gmap string string
}.

(** [AetherMCPServer.handle_mcp_request] *)
Definition handle_mcp_request (env : Env) (request : Request) (m : Machine) : Outcome :=
  let params := params request in
  match method request with
  | None => Return m (Error "Unknown method: None")
  | Some method =>
      if String.eqb method "initialize" then
        Return m (Initialized "aether-sync" "0.2" "kanto-prime" "Pokemon Red/Blue"
                    ["move"; "observe"; "save"; "load"; "register"]%string)
      else if String.eqb method "register_agent" then
        let '(m, r) :=
          register (reading env 0) (default "unknown"%string (params !! "name"%string)) m in
        Return m (Registered r)
      else if String.eqb method "move" then
        move env (default "up"%string (params !! "direction"%string))
          (params !! "agent"%string) m
      else if String.eqb method "observe" then
        Return m (Observed (get_world_state env m))
      else if String.eqb method "save" then
        save_state env (default "quicksave"%string (params !! "name"%string)) m
      else if String.eqb method "load" then
        let '(m, r) := load_state (default "quicksave"%string (params !! "name"%string)) m in
        Return m r
      else if String.eqb method "list_saves" then
        Return m (Saves (scan env))
      else Return m (Error ("Unknown method: " ++ method))
  end.

(** A session: requests handled one after the other by one server
    object; a caller that catches an exception goes on with the object
    as the failed call left it. *)
Fixpoint session (requests : list (Env * Request)) (m : Machine)
    : Machine * list (option Reply) :=
  match requests with
  | [] => (m, [])
  | (env, request) :: rest =>
      let o := handle_mcp_request env request m in
      let '(m', replies) := session rest (machine_of o) in
      (m', reply_of o :: replies)
  end.


Definition is_moved (r : option Reply) : bool :=
  match r with Some (Moved _ _ _ _ _ _) => true | _ => false end.




End Machine.

(** A pad that walks: a stand-in emulator whose player moves one tile
    per tick while an arrow is held, on map 0. *)
Record Pad := mkPad { held : option WindowEvent; pad_x : Z; pad_y : Z }.

Definition pad_tick (p : Pad) : Pad :=
  match held p with
  | Some PRESS_ARROW_UP => mkPad (held p) (pad_x p) (pad_y p - 1)
  | Some PRESS_ARROW_DOWN => mkPad (held p) (pad_x p) (pad_y p + 1)
  | Some PRESS_ARROW_LEFT => mkPad (held p) (pad_x p - 1) (pad_y p)
  | Some PRESS_ARROW_RIGHT => mkPad (held p) (pad_x p + 1) (pad_y p)
  | _ => p
  end.

Definition pad_send_input (ev : WindowEvent) (p : Pad) : Pad :=
  match ev with
  | PRESS_ARROW_UP | PRESS_ARROW_DOWN | PRESS_ARROW_LEFT | PRESS_ARROW_RIGHT =>
      mkPad (Some ev) (pad_x p) (pad_y p)
  | RELEASE_ARROW_UP | RELEASE_ARROW_DOWN | RELEASE_ARROW_LEFT | RELEASE_ARROW_RIGHT =>
      mkPad None (pad_x p) (pad_y p)
  | _ => p
  end.

Definition pad_memory (p : Pad) (addr : Z) : Z :=
  if addr =? 0xD361 then pad_x p
  else if addr =? 0xD360 then pad_y p
  else 0.

#[global] Instance pad_emulator : Emulator :=
  {| Emu := Pad;
     pyboy_tick := pad_tick;
     pyboy_send_input := pad_send_input;
     pyboy_memory := pad_memory |}.

Definition clock : Env :=
  mkEnv (fun n => if (n =? 0)%nat then "12:00:00" else "12:00:01")%string []
    (fun _ => true).

Definition request (method : string) (params : list (string * string)) : Request :=
  mkRequest (Some method) (list_to_map params).

(** A server on the pad, with an empty save directory. *)
Definition fresh : Machine := create (mkPad None 100 100) ∅ ∅.

(** A save of the empty registry, then a registration. *)
Definition saved_then_registered : Machine :=
  fst (session
         [(clock, request "save" []);
          (clock, request "register_agent" [("name", "Koolie")])]%string
         fresh).

End Mcp.

(** ** live_showcase.py: agents and ticks of the showcase

    The showcase is modelled as [main] runs it, without an emulator
    ([pyboy_instance=None]): [execute_move] then only moves the agent
    on the grid. *)

Module Live.
Import Showcase.

Local Notation "a +++ b" := (String.append a b)
  (at level 60, right associativity).

Module Agent.
Record t := mk {
  name : string;
  personality : string;
  x : Z;
  y : Z;
  wallet : Z;
  inventory : list string;
  actions : Z;
  last_chat : Z
}.
(** [LiveAgent(name, personality)], the spawn draws being [sx], [sy]. *)
Definition make (sx sy : Z) (name personality : string) : t :=
  mk name personality sx sy 100 [] 0 0.
Definition set_x (v : Z) (a : t) : t :=
  mk (name a) (personality a) v (y a) (wallet a) (inventory a) (actions a) (last_chat a).
Definition set_y (v : Z) (a : t) : t :=
  mk (name a) (personality a) (x a) v (wallet a) (inventory a) (actions a) (last_chat a).
Definition set_wallet (v : Z) (a : t) : t :=
  mk (name a) (personality a) (x a) (y a) v (inventory a) (actions a) (last_chat a).
Definition set_inventory (v : list string) (a : t) : t :=
  mk (name a) (personality a) (x a) (y a) (wallet a) v (actions a) (last_chat a).
Definition set_actions (v : Z) (a : t) : t :=
  mk (name a) (personality a) (x a) (y a) (wallet a) (inventory a) v (last_chat a).
End Agent.

(** An entry of [world_state["agents"]]. *)
Record View := mkView {
  v_name : string; v_x : Z; v_y : Z; v_wallet : Z; v_items : Z
}.

Definition directions : list string := ["up"; "down"; "left"; "right"]%string.

(** [ChatOverlay.get_recent]: the lines of [messages[-n:]]. *)
Definition get_recent (n : Z) (c : ChatOverlay) : list string :=
  map (fun m => "[" +++ Message.agent m +++ "] " +++ Message.text m)
    (PyList.last_n n (messages c)).

(** [LiveAgent.think_and_act]; [pick] is the index the one
    [random.choice] of the call draws. *)
Definition think_and_act (pick : nat) (self : Agent.t) (world : dict View) : string :=
  let p := Agent.personality self in
  if String.eqb p "explorer" then
    if Agent.x self <? 5 then "right"
    else if 12 <? Agent.x self then "left"
    else if Agent.y self <? 5 then "down"
    else Py.choice pick directions "up"
  else if String.eqb p "social" then
    let others :=
      List.filter (fun a => negb (String.eqb (v_name a) (Agent.name self)))
        (dvalues world) in
    match others with
    | first :: _ =>
        let target := Py.choice pick others first in
        let dx := v_x target - Agent.x self in
        let dy := v_y target - Agent.y self in
        if (Z.abs dx <=? 1) && (Z.abs dy <=? 1) then
          "say Hello! I'm " +++ Agent.name self +++ "!"
        else if Z.abs dy <? Z.abs dx then
          (if 0 <? dx then "right" else "left")
        else
          (if 0 <? dy then "down" else "up")
    | [] => Py.choice pick directions "up"
    end
  else if String.eqb p "gatherer" then
    if Agent.actions self mod 4 =? 0 then "search"
    else Py.choice pick directions "up"
  else if String.eqb p "merchant" then "search_trade"
  else Py.choice pick directions "up".

(** [LiveAgent.execute_move]: the agent after the call and the value
    returned. *)
Definition execute_move (direction : string) (a : Agent.t) : Agent.t * bool :=
  if negb (existsb (String.eqb direction) directions) then (a, false)
  else
    let old := (Agent.x a, Agent.y a) in
    let a :=
      if String.eqb direction "up" then Agent.set_y (Z.max 0 (Agent.y a - 1)) a
      else if String.eqb direction "down" then Agent.set_y (Z.min 17 (Agent.y a + 1)) a
      else if String.eqb direction "left" then Agent.set_x (Z.max 0 (Agent.x a - 1)) a
      else if String.eqb direction "right" then Agent.set_x (Z.min 19 (Agent.x a + 1)) a
      else a in
    let a := Agent.set_actions (Agent.actions a + 1) a in
    (a, negb ((fst old =? Agent.x a) && (snd old =? Agent.y a))).

(** A [LiveShowcase] object. *)
Record State := mkState {
  agents : dict Agent.t;
  chat : ChatOverlay;
  tick : Z;
  running : bool
}.

(** [LiveShowcase()] *)
Definition init : State := mkState [] (new 15) 0 true.

Definition set_agents (v : dict Agent.t) (s : State) : State :=
  mkState v (chat s) (tick s) (running s).

(** The clock readings of one [add_message]. *)
Record Clock := mkClock { now : string; stamp : Z }.

Definition say (c : Clock) (agent text msg_type : string) (s : State) : State :=
  mkState (agents s) (add_message (now c) (stamp c) agent text msg_type (chat s))
    (tick s) (running s).

(** In-place mutation of the agent registered under [k]. *)
Definition upd (k : string) (f : Agent.t -> Agent.t) (s : State) : State :=
  set_agents (dupd k f (agents s)) s.

(** [LiveShowcase.register_agents]; [spawn name] is the position drawn
    for the agent, [clock name] the readings of its join message. *)
Definition register_agents (spawn : string -> Z * Z) (clock : string -> Clock)
    (s : State) : State :=
  let enter name personality d :=
    dset name (Agent.make (fst (spawn name)) (snd (spawn name)) name personality) d in
  let d := enter "Koolie" "explorer" (agents s) in
  let d := enter "Scout-7" "social" d in
  let d := enter "Merchant-X" "merchant" d in
  let d := enter "HelpBot" "social" d in
  fold_left
    (fun s '(name, agent) =>
       say (clock name) "System"
         ("🎉 " +++ name +++ " (" +++ Agent.personality agent +++ ") has joined!")
         "system" s)
    d (set_agents d s).

(** [LiveShowcase.get_world_state], the agents part. *)
Definition get_world_state (s : State) : dict View :=
  map (fun '(name, agent) =>
         (name, mkView name (Agent.x agent) (Agent.y agent) (Agent.wallet agent)
                  (Z.of_nat (length (Agent.inventory agent)))))
    (agents s).

(** The draws and readings of one agent's turn: the choice of
    [think_and_act], the choice of the turn itself (the item found or
    the buyer), and the clock of its message. *)
Record TurnEnv := mkTurnEnv {
  pick_think : nat;
  pick_act : nat;
  clock : Clock
}.

Definition loot : list string := ["Potion"; "Pokeball"; "100 Gold"; "Rare Candy"]%string.

(** The sale of [search_trade]: the seller, registered under [k],
    pops its last item; the buyer, registered under [tk], pays 20. *)
Definition sell (e : TurnEnv) (k tk : string) (s : State) : State :=
  match dget k (agents s), dget tk (agents s) with
  | Some agent, Some target =>
      if (20 <=? Agent.wallet target)
         && negb (Nat.eqb (length (Agent.inventory agent)) 0) then
        let item := List.last (Agent.inventory agent) EmptyString in
        let price := 20 in
        let s := upd k (fun a => Agent.set_inventory (removelast (Agent.inventory a)) a) s in
        let s := upd tk (fun a => Agent.set_wallet (Agent.wallet a - price) a) s in
        let s := upd k (fun a => Agent.set_wallet (Agent.wallet a + price) a) s in
        say (clock e) k
          ("Sold " +++ item +++ " to " +++ Agent.name target +++ " for "
             +++ Py.str price +++ "g!") "trade" s
      else s
  | _, _ => s
  end.

(** The body of the agent loop of [run_tick], for the agent
    registered under [k]; [world] is the view taken at the start of
    the tick. *)
Definition turn (e : TurnEnv) (world : dict View) (s : State) (k : string) : State :=
  match dget k (agents s) with
  | None => s
  | Some agent =>
      let action := think_and_act (pick_think e) agent world in
      if Py.startswith action "say" then
        say (clock e) k (Py.drop 4 action) "chat" s
      else if String.eqb action "search" then
        let found := Py.choice (pick_act e) loot EmptyString in
        let s := upd k (fun a => Agent.set_inventory (Agent.inventory a ++ [found]) a) s in
        say (clock e) k ("Found " +++ found +++ "!") "loot" s
      else if String.eqb action "search_trade" then
        let others :=
          List.filter
            (fun '(_, a) => negb (String.eqb (Agent.name a) k) && (50 <? Agent.wallet a))
            (agents s) in
        match others with
        | first :: _ => sell e k (fst (Py.choice (pick_act e) others first)) s
        | [] => s
        end
      else
        let '(moved_agent, moved) := execute_move action agent in
        let s := set_agents (dset k moved_agent (agents s)) s in
        if moved && (Agent.actions moved_agent mod 3 =? 0) then
          say (clock e) k
            ("Heading " +++ action +++ " to (" +++ Py.str (Agent.x moved_agent) +++ ", "
               +++ Py.str (Agent.y moved_agent) +++ ")") "movement" s
        else s
  end.

Definition events : list string :=
  ["The wind picks up...";
   "A Pidgey flies overhead";
   "Rays of sunlight break through";
   "Market prices shifted";
   "A distant cry echoes";
   "New resources available!"]%string.

Record TickEnv := mkTickEnv {
  turns : nat -> TurnEnv;
  event_coin : Q;            (* random.random() *)
  event_pick : nat;
  event_clock : Clock
}.

(** [LiveShowcase.run_tick] *)
Definition run_tick (te : TickEnv) (s : State) : State :=
  let s := mkState (agents s) (chat s) (tick s + 1) (running s) in
  let world := get_world_state s in
  let keys := dkeys (agents s) in
  let s :=
    fold_left (fun s '(i, k) => turn (turns te i) world s k)
      (combine (seq 0 (length keys)) keys) s in
  if Qle_bool (8 # 100) (event_coin te) then s
  else say (event_clock te) "World" (Py.choice (event_pick te) events EmptyString)
         "event" s.

(** [LiveShowcase.run]: the registrations, then the ticks. *)
Definition run (spawn : string -> Z * Z) (joined : string -> Clock)
    (tes : list TickEnv) (s : State) : State :=
  fold_left (fun s te => run_tick te s) tes (register_agents spawn joined s).

(** The screen of [execute_move]. *)
Definition on_screen (a : Agent.t) : Prop :=
  0 <= Agent.x a <= 19 /\ 0 <= Agent.y a <= 17.

(** An agent that has found nothing and is no gatherer. *)
Definition empty_handed (a : Agent.t) : Prop :=
  Agent.personality a <> "gatherer"%string /\ Agent.inventory a = [].

Definition message_types (s : State) : list string :=
  map Message.type (messages (chat s)).

(** What the showcase keeps of each registry entry: the wallet of
    construction, no item, and a personality that never searches. *)
Definition untouched (entry : string * Agent.t) : Prop :=
  Agent.wallet (snd entry) = 100 /\
  Agent.inventory (snd entry) = [] /\
  Agent.personality (snd entry) <> "gatherer"%string.

Definition no_deal (t : string) : Prop := t <> "trade"%string /\ t <> "loot"%string.

(** The showcase as long as nothing is found or sold: the registry
    has the keys [names], every entry is untouched and the overlay
    shows no deal. *)
Definition calm (names : list string) (s : State) : Prop :=
  dkeys (agents s) = names /\
  Forall untouched (agents s) /\
  Forall no_deal (map Message.type (messages (chat s))).

Definition ticks (tes : list TickEnv) (s : State) : State :=
  fold_left (fun s te => run_tick te s) tes s.

(** Draws of a quiet tick and of a spawn on (4, 4). *)
Definition noon : Clock := mkClock "12:00:00" 42.
Definition quiet : TickEnv :=
  mkTickEnv (fun i => mkTurnEnv i i noon) (1 # 2) 0 noon.
Definition opened : State := register_agents (fun _ => (4, 4)) (fun _ => noon) init.

End Live.

(** ** aether_full.py: decisions and the economy *)

Module FullWorld.
Import Full.

Local Notation "a +++ b" := (String.append a b)
  (at level 60, right associativity).

(** [sum(a.wallet for a in self.agents.values())], the total wealth
    of the final report. *)
Definition total_gold (w : World) : Z :=
  PyList.sum (map Agent.wallet (dvalues (agents w))).

(** What the land on the map has cost: 100 per territory. *)
Definition land_paid (w : World) : Z := 100 * Z.of_nat (length (territories w)).

(** [AetherWorld.get_nearest_agent] *)
Definition get_nearest_agent (agent : Agent.t) (w : World) : option Agent.t :=
  Py.min_by
    (fun a => Z.abs (Agent.x a - Agent.x agent) + Z.abs (Agent.y a - Agent.y agent))
    (List.filter (fun a => negb (String.eqb (Agent.name a) (Agent.name agent)))
       (dvalues (agents w))).

(** [AetherWorld.get_richest_agent] *)
Definition get_richest_agent (w : World) : option Agent.t :=
  Py.max_by Agent.wallet (dvalues (agents w)).

Definition directions : list string := ["up"; "down"; "left"; "right"]%string.

(** The draws of one [think]: the index of its [random.choice] and
    the value of its [random.random()]. *)
Record ThinkEnv := mkThinkEnv { pick : nat; coin : Q }.

(** [Agent.think] *)
Definition think (e : ThinkEnv) (self : Agent.t) (w : World) : string :=
  let p := Agent.personality self in
  if String.eqb p "explorer" then
    let best := Py.choice (pick e) directions "up" in
    let best :=
      if 10 <? Agent.x self then "left"
      else if Agent.x self <? -10 then "right"
      else best in
    "move " +++ best
  else if String.eqb p "gatherer" then
    if 200 <? Agent.wallet self then "buy_land"
    else if negb (Qle_bool (coin e) (7 # 10)) then "gather"
    else "move " +++ Py.choice (pick e) directions "up"
  else if String.eqb p "social" then
    match get_nearest_agent self w with
    | Some nearest =>
        let dx := Agent.x nearest - Agent.x self in
        let dy := Agent.y nearest - Agent.y self in
        let direction :=
          if Z.abs dy <? Z.abs dx then (if 0 <? dx then "right" else "left")
          else (if 0 <? dy then "down" else "up") in
        if (Z.abs dx <=? 1) && (Z.abs dy <=? 1) then
          "say Hello " +++ Agent.name nearest +++ "! Want to trade?"
        else "move " +++ direction
    | None => "move " +++ Py.choice (pick e) directions "up"
    end
  else if String.eqb p "merchant" then
    match get_richest_agent w with
    | Some richest =>
        if negb (String.eqb (Agent.name richest) (Agent.name self)) then
          let dx := Agent.x richest - Agent.x self in
          let dy := Agent.y richest - Agent.y self in
          if (Z.abs dx <=? 1) && (Z.abs dy <=? 1) then
            "offer_trade " +++ Agent.name richest
          else
            "move " +++
              (if 0 <? dx then "right" else if dx <? 0 then "left"
               else if 0 <? dy then "down" else "up")
        else "move " +++ Py.choice (pick e) directions "up"
    | None => "move " +++ Py.choice (pick e) directions "up"
    end
  else "move up".

(** The guards of [execute_action]. *)
Definition recognized (action : string) : bool :=
  Py.startswith action "move" || Py.startswith action "say"
  || String.eqb action "gather" || String.eqb action "buy_land"
  || Py.startswith action "offer_trade".

(** A sequence of actions, each by the agent registered under its
    key and with its draws. *)
Definition acts (l : list (Env * string * string)) (w : World) : World :=
  fold_left (fun w '(e, who, action) => execute_action e who action w) l w.

(** Scout-7 has found a gold nugget; Koolie stands by. *)
Definition gold_found : World :=
  execute_action (mkEnv "12:00:02" 2 0) "Scout-7" "gather"
    (register_agent "12:00:01" 1 1 0 "Koolie" "explorer"
       (register_agent "12:00:00" 0 0 0 "Scout-7" "gatherer" init)).

Definition nugget : Item.t := Item.mk GOLD 1 "Scout-7".
Definition scout_with_nugget : Agent.t :=
  Agent.mk "Scout-7" "gatherer" 0 0 100 [nugget] 0 50 None [].
Definition koolie_nearby : Agent.t :=
  Agent.mk "Koolie" "explorer" 1 1 100 [] 0 50 None [].

End FullWorld.

(** ** aether_final.py: turns and their statistics *)

Module FinalRun.
Import Final.

(** [SmartAgent.execute], the presses and ticks of the emulator
    apart: the move is chosen and the action counted. *)
Definition execute (e : Env) (a : SmartAgent) : option (SmartAgent * string) :=
  match smart_move e a with
  | Some (a, action) =>
      Some (mkSmartAgent (name a) (role a) (actions a + 1) (position_history a)
              (last_direction a) (stuck_count a),
            action)
  | None => None
  end.

(** [self.stats] *)
Record Stats := mkStats {
  total_turns : Z;
  stat_moves : dict Z;
  start_time : string
}.

(** An [AetherSync] object (its emulator apart). *)
Record Sync := mkSync {
  agents : list SmartAgent;
  tick : Z;
  stats : Stats
}.

(** [AetherSync.__init__] *)
Definition create (start : string) : Sync :=
  mkSync [] 0
    (mkStats 0 [("up", 0); ("down", 0); ("left", 0); ("right", 0)]%string start).

(** [AetherSync.spawn_agents] *)
Definition spawn_agents (s : Sync) : Sync :=
  mkSync
    [new "Koolie" "Explorer"; new "Scout-7" "Scout";
     new "Merchant-X" "Merchant"; new "HelpBot" "Social"]
    (tick s) (stats s).

(** [moves[action] += 1]; [None] is the [KeyError] of an action that
    is no key. *)
Definition count (action : string) (moves : dict Z) : option (dict Z) :=
  match dget action moves with
  | Some n => Some (dset action (n + 1) moves)
  | None => None
  end.

(** The agent loop of [run_turn], from the [i]-th agent on;
    [draws i] are the draws of the [i]-th agent. *)
Fixpoint act_each (draws : nat -> Env) (i : nat) (l : list SmartAgent)
    (moves : dict Z) : option (list SmartAgent * dict Z) :=
  match l with
  | [] => Some ([], moves)
  | a :: rest =>
      match execute (draws i) a with
      | Some (a', action) =>
          match count action moves with
          | Some moves' =>
              match act_each draws (S i) rest moves' with
              | Some (rest', moves'') => Some (a' :: rest', moves'')
              | None => None
              end
          | None => None
          end
      | None => None
      end
  end.

(** [AetherSync.run_turn]; [None] when a call in it raises. *)
Definition run_turn (draws : nat -> Env) (s : Sync) : option Sync :=
  let tick := tick s + 1 in
  match act_each draws 0 (agents s) (stat_moves (stats s)) with
  | Some (agents', moves') =>
      Some (mkSync agents' tick (mkStats tick moves' (start_time (stats s))))
  | None => None
  end.

(** Successive turns, one per element of [turns]. *)
Fixpoint run_turns (turns : list (nat -> Env)) (s : Sync) : option Sync :=
  match turns with
  | [] => Some s
  | draws :: rest =>
      match run_turn draws s with
      | Some s' => run_turns rest s'
      | None => None
      end
  end.

(** [sum(self.stats['moves'].values())] *)
Definition total_moves (s : Sync) : Z := PyList.sum (dvalues (stat_moves (stats s))).

(** The last direction, if any, is one of the four. *)
Definition heading_ok (a : SmartAgent) : Prop :=
  match last_direction a with
  | Some d => In d directions
  | None => True
  end.

(** Where the band of the draws that repeat direction [d] starts:
    the weights before it, over the total of 80. *)
Definition band_start (d : string) : Q :=
  match index d directions with
  | Some i => (25 * Z.of_nat i) # 80
  | None => 0
  end.

(** An agent that last went left. *)
Definition went_left : SmartAgent :=
  mkSmartAgent "Koolie" "Explorer" 1 [] (Some "left"%string) 0.

End FinalRun.

(** * Properties *)

(** ** Dictionaries *)

Section DictFacts.
Context {V : Type}.
Implicit Types (d : dict V) (k : string).

Lemma dget_dset k k' (v : V) d :
  dget k' (dset k v d) = if String.eqb k' k then Some v else dget k' d.
Proof.
  induction d as [|[k0 v0] d IH]; simpl.
  - reflexivity.
  - destruct (String.eqb k k0) eqn:Ek; simpl.
    + apply String.eqb_eq in Ek; subst k0.
      destruct (String.eqb k' k); reflexivity.
    + rewrite IH. destruct (String.eqb k' k0) eqn:Ek'; [|reflexivity].
      apply String.eqb_eq in Ek'; subst k0.
      rewrite String.eqb_sym, Ek. reflexivity.
Qed.

Lemma dget_dupd k k' (f : V -> V) d :
  dget k' (dupd k f d) =
  if String.eqb k' k then option_map f (dget k d) else dget k' d.
Proof.
  unfold dupd. destruct (dget k d) as [v|] eqn:E.
  - rewrite dget_dset. reflexivity.
  - destruct (String.eqb k' k) eqn:Ek; [|reflexivity].
    apply String.eqb_eq in Ek; subst. rewrite E. reflexivity.
Qed.

Lemma dkeys_dset_present k (v v0 : V) d :
  dget k d = Some v0 -> dkeys (dset k v d) = dkeys d.
Proof.
  unfold dkeys. induction d as [|[k0 v1] d IH]; simpl; [discriminate|].
  destruct (String.eqb k k0); simpl; [reflexivity|].
  intros H. rewrite IH by exact H. reflexivity.
Qed.

Lemma dkeys_dupd k (f : V -> V) d : dkeys (dupd k f d) = dkeys d.
Proof.
  unfold dupd. destruct (dget k d) eqn:E; [|reflexivity].
  eapply dkeys_dset_present; eassumption.
Qed.

Lemma dget_In k (v : V) d : dget k d = Some v -> In (k, v) d.
Proof.
  induction d as [|[k0 v0] d IH]; simpl; [discriminate|].
  destruct (String.eqb k k0) eqn:E.
  - apply String.eqb_eq in E. intros [= ->]. subst. now left.
  - intros H. right. now apply IH.
Qed.

Lemma dkeys_dset_absent k (v : V) d :
  dget k d = None -> dkeys (dset k v d) = dkeys d ++ [k].
Proof.
  unfold dkeys. induction d as [|[k0 v0] d IH]; simpl; [reflexivity|].
  destruct (String.eqb k k0); [discriminate|].
  intros H. simpl. now rewrite IH.
Qed.

Lemma dget_None_not_In k d : dget k d = None -> ~ In k (dkeys d).
Proof.
  unfold dkeys. induction d as [|[k0 v0] d IH]; simpl; [tauto|].
  destruct (String.eqb_spec k k0) as [->|Hne]; [discriminate|].
  intros H [E|Hin]; [congruence|]. now apply IH.
Qed.

Lemma NoDup_dkeys_dset k (v : V) d :
  List.NoDup (dkeys d) -> List.NoDup (dkeys (dset k v d)).
Proof.
  intros Hnd. destruct (dget k d) as [v0|] eqn:E.
  - now rewrite (dkeys_dset_present k v v0 d E).
  - rewrite dkeys_dset_absent by exact E.
    apply List.NoDup_rev in Hnd. rewrite <- List.rev_involutive.
    apply List.NoDup_rev. rewrite List.rev_app_distr. simpl.
    constructor; [|exact Hnd].
    rewrite <- List.in_rev. now apply dget_None_not_In.
Qed.

End DictFacts.

(** ** aether_enhanced.py: what the wallets, prices and rates obey *)

Module EnhancedFacts.
Import Enhanced.




(** For a negative wallet [int] and [floor] differ: [int] rounds
    toward zero. *)
Lemma int_mul_negative_wallet :
  Py.int_mul (-30) Territory.default_tax_rate = -1 /\
  floor_mul (-30) (5 # 100) = -2.
Proof. split; vm_compute; reflexivity. Qed.

Lemma Inv_frame (w w' : World) :
  agents w' = agents w -> territories w' = territories w ->
  market_prices w' = market_prices w -> Inv w -> Inv w'.
Proof.
  intros Ha Ht Hm [Hw Hp]. unfold Inv, wallets_nonneg, well_formed.
  rewrite Ha, Hm. auto.
Qed.

Lemma Inv_chat now who msg ty w : Inv w -> Inv (chat now who msg ty w).
Proof. apply Inv_frame; reflexivity. Qed.

Lemma Inv_upd k f w :
  Inv w ->
  (forall a, dget k (agents w) = Some a ->
             0 <= Agent.wallet a -> 0 <= Agent.wallet (f a)) ->
  Inv (upd k f w).
Proof.
  intros [Hw Hwf] Hf. split; [|exact Hwf].
  intros k' a. unfold upd; simpl. rewrite dget_dupd.
  destruct (String.eqb k' k) eqn:E.
  - destruct (dget k (agents w)) as [a0|] eqn:E0; simpl; [|discriminate].
    intros [= <-]. apply Hf; [reflexivity|]. eapply Hw; eassumption.
  - apply Hw.
Qed.

(** An update that leaves the wallet alone. *)
Lemma Inv_upd_same k f w :
  Inv w -> (forall a, Agent.wallet (f a) = Agent.wallet a) -> Inv (upd k f w).
Proof. intros H Hf. apply Inv_upd; [exact H|]. intros a _ Ha. now rewrite Hf. Qed.

Lemma Inv_with_agent k w f :
  Inv w -> (forall a, dget k (agents w) = Some a -> Inv (f a)) ->
  Inv (with_agent k w f).
Proof.
  intros H Hf. unfold with_agent.
  destruct (dget k (agents w)) eqn:E; auto.
Qed.

Lemma wallet_known k a a' w :
  dget k (agents w) = Some a -> dget k (agents w) = Some a' -> a' = a.
Proof. congruence. Qed.

Lemma Inv_do_say e who action w : Inv w -> Inv (do_say e who action w).
Proof.
  intros H. apply Inv_with_agent; [exact H|]. intros agent _. now apply Inv_chat.
Qed.

Lemma Inv_do_search e who w : Inv w -> Inv (do_search e who w).
Proof.
  intros H. apply Inv_with_agent; [exact H|]. intros agent _.
  apply Inv_chat. apply Inv_upd_same; [|reflexivity].
  apply Inv_upd_same; [exact H|reflexivity].
Qed.

Lemma Inv_do_buy_land e who w : Inv w -> Inv (do_buy_land e who w).
Proof.
  intros H. apply Inv_with_agent; [exact H|]. intros agent Hag.
  destruct (150 <=? Agent.wallet agent) eqn:E; [|exact H].
  apply Z.leb_le in E. apply Inv_chat. apply Inv_upd_same; [|reflexivity].
  assert (H1 : Inv (upd who (fun a => Agent.set_wallet (Agent.wallet a - 150) a) w)).
  { apply Inv_upd; [exact H|]. intros a Ha _.
    rewrite (wallet_known _ _ _ _ Hag Ha). simpl. lia. }
  destruct H1 as [Hw Hp]. split; [exact Hw|exact Hp].
Qed.

Lemma Inv_settle_trade e who tn agent target item price w :
  Inv w -> dget tn (agents w) = Some target ->
  0 <= price <= Agent.wallet target ->
  Inv (settle_trade e who tn agent target item price w).
Proof.
  intros H Ht Hp. unfold settle_trade. apply Inv_chat.
  apply Inv_upd_same; [|reflexivity]. apply Inv_upd_same; [|reflexivity].
  apply Inv_upd; [|intros a _ Ha; simpl; lia].
  apply Inv_upd; [exact H|]. intros a Ha _.
  rewrite (wallet_known _ _ _ _ Ht Ha). simpl. lia.
Qed.

Lemma Inv_do_offer_trade e who action w :
  Inv w -> -5 <= trade_delta e -> Inv (do_offer_trade e who action w).
Proof.
  intros H He. apply Inv_with_agent; [exact H|]. intros agent _.
  destruct (target_of action) as [tn|]; [|exact H].
  destruct (dget tn (agents w)) as [target|] eqn:Et; [|exact H].
  destruct (Agent.inventory agent) as [|item inv]; [exact H|].
  destruct (30 <=? _); [|exact H].
  cbv zeta.
  destruct (market_prices w (Item.type item) + trade_delta e <=? Agent.wallet target) eqn:E; [|exact H].
  apply Z.leb_le in E. apply Inv_settle_trade; [exact H|exact Et|].
  split; [|exact E].
  destruct H as [_ Hp]. specialize (Hp (Item.type item)). lia.
Qed.

Lemma Inv_do_challenge e who action w : Inv w -> Inv (do_challenge e who action w).
Proof.
  intros H. apply Inv_with_agent; [exact H|]. intros agent Hag.
  destruct (target_of action) as [tn|]; [|exact H].
  destruct (dget tn (agents w)) as [target|] eqn:Et; [|exact H].
  assert (Ha : 0 <= Agent.wallet agent) by (destruct H as [Hw _]; eapply Hw; eassumption).
  assert (Hta : 0 <= Agent.wallet target) by (destruct H as [Hw _]; eapply Hw; eassumption).
  assert (Ha10 : 0 <= Agent.wallet agent / 10 <= Agent.wallet agent).
  { split; [apply Z.div_pos; lia|apply Z.div_le_upper_bound; lia]. }
  assert (Ht10 : 0 <= Agent.wallet target / 10 <= Agent.wallet target).
  { split; [apply Z.div_pos; lia|apply Z.div_le_upper_bound; lia]. }
  cbv zeta. destruct (target_roll e + Agent.level target <? roll e + Agent.level agent); apply Inv_chat.
  - apply Inv_upd; [|intros a _ Hx; simpl; lia].
    apply Inv_upd; [exact H|]. intros a Hx _.
    rewrite (wallet_known _ _ _ _ Et Hx). simpl. lia.
  - apply Inv_upd; [|intros a _ Hx; simpl; lia].
    apply Inv_upd; [exact H|]. intros a Hx _.
    rewrite (wallet_known _ _ _ _ Hag Hx). simpl. lia.
Qed.

(** Every action but a move keeps the invariant. *)
Lemma Inv_execute_action e who action w :
  Py.startswith action "move" = false ->
  Inv w -> env_ok e -> Inv (execute_action e who action w).
Proof.
  intros Hm H [[He _] _]. unfold execute_action. rewrite Hm.
  destruct (Py.startswith action "say"); [now apply Inv_do_say|].
  destruct (String.eqb action "search"); [now apply Inv_do_search|].
  destruct (String.eqb action "buy_land"); [now apply Inv_do_buy_land|].
  destruct (Py.startswith action "offer_trade"); [now apply Inv_do_offer_trade|].
  destruct (Py.startswith action "challenge"); [now apply Inv_do_challenge|].
  exact H.
Qed.

Lemma Inv_register_agent now sx sy sw name personality w :
  Inv w -> spawn_ok sx sy sw -> Inv (register_agent now sx sy sw name personality w).
Proof.
  intros [Hw Hwf] (_ & _ & Hs). unfold register_agent. apply Inv_chat.
  split; [|exact Hwf]. intros k a. simpl. rewrite dget_dset.
  destruct (String.eqb k name).
  - intros [= <-]. simpl. lia.
  - apply Hw.
Qed.

Lemma Inv_init : Inv init.
Proof.
  split; [intros k a; discriminate|].
  intros []; simpl; lia.
Qed.

End EnhancedFacts.

(** ** aether_enhanced.py: the branches of [execute_action] *)

Module EnhancedActions.
Import Enhanced Scenario.

Lemma dget_upd k k' f w :
  dget k' (agents (upd k f w)) =
  if String.eqb k' k then option_map f (dget k (agents w)) else dget k' (agents w).
Proof. unfold upd; simpl. apply dget_dupd. Qed.


Lemma dget_upd_other k k' f w :
  k' <> k -> dget k' (agents (upd k f w)) = dget k' (agents w).
Proof.
  intros H. rewrite dget_upd. apply String.eqb_neq in H. now rewrite H.
Qed.

(** A prefix test on a string that begins with another letter. *)
Lemma startswith_head c rest p0 p :
  c <> p0 -> Py.startswith (String c rest) (String p0 p) = false.
Proof.
  intros H. unfold Py.startswith; simpl.
  destruct (ascii_dec p0 c); [congruence | reflexivity].
Qed.

Lemma startswith_cons c rest p0 p :
  Py.startswith (String c rest) (String p0 p) = true ->
  c = p0 /\ Py.startswith rest p = true.
Proof.
  unfold Py.startswith.
  change (String.prefix (String p0 p) (String c rest))
    with (if ascii_dec p0 c then String.prefix p rest else false).
  destruct (ascii_dec p0 c); [auto | discriminate].
Qed.

Lemma bare_direction_unrecognized d : In d directions -> recognized d = false.
Proof.
  intros [<-|[<-|[<-|[<-|[]]]]]; reflexivity.
Qed.

Lemma unrecognized_noop e who action w :
  recognized action = false -> execute_action e who action w = w.
Proof.
  intros Hr. unfold recognized in Hr.
  repeat (apply orb_false_elim in Hr; destruct Hr as [Hr ?]).
  unfold execute_action.
  repeat match goal with E : _ = false |- _ => rewrite E; clear E end.
  reflexivity.
Qed.

(** C7 (as the code has it). An action string that none of the
    guards of [execute_action] recognises (it does not begin with move, say, offer_trade or
    challenge and is neither search nor buy_land), and in particular
    each of the bare directions up, down, left and right that [think]
    returns, leaves the whole world as it is: the agents, the
    territories, the market prices and the chat history. *)
Theorem unrecognized_action_changes_nothing
    (e : Env) (who action : string) (w : World) :
  recognized action = false \/ In action directions ->
  execute_action e who action w = w.
Proof.
  intros [H|H]; apply unrecognized_noop; [exact H|].
  now apply bare_direction_unrecognized.
Qed.

Lemma unrecognized_action_changes_nothing_witness :
  execute_action env "Koolie" "up" two_agents = two_agents.
Proof.
  apply (unrecognized_action_changes_nothing env "Koolie" "up" two_agents).
  right. simpl. tauto.
Defined.

(** C7 as stated fails: the strings movement and sayonara have none
    of the forms the claim lists, no keyword being their first word,
    but the guards of [execute_action] are prefix tests.  The first
    is run as a move in an unknown direction, which shifts nobody and
    still counts an action and a point of experience; the second is
    run as speech and puts its tail into the chat. *)
Lemma prefixed_word_is_executed :
  listed_form "movement" = false /\
  listed_form "sayonara" = false /\
  execute_action env "Koolie" "movement" two_agents <> two_agents /\
  option_map (fun a => (Agent.actions a, Agent.xp a)) (dget "Koolie" (agents two_agents))
    = Some (0, 0) /\
  option_map (fun a => (Agent.actions a, Agent.xp a))
    (dget "Koolie" (agents (execute_action env "Koolie" "movement" two_agents)))
    = Some (1, 1) /\
  execute_action env "Koolie" "sayonara" two_agents <> two_agents /\
  map ChatEntry.text
    (chat_history (execute_action env "Koolie" "sayonara" two_agents))
    = map ChatEntry.text (chat_history two_agents) ++ ["nara"%string].
Proof.
  split; [reflexivity|]. split; [reflexivity|]. split; [|split; [|split; [|split]]].
  - intros H.
    apply (f_equal (fun w => option_map Agent.actions (dget "Koolie" (agents w)))) in H.
    vm_compute in H. discriminate H.
  - vm_compute. reflexivity.
  - vm_compute. reflexivity.
  - intros H. apply (f_equal (fun w => length (chat_history w))) in H.
    vm_compute in H. discriminate H.
  - vm_compute. reflexivity.
Qed.

(** The guards are prefix tests: a string that only begins with move
    is taken as a move in an unknown direction, which shifts nobody
    and still counts as an action. *)
Lemma move_guard_is_a_prefix_test :
  recognized "movement" = true /\
  option_map Agent.actions
    (dget "Koolie" (agents (execute_action env "Koolie" "movement" two_agents)))
  = Some 1 /\
  option_map (fun a => (Agent.x a, Agent.y a))
    (dget "Koolie" (agents (execute_action env "Koolie" "movement" two_agents)))
  = option_map (fun a => (Agent.x a, Agent.y a)) (dget "Koolie" (agents two_agents)).
Proof. repeat split; vm_compute; reflexivity. Qed.

(** What [think] returns without the move keyword is a bare direction. *)
Lemma random_direction_bare e : In (random_direction e) directions.
Proof.
  unfold random_direction, Py.choice. apply nth_In.
  apply Nat.mod_upper_bound. discriminate.
Qed.

Lemma toward_bare dx dy : In (toward dx dy) directions.
Proof.
  unfold toward, directions.
  destruct (_ <? Z.abs dx); [destruct (0 <? dx)|destruct (0 <? dy)]; simpl; tauto.
Qed.

(** An explorer between rows 2 and 10 and left of column 16 (every
    cell of the rectangle but its last row) returns a bare direction,
    and its turn changes nothing. *)
Lemma explorer_turn_idle te i k a w :
  dget k (agents w) = Some a ->
  Agent.personality a = "explorer"%string ->
  2 <= Agent.y a <= 10 -> Agent.x a <= 15 ->
  agent_turn te w (i, k) = w.
Proof.
  intros Ha Hp Hy Hx. unfold agent_turn, with_agent. rewrite Ha.
  apply unrecognized_noop, bare_direction_unrecognized.
  unfold think. rewrite Hp. simpl.
  replace (10 <? Agent.y a) with false by (symmetry; apply Z.ltb_ge; lia).
  replace (Agent.y a <? 2) with false by (symmetry; apply Z.ltb_ge; lia).
  replace (15 <? Agent.x a) with false by (symmetry; apply Z.ltb_ge; lia).
  apply random_direction_bare.
Qed.

(** *** Level-up *)

(** The move branch levels up at the threshold ... *)
Lemma level_up_at_threshold now who w a :
  dget who (agents w) = Some a ->
  Agent.level a * 10 <= Agent.xp a ->
  dget who (agents (level_up now who w)) =
    Some (Agent.set_wallet (Agent.wallet a + 50)
            (Agent.set_xp 0 (Agent.set_level (Agent.level a + 1) a))).
Proof.
  intros Ha Hx. unfold level_up, with_agent. rewrite Ha.
  apply Z.leb_le in Hx. rewrite Hx.
  change (agents (chat ?n ?x ?m ?t ?w0)) with (agents w0).
  rewrite !dget_upd, !String.eqb_refl, Ha. reflexivity.
Qed.

Lemma level_up_below_threshold now who w a :
  dget who (agents w) = Some a ->
  Agent.xp a < Agent.level a * 10 ->
  level_up now who w = w.
Proof.
  intros Ha Hx. unfold level_up, with_agent. rewrite Ha.
  apply Z.leb_gt in Hx. now rewrite Hx.
Qed.

(** ... and the search branch grants 5 xp and never does. *)
Lemma search_keeps_level e who w a :
  dget who (agents w) = Some a ->
  dget who (agents (execute_action e who "search" w)) =
    Some (Agent.set_xp (Agent.xp a + 5)
            (Agent.set_inventory
               (Agent.inventory a ++
                  [Item.mk (found e) 1 (Agent.name a) (market_prices w (found e))])
               a)).
Proof.
  intros Ha. change (execute_action e who "search" w) with (do_search e who w).
  unfold do_search, with_agent. rewrite Ha.
  change (agents (chat ?n ?x ?m ?t ?w0)) with (agents w0).
  rewrite !dget_upd, !String.eqb_refl, Ha. reflexivity.
Qed.

(** C2 (the code departs from it). Scout-7, at level 1 with 5 xp,
    searches again: the search leaves it with 10 xp, which is the
    threshold [level * 10], and yet at level 1, with its xp kept and
    no bonus on its wallet of 125. *)
Theorem search_reaches_threshold_without_level_up :
  exists before after,
    dget "Scout-7" (agents scout_searched) = Some before /\
    dget "Scout-7" (agents (execute_action env "Scout-7" "search" scout_searched))
      = Some after /\
    Agent.level after * 10 <= Agent.xp after /\
    Agent.level after = Agent.level before /\
    Agent.xp after = 10 /\
    Agent.wallet after = Agent.wallet before.
Proof.
  eexists. eexists. split; [reflexivity|]. split; [reflexivity|].
  simpl. repeat split; lia.
Qed.

(** *** The rectangle *)

Lemma step_dir_in_rectangle d a : in_rectangle a -> in_rectangle (step_dir d a).
Proof.
  unfold in_rectangle, step_dir. intros H.
  repeat destruct (String.eqb d _); simpl; lia.
Qed.

(** The column is clamped whatever the row, and the row never drops
    below the one it has. *)
Lemma step_dir_bounds d a :
  4 <= Agent.x a <= 11 -> 3 <= Agent.y a <= 11 ->
  4 <= Agent.x (step_dir d a) <= 11 /\ 3 <= Agent.y (step_dir d a) <= 11.
Proof.
  unfold step_dir. intros Hx Hy.
  repeat destruct (String.eqb d _); simpl; lia.
Qed.

(** C3 (the code departs from it). A spawn draw within its ranges
    puts Koolie on row 3; a move to the left keeps it there, below the
    rectangle whose rows start at 4. *)
Theorem spawn_row_outside_rectangle :
  spawn_ok 4 3 100 /\
  exists a,
    dget "Koolie" (agents (execute_action env "Koolie" "move left" koolie_alone))
      = Some a /\
    Agent.y a = 3 /\ ~ in_rectangle a.
Proof.
  split; [unfold spawn_ok; lia|].
  eexists. split; [reflexivity|]. split; [reflexivity|].
  unfold in_rectangle; simpl. lia.
Qed.

End EnhancedActions.

(** ** aether_enhanced.py: what holds of every registered agent *)

Module EnhancedEntries.
Import Enhanced EnhancedActions.

Section Entries.
Variable Q : string -> Agent.t -> Prop.
Hypothesis Q_wallet : forall k v a, Q k a -> Q k (Agent.set_wallet v a).
Hypothesis Q_inventory : forall k v a, Q k a -> Q k (Agent.set_inventory v a).
Hypothesis Q_actions : forall k v a, Q k a -> Q k (Agent.set_actions v a).
Hypothesis Q_level : forall k v a, Q k a -> Q k (Agent.set_level v a).
Hypothesis Q_xp : forall k v a, Q k a -> Q k (Agent.set_xp v a).
Hypothesis Q_step : forall k d a, Q k a -> Q k (step_dir d a).
Hypothesis Q_spawn : forall name personality sx sy sw,
  spawn_ok sx sy sw ->
  Q name (Agent.mk name personality sx sy (100 + sw) [] 0 50 None 1 0).

Lemma every_upd k f w :
  every_agent Q w -> (forall a, Q k a -> Q k (f a)) -> every_agent Q (upd k f w).
Proof.
  intros H Hf k' a. rewrite dget_upd.
  destruct (String.eqb_spec k' k) as [->|]; [|apply H].
  destruct (dget k (agents w)) as [a0|] eqn:E; [|discriminate].
  intros [= <-]. apply Hf. now apply H.
Qed.

Lemma every_chat now who msg ty w :
  every_agent Q w -> every_agent Q (chat now who msg ty w).
Proof. intros H. exact H. Qed.

Lemma every_with_agent k w f :
  every_agent Q w -> (forall a, every_agent Q (f a)) ->
  every_agent Q (with_agent k w f).
Proof. intros H Hf. unfold with_agent. destruct (dget k (agents w)); auto. Qed.

Ltac entries :=
  repeat first
    [ assumption
    | apply every_chat
    | apply every_upd; [|intros; auto] ].

Lemma every_check_territory now who w :
  every_agent Q w -> every_agent Q (check_territory now who w).
Proof.
  unfold check_territory. generalize (territories w) as l. intros l. revert w.
  induction l as [|t l IH]; intros w H; simpl; [exact H|].
  apply IH. unfold tax_step. apply every_with_agent; [exact H|]. intros a.
  destruct (_ && _); [|exact H]. destruct (negb _); [|exact H].
  apply every_chat. destruct (dget _ _); entries.
Qed.

Lemma every_arrive e who action w :
  every_agent Q w -> every_agent Q (arrive e who action w).
Proof.
  intros H. unfold arrive.
  assert (H1 : every_agent Q
    (upd who (fun a => Agent.set_xp (Agent.xp a + 1) a)
       (upd who (fun a => Agent.set_actions (Agent.actions a + 1) a)
          (upd who (step_dir (List.last (Py.split action) EmptyString)) w))))
    by entries.
  assert (H2 : every_agent Q (level_up (now e) who
    (upd who (fun a => Agent.set_xp (Agent.xp a + 1) a)
       (upd who (fun a => Agent.set_actions (Agent.actions a + 1) a)
          (upd who (step_dir (List.last (Py.split action) EmptyString)) w))))).
  { unfold level_up. apply every_with_agent; [exact H1|]. intros a.
    destruct (_ <=? _); entries. }
  unfold announce. apply every_with_agent; [exact H2|]. intros a.
  destruct (_ =? 0); entries.
Qed.

Lemma every_execute_action e who action w :
  every_agent Q w -> every_agent Q (execute_action e who action w).
Proof.
  intros H. unfold execute_action.
  destruct (Py.startswith action "move").
  { now apply every_check_territory, every_arrive. }
  destruct (Py.startswith action "say").
  { apply every_with_agent; [exact H|]. intros a. entries. }
  destruct (String.eqb action "search").
  { apply every_with_agent; [exact H|]. intros a. entries. }
  destruct (String.eqb action "buy_land").
  { apply every_with_agent; [exact H|]. intros a.
    destruct (150 <=? Agent.wallet a); [|exact H].
    apply every_chat, every_upd; [|intros; auto].
    change (every_agent Q
      (upd who (fun a0 => Agent.set_wallet (Agent.wallet a0 - 150) a0) w)).
    entries. }
  destruct (Py.startswith action "offer_trade").
  { apply every_with_agent; [exact H|]. intros a.
    destruct (target_of action) as [tn|]; [|exact H].
    destruct (dget tn (agents w)) as [target|]; [|exact H].
    destruct (Agent.inventory a) as [|item rest]; [exact H|].
    destruct (30 <=? Agent.wallet target); [|exact H]. cbv zeta.
    destruct (_ <=? Agent.wallet target); [|exact H].
    unfold settle_trade. entries. }
  destruct (Py.startswith action "challenge"); [|exact H].
  apply every_with_agent; [exact H|]. intros a.
  destruct (target_of action) as [tn|]; [|exact H].
  destruct (dget tn (agents w)) as [target|]; [|exact H]. cbv zeta.
  destruct (_ <? _); entries.
Qed.

Lemma every_register_agent now sx sy sw name personality w :
  every_agent Q w -> spawn_ok sx sy sw ->
  every_agent Q (register_agent now sx sy sw name personality w).
Proof.
  intros H Hs k a. unfold register_agent.
  change (agents (chat ?n ?x ?m ?t ?w0)) with (agents w0). simpl agents.
  rewrite dget_dset. destruct (String.eqb_spec k name) as [->|]; [|apply H].
  intros [= <-]. now apply Q_spawn.
Qed.

Lemma every_tick_world te w :
  every_agent Q w -> every_agent Q (tick_world te w).
Proof.
  intros H. unfold tick_world, fluctuate, world_event.
  set (l := combine _ _). clearbody l.
  assert (H1 : every_agent Q
                 (fold_left (agent_turn te) l (set_tick (tick w + 1) w))).
  { assert (H0 : every_agent Q (set_tick (tick w + 1) w)) by exact H.
    revert H0. generalize (set_tick (tick w + 1) w).
    induction l as [|[i k] l IH]; intros w0 H0; simpl; [exact H0|].
    apply IH. apply every_with_agent; [exact H0|]. intros a.
    now apply every_execute_action. }
  set (w1 := fold_left _ _ _) in *. clearbody w1.
  destruct (_ =? 0); destruct (Qle_bool _ _); exact H1.
Qed.

Lemma every_run ops w :
  every_agent Q w -> Forall op_ok ops -> every_agent Q (run ops w).
Proof.
  intros H Hops. revert w H. unfold run.
  induction Hops as [|op ops Hop _ IH]; intros w H; simpl; [exact H|].
  apply IH. destruct op; simpl in *.
  - now apply every_register_agent.
  - now apply every_execute_action.
  - now apply every_tick_world.
Qed.

End Entries.

(** In every world the operations build, each agent is registered
    under its own name ... *)
Lemma names_ok_run ops : Forall op_ok ops -> names_ok (run ops init).
Proof.
  intros Hops. apply every_run; try exact Hops; try (intros; assumption).
  - intros k d a H. unfold step_dir.
    repeat destruct (String.eqb d _); exact H.
  - reflexivity.
  - intros k a; discriminate.
Qed.

(** ... and stands in columns 4 to 11 and rows 3 to 11: the rectangle
    of the move branch and the row below it, where a spawn may put
    an agent. *)
Lemma positions_in_reach_run ops :
  Forall op_ok ops -> every_agent (fun _ a => in_reach a) (run ops init).
Proof.
  intros Hops. apply every_run; try exact Hops; try (intros; assumption).
  - intros k d a [Hx Hy]. now apply step_dir_bounds.
  - intros name personality sx sy sw (Hx & Hy & _). unfold in_reach; simpl. lia.
  - intros k a; discriminate.
Qed.

End EnhancedEntries.

(** ** aether_enhanced.py: territory tax *)

Module EnhancedTax.
Import Enhanced Scenario EnhancedFacts EnhancedActions.




End EnhancedTax.

Module EnhancedTaxRun.
Import Enhanced Scenario.



End EnhancedTaxRun.

(** ** offer_trade *)

Module EnhancedTrade.
Import Enhanced EnhancedActions.

Lemma offer_trade_dispatch e who action w :
  Py.startswith action "offer_trade" = true ->
  execute_action e who action w = do_offer_trade e who action w.
Proof.
  intros H. unfold execute_action. rewrite H.
  destruct action as [|c rest]; [cbv in H; discriminate|].
  apply startswith_cons in H. destruct H as [-> _].
  rewrite !startswith_head by discriminate. reflexivity.
Qed.

Lemma settle_trade_sale e who tn agent target item w :
  who <> tn ->
  dget who (agents w) = Some agent ->
  dget tn (agents w) = Some target ->
  hd_error (Agent.inventory agent) = Some item ->
  sale e who tn agent target w
    (settle_trade e who tn agent target item (quote e w item) w).
Proof.
  intros Hne Ha Ht Hhd. exists item. split; [exact Hhd|].
  assert (Hwt : String.eqb who tn = false) by now apply String.eqb_neq.
  assert (Htw : String.eqb tn who = false) by (apply String.eqb_neq; congruence).
  unfold settle_trade.
  change (agents (chat ?n ?x ?m ?t ?w0)) with (agents w0).
  repeat split.
  - rewrite !dget_upd, ?String.eqb_refl, ?Hwt, ?Htw, Ha. reflexivity.
  - rewrite !dget_upd, ?String.eqb_refl, ?Hwt, ?Htw, Ht. reflexivity.
  - intros k Hk1 Hk2. now rewrite !dget_upd_other by assumption.
  - eexists. reflexivity.
Qed.

Lemma no_sale_in_place e who tn agent target w :
  dget who (agents w) = Some agent -> ~ sale e who tn agent target w w.
Proof.
  intros Ha (item & Hhd & Hwho & _).
  rewrite Ha in Hwho. injection Hwho as Heq.
  apply (f_equal Agent.inventory) in Heq. simpl in Heq.
  destruct (Agent.inventory agent) as [|i rest]; [discriminate|].
  simpl in Heq. apply (f_equal (@length _)) in Heq. simpl in Heq. lia.
Qed.

(** The enhanced variant sells exactly when the actor holds
    something, the target's wallet covers the price, and the target's
    wallet is at least 30; otherwise nothing at all changes. *)
Lemma offer_trade_sells e who tn action w agent target :
  Py.startswith action "offer_trade" = true ->
  target_of action = Some tn ->
  who <> tn ->
  dget who (agents w) = Some agent ->
  dget tn (agents w) = Some target ->
  (sale e who tn agent target w (execute_action e who action w) <->
   affordable e agent target w /\ 30 <= Agent.wallet target) /\
  (~ (affordable e agent target w /\ 30 <= Agent.wallet target) ->
   execute_action e who action w = w).
Proof.
  intros Hpre Htok Hne Ha Ht.
  rewrite offer_trade_dispatch by exact Hpre.
  pose proof (no_sale_in_place e who tn agent target w Ha) as Hnone.
  pose proof (settle_trade_sale e who tn agent target) as Hsale.
  unfold do_offer_trade, with_agent. rewrite Ha, Htok, Ht.
  unfold affordable.
  destruct (Agent.inventory agent) as [|item rest] eqn:Einv.
  { split; [split|reflexivity].
    - intros Hs. now apply Hnone in Hs.
    - intros [(it & Hhd & _) _]. discriminate. }
  specialize (Hsale item w Hne Ha Ht eq_refl). fold (quote e w item).
  destruct (30 <=? Agent.wallet target) eqn:E30.
  - destruct (quote e w item <=? Agent.wallet target) eqn:Ep.
    + apply Z.leb_le in E30, Ep. split.
      * split; [intros _|intros _; exact Hsale].
        split; [exists item; split; [reflexivity|exact Ep]|exact E30].
      * intros Hn. exfalso. apply Hn.
        split; [exists item; split; [reflexivity|exact Ep]|exact E30].
    + apply Z.leb_gt in Ep. split; [split|reflexivity].
      * intros Hs. now apply Hnone in Hs.
      * intros [(it & Hhd & Hq) _]. injection Hhd as <-. lia.
  - apply Z.leb_gt in E30. split; [split|reflexivity].
    + intros Hs. now apply Hnone in Hs.
    + intros [_ H30]. lia.
Qed.

End EnhancedTrade.

Module FullTrade.
Import Full.

Lemma full_dget_upd k k' f w :
  dget k' (agents (upd k f w)) =
  if String.eqb k' k then option_map f (dget k (agents w)) else dget k' (agents w).
Proof. unfold upd; simpl. apply dget_dupd. Qed.

Lemma full_dget_upd_other k k' f w :
  k' <> k -> dget k' (agents (upd k f w)) = dget k' (agents w).
Proof.
  intros H. rewrite full_dget_upd. apply String.eqb_neq in H. now rewrite H.
Qed.

Lemma full_offer_trade_dispatch e who action w :
  Py.startswith action "offer_trade" = true ->
  execute_action e who action w = do_offer_trade e who action w.
Proof.
  intros H. unfold execute_action. rewrite H.
  destruct action as [|c rest]; [cbv in H; discriminate|].
  apply EnhancedActions.startswith_cons in H. destruct H as [-> _].
  rewrite !EnhancedActions.startswith_head by discriminate. reflexivity.
Qed.

Lemma full_settle_trade_sale e who tn agent target item w :
  who <> tn ->
  dget who (agents w) = Some agent ->
  dget tn (agents w) = Some target ->
  hd_error (Agent.inventory agent) = Some item ->
  sale e who tn agent target w
    (settle_trade e who tn agent target item (quote e w item) w).
Proof.
  intros Hne Ha Ht Hhd. exists item. split; [exact Hhd|].
  assert (Hwt : String.eqb who tn = false) by now apply String.eqb_neq.
  assert (Htw : String.eqb tn who = false) by (apply String.eqb_neq; congruence).
  unfold settle_trade.
  change (agents (broadcast ?n ?m ?t ?w0)) with (agents w0).
  repeat split.
  - rewrite !full_dget_upd, ?String.eqb_refl, ?Hwt, ?Htw, Ha. reflexivity.
  - rewrite !full_dget_upd, ?String.eqb_refl, ?Hwt, ?Htw, Ht. reflexivity.
  - intros k Hk1 Hk2. now rewrite !full_dget_upd_other by assumption.
  - eexists. reflexivity.
Qed.

Lemma full_no_sale_in_place e who tn agent target w :
  dget who (agents w) = Some agent -> ~ sale e who tn agent target w w.
Proof.
  intros Ha (item & Hhd & Hwho & _).
  rewrite Ha in Hwho. injection Hwho as Heq.
  apply (f_equal Agent.inventory) in Heq. simpl in Heq.
  destruct (Agent.inventory agent) as [|i rest]; [discriminate|].
  simpl in Heq. apply (f_equal (@length _)) in Heq. simpl in Heq. lia.
Qed.

(** The full variant has no floor on the target's wallet. *)
Lemma full_offer_trade_sells e who tn action w agent target :
  Py.startswith action "offer_trade" = true ->
  target_of action = Some tn ->
  who <> tn ->
  dget who (agents w) = Some agent ->
  dget tn (agents w) = Some target ->
  (sale e who tn agent target w (execute_action e who action w) <->
   affordable e agent target w) /\
  (~ affordable e agent target w -> execute_action e who action w = w).
Proof.
  intros Hpre Htok Hne Ha Ht.
  rewrite full_offer_trade_dispatch by exact Hpre.
  pose proof (full_no_sale_in_place e who tn agent target w Ha) as Hnone.
  pose proof (full_settle_trade_sale e who tn agent target) as Hsale.
  unfold do_offer_trade, with_agent. rewrite Ha, Htok, Ht.
  unfold affordable.
  destruct (Agent.inventory agent) as [|item rest] eqn:Einv.
  { split; [split|reflexivity].
    - intros Hs. now apply Hnone in Hs.
    - intros (it & Hhd & _). discriminate. }
  specialize (Hsale item w Hne Ha Ht eq_refl). fold (quote e w item).
  destruct (quote e w item <=? Agent.wallet target) eqn:Ep.
  - apply Z.leb_le in Ep. split.
    + split; [intros _|intros _; exact Hsale].
      exists item; split; [reflexivity|exact Ep].
    + intros Hn. exfalso. apply Hn.
      exists item; split; [reflexivity|exact Ep].
  - apply Z.leb_gt in Ep. split; [split|reflexivity].
    + intros Hs. now apply Hnone in Hs.
    + intros (it & Hhd & Hq). injection Hhd as <-. lia.
Qed.

(** C1 (the code departs from it). In the full world a trade can
    take a wallet below zero.  Scout-7 has spent its 100 gold on land
    and found a gold nugget; every wallet is non-negative.  It offers
    the nugget to Koolie with the price draw at -5: gold is listed at
    1, the price is -4, Koolie's 100 gold cover it, and the transfer
    takes Scout-7 from 0 to -4 and Koolie from 100 to 104. *)
Theorem full_trade_overdraws_the_seller :
  let before := Scenario.full_seller_without_gold in
  let e := mkEnv "12:00:04" 0 (-5) in
  let after := execute_action e "Scout-7" "offer_trade Koolie" before in
  Forall (fun a => 0 <= Agent.wallet a) (dvalues (agents before)) /\
  -5 <= trade_delta e <= 10 /\
  option_map Agent.wallet (dget "Scout-7" (agents before)) = Some 0 /\
  option_map Agent.wallet (dget "Koolie" (agents before)) = Some 100 /\
  option_map Agent.wallet (dget "Scout-7" (agents after)) = Some (-4) /\
  option_map Agent.wallet (dget "Koolie" (agents after)) = Some 104.
Proof.
  cbv zeta. split; [|split; [simpl; lia|]].
  - vm_compute. repeat constructor; discriminate.
  - repeat split; vm_compute; reflexivity.
Qed.

End FullTrade.

Module Trade.
Import Scenario.

(** C5 (as the code has it). For an actor and a target registered
    under different names, [offer_trade <target>] moves the actor's
    first item to the target, with the target's name as its owner, and
    its perturbed market price from the target to the actor, and logs
    a trade entry, exactly when the actor holds something and the
    target's wallet covers the price and, in the enhanced variant, is
    at least 30; in every other case the world is left as it is.  The
    full variant has no such floor. *)
Theorem offer_trade_sells_iff_affordable :
  (forall e who tn action w agent target,
     Py.startswith action "offer_trade" = true ->
     Enhanced.target_of action = Some tn ->
     who <> tn ->
     dget who (Enhanced.agents w) = Some agent ->
     dget tn (Enhanced.agents w) = Some target ->
     (Enhanced.sale e who tn agent target w (Enhanced.execute_action e who action w) <->
      Enhanced.affordable e agent target w /\ 30 <= Enhanced.Agent.wallet target) /\
     (~ (Enhanced.affordable e agent target w /\ 30 <= Enhanced.Agent.wallet target) ->
      Enhanced.execute_action e who action w = w)) /\
  (forall e who tn action w agent target,
     Py.startswith action "offer_trade" = true ->
     Full.target_of action = Some tn ->
     who <> tn ->
     dget who (Full.agents w) = Some agent ->
     dget tn (Full.agents w) = Some target ->
     (Full.sale e who tn agent target w (Full.execute_action e who action w) <->
      Full.affordable e agent target w) /\
     (~ Full.affordable e agent target w ->
      Full.execute_action e who action w = w)).
Proof.
  split; intros.
  - now apply EnhancedTrade.offer_trade_sells.
  - now apply FullTrade.full_offer_trade_sells.
Qed.

Lemma offer_trade_sells_iff_affordable_witness :
  Enhanced.sale env "Scout-7" "Koolie" scout_with_potion koolie_rich scout_searched
    (Enhanced.execute_action env "Scout-7" "offer_trade Koolie" scout_searched).
Proof.
  apply (proj1 offer_trade_sells_iff_affordable
           env "Scout-7" "Koolie" "offer_trade Koolie" scout_searched
           scout_with_potion koolie_rich).
  - reflexivity.
  - reflexivity.
  - discriminate.
  - reflexivity.
  - reflexivity.
  - split; [|simpl; lia].
    exists potion_of_scout. split; [reflexivity|].
    unfold Enhanced.quote; simpl. lia.
Defined.

(** C5 as stated fails in the enhanced variant: Scout-7 holds a
    potion quoted at 20, Koolie's wallet of 25 covers it, and the
    offer changes nothing: no sale, no entry in the chat. *)
Lemma offer_trade_refuses_covered_price :
  dget "Scout-7" (Enhanced.agents koolie_short) = Some scout_with_potion /\
  dget "Koolie" (Enhanced.agents koolie_short) = Some koolie_poor /\
  Enhanced.affordable env scout_with_potion koolie_poor koolie_short /\
  Enhanced.execute_action env "Scout-7" "offer_trade Koolie" koolie_short
    = koolie_short /\
  ~ Enhanced.sale env "Scout-7" "Koolie" scout_with_potion koolie_poor koolie_short
      (Enhanced.execute_action env "Scout-7" "offer_trade Koolie" koolie_short).
Proof.
  split; [reflexivity|]. split; [reflexivity|]. split; [|split].
  - exists potion_of_scout. split; [reflexivity|].
    unfold Enhanced.quote; simpl. lia.
  - reflexivity.
  - change (Enhanced.execute_action env "Scout-7" "offer_trade Koolie" koolie_short)
      with koolie_short.
    now apply EnhancedTrade.no_sale_in_place.
Qed.

End Trade.

(** ** aether_enhanced.py: what every operation preserves *)

Module EnhancedFrame.
Import Enhanced.

Section Preserved.
Variable P : World -> Prop.
Hypothesis P_chat : forall now a m t w, P w -> P (chat now a m t w).
Hypothesis P_agents : forall v w, P w -> P (set_agents v w).
Hypothesis P_territories : forall v w, P w -> P (set_territories v w).
Hypothesis P_tick : forall v w, P w -> P (set_tick v w).
Hypothesis P_market : forall v w, P w -> P (set_market_prices v w).

Lemma P_upd k f w : P w -> P (upd k f w).
Proof. apply P_agents. Qed.

Lemma P_with_agent k w f :
  P w -> (forall a, P (f a)) -> P (with_agent k w f).
Proof. intros H Hf. unfold with_agent. destruct (dget k (agents w)); auto. Qed.

Lemma P_tax_step now who terr w : P w -> P (tax_step now who terr w).
Proof.
  intros H. apply P_with_agent; [exact H|]. intros a.
  destruct (_ && _); [|exact H]. destruct (negb _); [|exact H].
  apply P_chat. destruct (dget _ _); repeat apply P_upd; exact H.
Qed.

Lemma P_check_territory now who w : P w -> P (check_territory now who w).
Proof.
  unfold check_territory. generalize (territories w) as l. intros l. revert w.
  induction l as [|t l IH]; intros w H; simpl; [exact H|].
  apply IH. now apply P_tax_step.
Qed.

Lemma P_do_move e who action w : P w -> P (do_move e who action w).
Proof.
  intros H. apply P_check_territory. unfold arrive, announce, level_up.
  apply P_with_agent.
  - apply P_with_agent; [repeat apply P_upd; exact H|]. intros a.
    destruct (_ <=? _); [apply P_chat|]; repeat apply P_upd; exact H.
  - intros a. destruct (_ =? 0); [apply P_chat|];
      (apply P_with_agent; [repeat apply P_upd; exact H|]; intros a0;
       destruct (_ <=? _); [apply P_chat|]; repeat apply P_upd; exact H).
Qed.

Lemma P_execute_action e who action w : P w -> P (execute_action e who action w).
Proof.
  intros H. unfold execute_action.
  destruct (Py.startswith action "move"); [now apply P_do_move|].
  destruct (Py.startswith action "say").
  { apply P_with_agent; [exact H|]. intros a. now apply P_chat. }
  destruct (String.eqb action "search").
  { apply P_with_agent; [exact H|]. intros a. apply P_chat.
    repeat apply P_upd. exact H. }
  destruct (String.eqb action "buy_land").
  { apply P_with_agent; [exact H|]. intros a.
    destruct (150 <=? Agent.wallet a); [|exact H].
    apply P_chat, P_upd, P_territories, P_upd. exact H. }
  destruct (Py.startswith action "offer_trade").
  { apply P_with_agent; [exact H|]. intros a.
    destruct (target_of action) as [tn|]; [|exact H].
    destruct (dget tn (agents w)) as [target|]; [|exact H].
    destruct (Agent.inventory a) as [|item rest]; [exact H|].
    destruct (30 <=? Agent.wallet target); [|exact H]. cbv zeta.
    destruct (_ <=? Agent.wallet target); [|exact H].
    apply P_chat. repeat apply P_upd. exact H. }
  destruct (Py.startswith action "challenge"); [|exact H].
  apply P_with_agent; [exact H|]. intros a.
  destruct (target_of action) as [tn|]; [|exact H].
  destruct (dget tn (agents w)) as [target|]; [|exact H]. cbv zeta.
  destruct (_ <? _); apply P_chat; repeat apply P_upd; exact H.
Qed.

Lemma P_register_agent now sx sy sw name personality w :
  P w -> P (register_agent now sx sy sw name personality w).
Proof. intros H. apply P_chat, P_agents, H. Qed.

Lemma P_tick_world te w : P w -> P (tick_world te w).
Proof.
  intros H. unfold tick_world, fluctuate, world_event.
  set (l := combine _ _). clearbody l.
  assert (H1 : P (fold_left (agent_turn te) l (set_tick (tick w + 1) w))).
  { generalize (P_tick (tick w + 1) w H). generalize (set_tick (tick w + 1) w).
    induction l as [|[i k] l IH]; intros w0 H0; simpl; [exact H0|].
    apply IH. apply P_with_agent; [exact H0|]. intros a.
    now apply P_execute_action. }
  set (w1 := fold_left _ _ _) in *. clearbody w1.
  assert (H2 : P (if Qle_bool (12 # 100) (event_coin te) then w1
                  else chat (event_now te) "World"
                         (Py.choice (event_pick te) (events w1) EmptyString)
                         "event" w1))
    by (destruct (Qle_bool _ _); [|apply P_chat]; exact H1).
  destruct (_ =? 0); [now apply P_market|exact H2].
Qed.

Lemma P_run ops w : P w -> P (run ops w).
Proof.
  unfold run. revert w. induction ops as [|op ops IH]; intros w H; simpl; [exact H|].
  apply IH. destruct op; simpl.
  - now apply P_register_agent.
  - now apply P_execute_action.
  - now apply P_tick_world.
Qed.

End Preserved.

End EnhancedFrame.

(** ** The bounded chat buffers *)

Module ChatBuffer.

(** The append-then-trim of the three buffers. *)
Lemma append_then_trim {A : Type} (limit : Z) (h : list A) (entry : A) :
  0 <= limit -> Z.of_nat (length h) <= limit ->
  let h' := if limit <? Z.of_nat (length (h ++ [entry]))
            then tl (h ++ [entry]) else h ++ [entry] in
  Z.of_nat (length h') <= limit /\
  (1 <= limit ->
   h' = (if Z.of_nat (length h) =? limit then tl h else h) ++ [entry]).
Proof.
  intros Hl Hh. cbv zeta. rewrite length_app. simpl length.
  destruct (Z.of_nat (length h) =? limit) eqn:E.
  - apply Z.eqb_eq in E.
    replace (limit <? Z.of_nat (length h + 1)) with true
      by (symmetry; apply Z.ltb_lt; lia).
    destruct h as [|a h]; simpl in *.
    + split; [lia|intros; lia].
    + split; [rewrite length_app; simpl; lia|reflexivity].
  - apply Z.eqb_neq in E.
    replace (limit <? Z.of_nat (length h + 1)) with false
      by (symmetry; apply Z.ltb_ge; lia).
    split; [rewrite length_app; simpl; lia|reflexivity].
Qed.

(** The chat of the enhanced world holds at most 30 entries after
    every run that starts within the bound, and so after every run
    from the empty world of the constructor. *)
Lemma chat_history_bounded_run ops w :
  (length (Enhanced.chat_history w) <= 30)%nat ->
  (length (Enhanced.chat_history (Enhanced.run ops w)) <= 30)%nat.
Proof.
  apply (EnhancedFrame.P_run
           (fun w => (length (Enhanced.chat_history w) <= 30)%nat)); auto.
  intros now a m t w0 H. unfold Enhanced.chat; simpl.
  pose proof (append_then_trim Enhanced.chat_limit (Enhanced.chat_history w0)
                (Enhanced.ChatEntry.mk now a m t (Enhanced.tick w0))) as Ht.
  unfold Enhanced.chat_limit in *. cbv zeta in Ht.
  destruct Ht as [Ht _]; lia.
Qed.

(** C6. Each of the three buffers, within its maximum before an
    append (30 in the enhanced variant, 20 in the full variant, the
    [max_lines] of the showcase overlay), is within it after; and an
    append to a full buffer drops exactly the entry at index 0, the
    others keeping their order before the new one (for the overlay,
    when [max_lines] is at least 1: with 0 the new entry is itself
    the one at index 0). *)
Theorem chat_buffer_bounded_fifo :
  (forall now who msg ty w,
     let h := Enhanced.chat_history w in
     let h' := Enhanced.chat_history (Enhanced.chat now who msg ty w) in
     (length h <= 30)%nat ->
     (length h' <= 30)%nat /\
     h' = (if Nat.eqb (length h) 30 then tl h else h)
            ++ [Enhanced.ChatEntry.mk now who msg ty (Enhanced.tick w)]) /\
  (forall now msg ty w,
     let h := Full.chat_overlay w in
     let h' := Full.chat_overlay (Full.broadcast now msg ty w) in
     (length h <= 20)%nat ->
     (length h' <= 20)%nat /\
     h' = (if Nat.eqb (length h) 20 then tl h else h)
            ++ [Full.Line.mk (String.append "["
                                (String.append now (String.append "] " msg))) ty]) /\
  (forall now stamp who msg ty c,
     let h := Showcase.messages c in
     let h' := Showcase.messages (Showcase.add_message now stamp who msg ty c) in
     0 <= Showcase.max_lines c ->
     Z.of_nat (length h) <= Showcase.max_lines c ->
     Z.of_nat (length h') <= Showcase.max_lines c /\
     (1 <= Showcase.max_lines c ->
      h' = (if Z.of_nat (length h) =? Showcase.max_lines c then tl h else h)
             ++ [Showcase.Message.mk now who msg ty stamp])).
Proof.
  split; [|split].
  - intros now who msg ty w h h' Hh. subst h h'.
    unfold Enhanced.chat; simpl.
    destruct (append_then_trim Enhanced.chat_limit (Enhanced.chat_history w)
                (Enhanced.ChatEntry.mk now who msg ty (Enhanced.tick w)))
      as [H1 H2]; [unfold Enhanced.chat_limit; lia ..|].
    cbv zeta in H1, H2. unfold Enhanced.chat_limit in *.
    rewrite H2 by lia. split.
    + rewrite H2 in H1 by lia. lia.
    + f_equal. destruct (Nat.eqb_spec (length (Enhanced.chat_history w)) 30) as [E|E].
      * rewrite E. reflexivity.
      * replace (_ =? 30) with false; [reflexivity|]. symmetry. apply Z.eqb_neq. lia.
  - intros now msg ty w h h' Hh. subst h h'.
    unfold Full.broadcast; simpl.
    destruct (append_then_trim Full.chat_limit (Full.chat_overlay w)
                (Full.Line.mk (String.append "["
                                 (String.append now (String.append "] " msg))) ty))
      as [H1 H2]; [unfold Full.chat_limit; lia ..|].
    cbv zeta in H1, H2. unfold Full.chat_limit in *.
    rewrite H2 by lia. split.
    + rewrite H2 in H1 by lia. lia.
    + f_equal. destruct (Nat.eqb_spec (length (Full.chat_overlay w)) 20) as [E|E].
      * rewrite E. reflexivity.
      * replace (_ =? 20) with false; [reflexivity|]. symmetry. apply Z.eqb_neq. lia.
  - intros now stamp who msg ty c h h' Hm Hh. subst h h'.
    unfold Showcase.add_message; simpl.
    apply append_then_trim; assumption.
Qed.

Lemma chat_buffer_bounded_fifo_witness :
  (length (Enhanced.chat_history
             (Enhanced.chat "12:00:31" "Koolie" "hello" "chat" Scenario.crowded))
   <= 30)%nat /\
  Enhanced.chat_history
    (Enhanced.chat "12:00:31" "Koolie" "hello" "chat" Scenario.crowded)
  = (if Nat.eqb (length (Enhanced.chat_history Scenario.crowded)) 30
     then tl (Enhanced.chat_history Scenario.crowded)
     else Enhanced.chat_history Scenario.crowded)
      ++ [Enhanced.ChatEntry.mk "12:00:31" "Koolie" "hello" "chat"
            (Enhanced.tick Scenario.crowded)].
Proof.
  refine (proj1 chat_buffer_bounded_fifo
            "12:00:31"%string "Koolie"%string "hello"%string "chat"%string
            Scenario.crowded _).
  vm_compute. lia.
Defined.

End ChatBuffer.

(** ** Registration under a name that is taken *)

Module Registration.
Import Scenario.

Lemma enhanced_register_replaces now sx sy sw name personality w :
  let w' := Enhanced.register_agent now sx sy sw name personality w in
  dget name (Enhanced.agents w') =
    Some (Enhanced.Agent.mk name personality sx sy (100 + sw) [] 0 50 None 1 0) /\
  (forall k, k <> name -> dget k (Enhanced.agents w') = dget k (Enhanced.agents w)) /\
  exists text,
    Enhanced.chat_history w' =
    Enhanced.chat_history (Enhanced.chat now "system" text "join" w).
Proof.
  cbv zeta. unfold Enhanced.register_agent.
  change (Enhanced.agents (Enhanced.chat ?n ?x ?m ?t ?w0)) with (Enhanced.agents w0).
  simpl Enhanced.agents. repeat split.
  - rewrite dget_dset, String.eqb_refl. reflexivity.
  - intros k Hk. rewrite dget_dset. apply String.eqb_neq in Hk. now rewrite Hk.
  - eexists. reflexivity.
Qed.

Lemma full_register_replaces now sx sy sw name personality w :
  let w' := Full.register_agent now sx sy sw name personality w in
  dget name (Full.agents w') =
    Some (Full.Agent.mk name personality sx sy (100 + sw) [] 0 50 None []) /\
  (forall k, k <> name -> dget k (Full.agents w') = dget k (Full.agents w)) /\
  exists text,
    Full.chat_overlay w' = Full.chat_overlay (Full.broadcast now text "system" w).
Proof.
  cbv zeta. unfold Full.register_agent.
  change (Full.agents (Full.broadcast ?n ?m ?t ?w0)) with (Full.agents w0).
  simpl Full.agents. repeat split.
  - rewrite dget_dset, String.eqb_refl. reflexivity.
  - intros k Hk. rewrite dget_dset. apply String.eqb_neq in Hk. now rewrite Hk.
  - eexists. reflexivity.
Qed.

Lemma server_register_reuses now pos name (s : Server.State) (a : Server.Agent.t) :
  Server.agents s !! name = Some a ->
  let '(s', reply) := Server.register_agent now pos name s in
  Server.agents s' !! name =
    Some (Server.Agent.mk (Server.Agent.name a) (Server.pos_x pos) (Server.pos_y pos)
            (Server.pos_map pos) now (Server.Agent.action_count a)) /\
  (forall k, k <> name -> Server.agents s' !! k = Server.agents s !! k) /\
  Server.current_agent s' = Some name /\
  Server.success reply = true.
Proof.
  intros Ha. unfold Server.register_agent. rewrite Ha. cbv zeta. rewrite Ha.
  simpl. repeat split.
  - rewrite lookup_insert_eq. reflexivity.
  - intros k Hk. rewrite lookup_insert_ne by congruence. reflexivity.
Qed.

(** C8 (as the code has it). Registering under a name that is taken
    reports no error.  In the enhanced and the full variant it
    replaces the entry (in its slot) by a freshly spawned agent: new
    position and wallet from the draws, empty inventory, counters at
    their defaults; the other agents are untouched and the join line
    is logged as for a new name.  Only the emulator server's
    [register_agent(name)] reuses the entry: it keeps the name and the
    action count, and refreshes position and last-seen time. *)
Theorem register_taken_name :
  (forall now sx sy sw name personality w old,
     dget name (Enhanced.agents w) = Some old ->
     let w' := Enhanced.register_agent now sx sy sw name personality w in
     dget name (Enhanced.agents w') =
       Some (Enhanced.Agent.mk name personality sx sy (100 + sw) [] 0 50 None 1 0) /\
     dkeys (Enhanced.agents w') = dkeys (Enhanced.agents w) /\
     (forall k, k <> name ->
                dget k (Enhanced.agents w') = dget k (Enhanced.agents w)) /\
     exists text,
       Enhanced.chat_history w' =
       Enhanced.chat_history (Enhanced.chat now "system" text "join" w)) /\
  (forall now sx sy sw name personality w old,
     dget name (Full.agents w) = Some old ->
     let w' := Full.register_agent now sx sy sw name personality w in
     dget name (Full.agents w') =
       Some (Full.Agent.mk name personality sx sy (100 + sw) [] 0 50 None []) /\
     dkeys (Full.agents w') = dkeys (Full.agents w) /\
     (forall k, k <> name -> dget k (Full.agents w') = dget k (Full.agents w)) /\
     exists text,
       Full.chat_overlay w' = Full.chat_overlay (Full.broadcast now text "system" w)) /\
  (forall now pos name (s : Server.State) (old : Server.Agent.t),
     Server.agents s !! name = Some old ->
     let '(s', reply) := Server.register_agent now pos name s in
     Server.agents s' !! name =
       Some (Server.Agent.mk (Server.Agent.name old) (Server.pos_x pos)
               (Server.pos_y pos) (Server.pos_map pos) now
               (Server.Agent.action_count old)) /\
     (forall k, k <> name -> Server.agents s' !! k = Server.agents s !! k) /\
     Server.current_agent s' = Some name /\
     Server.success reply = true).
Proof.
  split; [|split].
  - intros now sx sy sw name personality w old Hold.
    destruct (enhanced_register_replaces now sx sy sw name personality w)
      as (H1 & H2 & H3).
    cbv zeta. split; [exact H1|]. split; [|split; [exact H2|exact H3]].
    unfold Enhanced.register_agent.
    change (Enhanced.agents (Enhanced.chat ?n ?x ?m ?t ?w0)) with (Enhanced.agents w0).
    simpl Enhanced.agents. eapply dkeys_dset_present; exact Hold.
  - intros now sx sy sw name personality w old Hold.
    destruct (full_register_replaces now sx sy sw name personality w)
      as (H1 & H2 & H3).
    cbv zeta. split; [exact H1|]. split; [|split; [exact H2|exact H3]].
    unfold Full.register_agent.
    change (Full.agents (Full.broadcast ?n ?m ?t ?w0)) with (Full.agents w0).
    simpl Full.agents. eapply dkeys_dset_present; exact Hold.
  - intros. now apply server_register_reuses.
Qed.

Lemma register_taken_name_witness :
  dget "Scout-7"
    (Enhanced.agents
       (Enhanced.register_agent "12:00:09" 8 7 0 "Scout-7" "fighter" scout_searched))
  = Some (Enhanced.Agent.mk "Scout-7" "fighter" 8 7 (100 + 0) [] 0 50 None 1 0).
Proof.
  refine (proj1 (proj1 register_taken_name
                   "12:00:09"%string 8 7 0 "Scout-7"%string "fighter"%string
                   scout_searched scout_with_potion _)).
  vm_compute. reflexivity.
Defined.

(** C8 as stated fails: Scout-7, registered and holding a potion
    with 5 xp, is registered again; the entry is not the one that was
    there, the potion and the xp are gone. *)
Lemma register_again_resets_agent :
  dget "Scout-7" (Enhanced.agents scout_searched) = Some scout_with_potion /\
  dget "Scout-7"
    (Enhanced.agents
       (Enhanced.register_agent "12:00:09" 5 5 25 "Scout-7" "gatherer" scout_searched))
  <> dget "Scout-7" (Enhanced.agents scout_searched) /\
  option_map Enhanced.Agent.inventory
    (dget "Scout-7"
       (Enhanced.agents
          (Enhanced.register_agent "12:00:09" 5 5 25 "Scout-7" "gatherer"
             scout_searched)))
  = Some [].
Proof.
  split; [reflexivity|]. split; [|reflexivity].
  vm_compute. discriminate.
Qed.

End Registration.

(** ** multi_agent_test.py: the interaction check *)

Module OrchestratorFacts.
Import Orchestrator.

Lemma meet_log now a1 o a2 :
  meet now a1 o a2 =
  mkState (agents o) (tick o) (seen o) (log o ++ meeting now (tick o) a1 a2) (running o).
Proof.
  unfold meet, meeting, colocated, log_event.
  destruct (_ =? 0); simpl; [reflexivity|].
  rewrite app_nil_r. now destruct o.
Qed.

Lemma inner_loop_log now a1 rest o :
  fold_left (meet now a1) rest o =
  mkState (agents o) (tick o) (seen o)
    (log o ++ flat_map (meeting now (tick o) a1) rest) (running o).
Proof.
  revert o. induction rest as [|a2 rest IH]; intros o; simpl.
  - rewrite app_nil_r. now destruct o.
  - rewrite IH, meet_log. simpl. now rewrite <- app_assoc.
Qed.

Lemma interactions_log now l o :
  interactions now l o =
  mkState (agents o) (tick o) (seen o) (log o ++ meetings now (tick o) l) (running o).
Proof.
  revert o. induction l as [|a1 rest IH]; intros o; simpl.
  - rewrite app_nil_r. now destruct o.
  - rewrite IH, inner_loop_log. simpl. now rewrite <- app_assoc.
Qed.

Lemma met_count_app n1 n2 l1 l2 :
  met_count n1 n2 (l1 ++ l2) = (met_count n1 n2 l1 + met_count n1 n2 l2)%nat.
Proof. unfold met_count. now rewrite List.filter_app, length_app. Qed.

(** The entries of one agent against the agents after it. *)
Lemma met_count_first now t a rest n1 n2 :
  Agent.name a = n1 -> n1 <> n2 ->
  met_count n1 n2 (flat_map (meeting now t a) rest) =
  length (List.filter (fun b => colocated a b && String.eqb (Agent.name b) n2) rest).
Proof.
  intros Ha Hne. induction rest as [|b rest IH]; [reflexivity|].
  simpl flat_map. rewrite met_count_app, IH. simpl List.filter.
  unfold meeting. destruct (colocated a b); simpl; [|reflexivity].
  unfold met_count; simpl. unfold is_met; simpl.
  rewrite Ha, String.eqb_refl. simpl.
  apply String.eqb_neq in Hne. rewrite Hne. simpl. rewrite orb_false_r.
  destruct (String.eqb (Agent.name b) n2); reflexivity.
Qed.

Lemma is_met_sym n1 n2 en : is_met n1 n2 en = is_met n2 n1 en.
Proof.
  unfold is_met. destruct (Entry.kwargs en); try reflexivity.
  f_equal. f_equal. apply orb_comm.
Qed.

Lemma met_count_sym n1 n2 l : met_count n1 n2 l = met_count n2 n1 l.
Proof.
  unfold met_count. f_equal. apply List.filter_ext. intros en. apply is_met_sym.
Qed.

Lemma met_count_stranger now t a rest n1 n2 :
  Agent.name a <> n1 -> Agent.name a <> n2 ->
  met_count n1 n2 (flat_map (meeting now t a) rest) = 0%nat.
Proof.
  intros H1 H2. induction rest as [|b rest IH]; [reflexivity|].
  simpl flat_map. rewrite met_count_app, IH.
  unfold meeting. destruct (colocated a b); simpl; [|reflexivity].
  unfold met_count; simpl. unfold is_met; simpl.
  apply String.eqb_neq in H1, H2. rewrite H1, H2. reflexivity.
Qed.

(** Names are distinct: one agent of the list bears a given name. *)
Lemma one_of_that_name a rest b :
  List.NoDup (map Agent.name rest) -> In b rest -> colocated a b = true ->
  length (List.filter (fun c => colocated a c && String.eqb (Agent.name c) (Agent.name b))
            rest) = 1%nat.
Proof.
  intros Hnd Hin Hco. induction rest as [|c rest IH]; [destruct Hin|].
  simpl map in Hnd. apply NoDup_cons_iff in Hnd as [Hc Hnd]. simpl List.filter.
  destruct Hin as [->|Hin].
  - rewrite Hco, String.eqb_refl. simpl. f_equal.
    apply length_zero_iff_nil.
    destruct (List.filter _ rest) as [|d l] eqn:E; [reflexivity|].
    exfalso. assert (Hd : In d (List.filter
      (fun c => colocated a c && String.eqb (Agent.name c) (Agent.name b)) rest))
      by (rewrite E; now left).
    apply List.filter_In in Hd as [Hd1 Hd2]. apply andb_prop in Hd2 as [_ Hd2].
    apply String.eqb_eq in Hd2. apply Hc. rewrite <- Hd2. now apply in_map.
  - replace (String.eqb (Agent.name c) (Agent.name b)) with false.
    + rewrite andb_false_r. now apply IH.
    + symmetry. apply String.eqb_neq. intros E. apply Hc. rewrite E.
      now apply in_map.
Qed.

Lemma none_of_that_name a rest n :
  ~ In n (map Agent.name rest) ->
  length (List.filter (fun c => colocated a c && String.eqb (Agent.name c) n) rest) = 0%nat.
Proof.
  intros Hn. induction rest as [|c rest IH]; [reflexivity|].
  simpl in Hn. simpl List.filter.
  replace (String.eqb (Agent.name c) n) with false
    by (symmetry; apply String.eqb_neq; tauto).
  rewrite andb_false_r. apply IH. tauto.
Qed.

(** A name that no agent of the list bears occurs in none of its
    meetings. *)
Lemma met_count_absent now t l n m :
  ~ In n (map Agent.name l) -> met_count n m (meetings now t l) = 0%nat.
Proof.
  induction l as [|a rest IH]; intros Hn; [reflexivity|].
  simpl in Hn. simpl meetings. rewrite met_count_app, IH by tauto.
  rewrite Nat.add_0_r.
  destruct (String.eqb_spec (Agent.name a) m) as [Hm|Hm].
  - rewrite met_count_sym.
    rewrite (met_count_first now t a rest m n);
      [|exact Hm|intros E; apply Hn; left; congruence].
    apply none_of_that_name. tauto.
  - apply met_count_stranger; tauto.
Qed.

Lemma colocated_sym a b : colocated a b = colocated b a.
Proof. unfold colocated. f_equal. lia. Qed.

(** Among agents of distinct names, a pair on one tile meets once in
    a run of the check. *)
Lemma met_once now t l a1 a2 :
  List.NoDup (map Agent.name l) -> In a1 l -> In a2 l ->
  Agent.name a1 <> Agent.name a2 -> colocated a1 a2 = true ->
  met_count (Agent.name a1) (Agent.name a2) (meetings now t l) = 1%nat.
Proof.
  intros Hnd. revert a1 a2.
  induction l as [|a rest IH]; intros a1 a2 H1 H2 Hne Hco; [destruct H1|].
  simpl map in Hnd. pose proof Hnd as Hnd0.
  apply NoDup_cons_iff in Hnd as [Ha Hnd].
  simpl meetings. rewrite met_count_app.
  destruct H1 as [<-|H1]; destruct H2 as [<-|H2].
  - congruence.
  - rewrite (met_count_first now t a rest) by auto.
    rewrite one_of_that_name by assumption.
    rewrite met_count_absent by exact Ha. reflexivity.
  - rewrite (met_count_sym _ _ (flat_map _ _)), (met_count_sym _ _ (meetings _ _ _)).
    rewrite (met_count_first now t a rest) by auto.
    rewrite one_of_that_name by (try assumption; now rewrite colocated_sym).
    rewrite met_count_absent by exact Ha. reflexivity.
  - rewrite met_count_stranger, IH by
      (try assumption; intros E; apply Ha; rewrite E; now apply in_map).
    reflexivity.
Qed.

Lemma names_are_keys (d : dict Agent.t) :
  List.NoDup (dkeys d) -> (forall k a, dget k d = Some a -> Agent.name a = k) ->
  map Agent.name (dvalues d) = dkeys d.
Proof.
  unfold dkeys, dvalues. induction d as [|[k a] d IH]; intros Hnd Hn; simpl.
  - reflexivity.
  - simpl in Hnd. apply NoDup_cons_iff in Hnd as [Hk Hnd].
    f_equal.
    + apply Hn. simpl. now rewrite String.eqb_refl.
    + apply IH; [exact Hnd|].
      intros k' a' H'. apply Hn. simpl.
      destruct (String.eqb_spec k' k) as [->|]; [|exact H'].
      exfalso. apply Hk. apply dget_In in H'.
      change k with (fst (k, a')). now apply in_map.
Qed.

Lemma names_distinct (d : dict Agent.t) :
  List.NoDup (dkeys d) -> (forall k a, dget k d = Some a -> Agent.name a = k) ->
  List.NoDup (map Agent.name (dvalues d)).
Proof. intros Hnd Hn. now rewrite names_are_keys. Qed.

Lemma dget_value k a (d : dict Agent.t) : dget k d = Some a -> In a (dvalues d).
Proof.
  intros H. apply dget_In in H. unfold dvalues.
  change a with (snd (k, a)). now apply in_map.
Qed.

(** The registry is well formed from the start on. *)
Lemma well_formed_init : well_formed init.
Proof. split; [constructor|intros k a; discriminate]. Qed.

Lemma well_formed_register_agent now name personality o :
  well_formed o -> well_formed (register_agent now name personality o).
Proof.
  intros [Hnd Hn]. unfold register_agent, log_event, well_formed; simpl. split.
  - now apply NoDup_dkeys_dset.
  - intros k a. rewrite dget_dset.
    destruct (String.eqb_spec k name) as [->|]; [|apply Hn].
    now intros [= <-].
Qed.

Lemma well_formed_execute_action now who action o :
  well_formed o -> well_formed (execute_action now who action o).
Proof.
  intros [Hnd Hn]. unfold execute_action.
  destruct (dget who (agents o)) as [agent|] eqn:E; [|now split].
  destruct (Py.startswith action "move").
  - unfold log_event, well_formed; simpl. split.
    + now apply NoDup_dkeys_dset.
    + intros k a. rewrite dget_dset.
      destruct (String.eqb_spec k who) as [->|]; [|apply Hn].
      intros [= <-]. simpl. rewrite <- (Hn _ _ E).
      unfold step_dir. repeat destruct (String.eqb _ _); reflexivity.
  - destruct (Py.startswith action "say"); [now split|].
    destruct (String.eqb action "observe"); now split.
Qed.

Lemma pair_meets_once now o n1 n2 a1 a2 :
  well_formed o ->
  dget n1 (agents o) = Some a1 ->
  dget n2 (agents o) = Some a2 ->
  n1 <> n2 ->
  Agent.x a1 = Agent.x a2 -> Agent.y a1 = Agent.y a2 ->
  met_count n1 n2 (meetings now (tick o) (dvalues (agents o))) = 1%nat.
Proof.
  intros [Hnd Hnames] H1 H2 Hne Hx Hy.
  rewrite <- (Hnames _ _ H1), <- (Hnames _ _ H2).
  apply met_once.
  - now apply names_distinct.
  - eapply dget_value; eassumption.
  - eapply dget_value; eassumption.
  - rewrite (Hnames _ _ H1), (Hnames _ _ H2). exact Hne.
  - unfold colocated. apply Z.eqb_eq. lia.
Qed.

(** C9. In an orchestrator whose registry is as registration leaves
    it, two agents registered under different names and standing on
    identical coordinates get, from each run of the interaction check,
    exactly one MET (AGENT_INTERACTED) entry for their pair, appended
    to the log; the check changes nothing but the log, so the count is
    the same at every tick on which they are still on one tile. *)
Theorem one_met_event_per_check
    (now : string) (o : State) (n1 n2 : string) (a1 a2 : Agent.t) :
  well_formed o ->
  dget n1 (agents o) = Some a1 ->
  dget n2 (agents o) = Some a2 ->
  n1 <> n2 ->
  Agent.x a1 = Agent.x a2 -> Agent.y a1 = Agent.y a2 ->
  exists added,
    log (check_interactions now o) = log o ++ added /\
    met_count n1 n2 added = 1%nat /\
    agents (check_interactions now o) = agents o /\
    tick (check_interactions now o) = tick o.
Proof.
  intros Hwf H1 H2 Hne Hx Hy.
  exists (meetings now (tick o) (dvalues (agents o))).
  unfold check_interactions. rewrite interactions_log. simpl.
  split; [reflexivity|]. split; [|split; reflexivity].
  eapply pair_meets_once; eassumption.
Qed.

(** The turns of a tick log moves, speech and thoughts, never a
    meeting ... *)
Lemma turn_logs_no_meeting now decide o k n1 n2 :
  exists added,
    log (turn now decide o k) = log o ++ added /\
    met_count n1 n2 added = 0%nat.
Proof.
  unfold turn, execute_action.
  destruct (dget k (agents o)) as [agent|]; [|exists []; now rewrite app_nil_r].
  destruct (Py.startswith _ "move"); [eexists; split; [reflexivity|reflexivity]|].
  destruct (Py.startswith _ "say"); [eexists; split; [reflexivity|reflexivity]|].
  destruct (String.eqb _ "observe"); [eexists; split; [reflexivity|reflexivity]|].
  exists []. now rewrite app_nil_r.
Qed.

Lemma turns_log_no_meeting now decide keys n1 n2 : forall o,
  exists added,
    log (fold_left (turn now decide) keys o) = log o ++ added /\
    met_count n1 n2 added = 0%nat.
Proof.
  induction keys as [|k keys IH]; intros o; simpl.
  - exists []. now rewrite app_nil_r.
  - destruct (IH (turn now decide o k)) as (l2 & E2 & C2).
    destruct (turn_logs_no_meeting now decide o k n1 n2) as (l1 & E1 & C1).
    exists (l1 ++ l2). rewrite E2, E1, <- app_assoc. split; [reflexivity|].
    rewrite met_count_app. lia.
Qed.

Lemma well_formed_turns now decide keys : forall o,
  well_formed o -> well_formed (fold_left (turn now decide) keys o).
Proof.
  induction keys as [|k keys IH]; intros o H; simpl; [exact H|].
  apply IH. unfold turn. destruct (dget k (agents o)); [|exact H].
  now apply well_formed_execute_action.
Qed.

Lemma well_formed_act_all now decide o :
  well_formed o -> well_formed (act_all now decide o).
Proof. intros H. unfold act_all. apply well_formed_turns. exact H. Qed.

(** ... so that a whole tick, for two agents that its turns leave on
    one tile, logs exactly one. *)
Lemma simulate_world_meets_once now decide o n1 n2 a1 a2 :
  well_formed o ->
  dget n1 (agents (act_all now decide o)) = Some a1 ->
  dget n2 (agents (act_all now decide o)) = Some a2 ->
  n1 <> n2 ->
  Agent.x a1 = Agent.x a2 -> Agent.y a1 = Agent.y a2 ->
  exists added,
    log (simulate_world now decide o) = log o ++ added /\
    met_count n1 n2 added = 1%nat.
Proof.
  intros Hwf H1 H2 Hne Hx Hy.
  pose proof (well_formed_act_all now decide o Hwf) as Hwf'.
  pose proof (pair_meets_once now _ n1 n2 a1 a2 Hwf' H1 H2 Hne Hx Hy) as Hone.
  unfold simulate_world, check_interactions. rewrite interactions_log. simpl.
  unfold act_all in *.
  match goal with
  | |- context [fold_left (turn now decide) ?keys ?o0] =>
      destruct (turns_log_no_meeting now decide keys n1 n2 o0) as (l1 & E1 & C1)
  end.
  rewrite E1. simpl. eexists. rewrite <- app_assoc. split; [reflexivity|].
  rewrite met_count_app, C1. exact Hone.
Qed.

Lemma one_met_event_per_check_witness :
  exists added,
    log (check_interactions "12:00:02" Scenario.two_at_origin)
      = log Scenario.two_at_origin ++ added /\
    met_count "Koolie" "Scout-7" added = 1%nat /\
    agents (check_interactions "12:00:02" Scenario.two_at_origin)
      = agents Scenario.two_at_origin /\
    tick (check_interactions "12:00:02" Scenario.two_at_origin)
      = tick Scenario.two_at_origin.
Proof.
  refine (one_met_event_per_check "12:00:02"%string Scenario.two_at_origin
            "Koolie"%string "Scout-7"%string
            (Agent.make "Koolie" "explorer") (Agent.make "Scout-7" "gatherer")
            _ _ _ _ _ _).
  - apply well_formed_register_agent, well_formed_register_agent, well_formed_init.
  - reflexivity.
  - reflexivity.
  - discriminate.
  - reflexivity.
  - reflexivity.
Defined.

End OrchestratorFacts.

(** ** aether_final.py: the anti-oscillation heuristic *)

Module FinalFacts.
Import Final.

(** [smart_move] never raises [stuck_count]: it resets it or leaves
    it alone. *)
Lemma stuck_count_never_grows e a a' d :
  smart_move e a = Some (a', d) ->
  stuck_count a' = 0 \/ stuck_count a' = stuck_count a.
Proof.
  unfold smart_move.
  destruct (truthy (last_direction a) && (3 <? stuck_count a)).
  - intros [= <- _]. now left.
  - destruct (if truthy (last_direction a) then _ else _); [|discriminate].
    intros [= <- _]. now right.
Qed.

(** From a count of at most 3, and so from a new agent, the
    perpendicular branch is never entered. *)
Lemma stuck_count_stays_low es : forall a a' ds,
  stuck_count a <= 3 -> moves es a = Some (a', ds) -> stuck_count a' <= 3.
Proof.
  induction es as [|e es IH]; intros a a' ds Hlow; simpl.
  - now intros [= <- _].
  - destruct (smart_move e a) as [[a1 d]|] eqn:E; [|discriminate].
    destruct (moves es a1) as [[a2 ds']|] eqn:E'; [|discriminate].
    intros [= <- _]. eapply IH; [|exact E'].
    destruct (stuck_count_never_grows _ _ _ _ E) as [H|H]; lia.
Qed.

Lemma weighted_branch_taken e a :
  stuck_count a <= 3 ->
  smart_move e a =
  match (if truthy (last_direction a)
         then option_map (fun idx => assign idx 5 [25; 25; 25; 25])
                (index (default EmptyString (last_direction a)) directions)
         else Some [25; 25; 25; 25]) with
  | Some ws =>
      Some (mkSmartAgent (name a) (role a) (actions a) (position_history a)
              (Some (choices (u e) directions ws)) (stuck_count a),
            choices (u e) directions ws)
  | None => None
  end.
Proof.
  intros H. unfold smart_move.
  replace (3 <? stuck_count a) with false by (symmetry; apply Z.ltb_ge; lia).
  rewrite andb_false_r. reflexivity.
Qed.

(** C10 (the code departs from it). A new agent whose draws land in
    the first weight band moves up three times in a row; its
    [stuck_count] is still 0, and the next call of [smart_move]
    returns up again, which is not perpendicular to up. *)
Theorem smart_move_repeats_after_three :
  exists a a',
    moves [Scenario.low_draw; Scenario.low_draw; Scenario.low_draw]
      (new "Koolie" "Explorer") = Some (a, ["up"; "up"; "up"]%string) /\
    last_direction a = Some "up"%string /\
    stuck_count a = 0 /\
    smart_move Scenario.low_draw a = Some (a', "up"%string) /\
    is_perpendicular "up" "up" = false.
Proof.
  eexists. eexists. split; [vm_compute; reflexivity|].
  split; [reflexivity|]. split; [reflexivity|].
  split; [vm_compute; reflexivity|reflexivity].
Qed.

End FinalFacts.

(** * Further properties *)

(** ** aether_enhanced.py: gold is moved, not made *)

Module EnhancedEconomy.
Import Enhanced EnhancedWorld EnhancedActions.

Lemma sum_dset k (v a : Agent.t) (d : dict Agent.t) :
  dget k d = Some a ->
  PyList.sum (map Agent.wallet (dvalues (dset k v d))) =
  PyList.sum (map Agent.wallet (dvalues d)) - Agent.wallet a + Agent.wallet v.
Proof.
  unfold dvalues. induction d as [|[k0 v0] d IH]; simpl; [discriminate|].
  destruct (String.eqb k k0); simpl.
  - intros [= ->]. lia.
  - intros H. rewrite IH by exact H. lia.
Qed.

(** An update that adds [c] to the wallet of a registered agent adds
    [c] to the total. *)
Lemma total_gold_upd k f c w :
  dget k (agents w) <> None ->
  (forall a, Agent.wallet (f a) = Agent.wallet a + c) ->
  total_gold (upd k f w) = total_gold w + c.
Proof.
  intros Ha Hf. unfold total_gold, upd, dupd; simpl.
  destruct (dget k (agents w)) as [a|] eqn:E; [|congruence].
  rewrite (sum_dset k (f a) a) by exact E. rewrite Hf. lia.
Qed.

Lemma upd_keeps_present k k' f w :
  dget k' (agents w) <> None -> dget k' (agents (upd k f w)) <> None.
Proof.
  intros H. rewrite dget_upd. destruct (String.eqb_spec k' k) as [->|]; [|exact H].
  destruct (dget k (agents w)); [discriminate|congruence].
Qed.

Lemma total_gold_chat now who msg ty w :
  total_gold (chat now who msg ty w) = total_gold w.
Proof. reflexivity. Qed.

Lemma challenge_dispatch e who action w :
  Py.startswith action "challenge" = true ->
  execute_action e who action w = do_challenge e who action w.
Proof.
  intros H. unfold execute_action. rewrite H.
  destruct action as [|c rest]; [cbv in H; discriminate|].
  apply startswith_cons in H. destruct H as [-> _].
  rewrite !startswith_head by discriminate. reflexivity.
Qed.

Ltac present :=
  repeat apply upd_keeps_present;
  match goal with H : dget _ _ = Some _ |- _ <> None => rewrite H; discriminate end.

Lemma offer_trade_conserves e who action w :
  total_gold (do_offer_trade e who action w) = total_gold w.
Proof.
  unfold do_offer_trade, with_agent.
  destruct (dget who (agents w)) as [agent|] eqn:Ha; [|reflexivity].
  destruct (target_of action) as [tn|]; [|reflexivity].
  destruct (dget tn (agents w)) as [target|] eqn:Ht; [|reflexivity].
  destruct (Agent.inventory agent) as [|item rest]; [reflexivity|].
  destruct (30 <=? Agent.wallet target); [|reflexivity]. cbv zeta.
  set (price := market_prices w (Item.type item) + trade_delta e).
  destruct (price <=? Agent.wallet target); [|reflexivity].
  unfold settle_trade. rewrite total_gold_chat.
  rewrite (total_gold_upd tn _ 0) by (first [present | intros; simpl; lia]).
  rewrite (total_gold_upd who _ 0) by (first [present | intros; simpl; lia]).
  rewrite (total_gold_upd who _ price) by (first [present | intros; simpl; lia]).
  rewrite (total_gold_upd tn _ (- price)) by (first [present | intros; simpl; lia]).
  lia.
Qed.

Lemma challenge_conserves e who action w :
  total_gold (do_challenge e who action w) = total_gold w.
Proof.
  unfold do_challenge, with_agent.
  destruct (dget who (agents w)) as [agent|] eqn:Ha; [|reflexivity].
  destruct (target_of action) as [tn|]; [|reflexivity].
  destruct (dget tn (agents w)) as [target|] eqn:Ht; [|reflexivity]. cbv zeta.
  destruct (_ <? _); rewrite total_gold_chat.
  - set (c := Z.min (Agent.wallet target / 10) 50).
    rewrite (total_gold_upd who _ c) by (first [present | intros; simpl; lia]).
    rewrite (total_gold_upd tn _ (- c)) by (first [present | intros; simpl; lia]).
    lia.
  - set (c := Z.min (Agent.wallet agent / 10) 30).
    rewrite (total_gold_upd tn _ c) by (first [present | intros; simpl; lia]).
    rewrite (total_gold_upd who _ (- c)) by (first [present | intros; simpl; lia]).
    lia.
Qed.

(** X1. A trade offer or a challenge, whoever makes it to whomever
    (oneself included) and whatever its outcome, leaves the sum of
    all wallets as it was. *)
Theorem trades_and_battles_conserve_gold
    (e : Env) (who action : string) (w : World) :
  Py.startswith action "offer_trade" = true \/
  Py.startswith action "challenge" = true ->
  total_gold (execute_action e who action w) = total_gold w.
Proof.
  intros [H|H].
  - rewrite EnhancedTrade.offer_trade_dispatch by exact H.
    apply offer_trade_conserves.
  - rewrite challenge_dispatch by exact H. apply challenge_conserves.
Qed.

Lemma trades_and_battles_conserve_gold_witness :
  total_gold
    (execute_action Scenario.env "Koolie" "challenge Scout-7" Scenario.scout_searched)
  = total_gold Scenario.scout_searched.
Proof.
  refine (trades_and_battles_conserve_gold
            Scenario.env "Koolie"%string "challenge Scout-7"%string
            Scenario.scout_searched _).
  right. reflexivity.
Defined.

End EnhancedEconomy.

(** ** aether_enhanced.py: what a world tick does to the agents *)

Module EnhancedTicks.
Import Enhanced EnhancedWorld EnhancedActions.

Lemma same_places_refl w : same_places w w.
Proof. intros k. reflexivity. Qed.

Lemma same_places_trans w1 w2 w3 :
  same_places w1 w2 -> same_places w2 w3 -> same_places w1 w3.
Proof. intros H1 H2 k. now rewrite H2, H1. Qed.

Lemma same_places_upd k f w :
  (forall a, placement (f a) = placement a) -> same_places w (upd k f w).
Proof.
  intros Hf k'. rewrite dget_upd.
  destruct (String.eqb_spec k' k) as [->|]; [|reflexivity].
  destruct (dget k (agents w)); simpl; [now rewrite Hf|reflexivity].
Qed.

Lemma same_places_frame w w' : agents w' = agents w -> same_places w w'.
Proof. intros H k. now rewrite H. Qed.

Ltac places :=
  lazymatch goal with
  | |- same_places ?w ?w => apply same_places_refl
  | |- same_places ?w (chat _ _ _ _ ?w1) =>
      apply (same_places_trans w w1); [places|apply same_places_frame; reflexivity]
  | |- same_places ?w (set_territories _ ?w1) =>
      apply (same_places_trans w w1); [places|apply same_places_frame; reflexivity]
  | |- same_places ?w (upd ?k ?f ?w1) =>
      apply (same_places_trans w w1);
      [places|apply same_places_upd; intros; reflexivity]
  end.

(** Every branch but the move branch leaves personalities and
    positions alone. *)
Lemma other_actions_keep_places e who action w :
  Py.startswith action "move" = false ->
  same_places w (execute_action e who action w).
Proof.
  intros Hm. unfold execute_action. rewrite Hm.
  destruct (Py.startswith action "say").
  { unfold do_say, with_agent. destruct (dget who (agents w)); places. }
  destruct (String.eqb action "search").
  { unfold do_search, with_agent. destruct (dget who (agents w)); places. }
  destruct (String.eqb action "buy_land").
  { unfold do_buy_land, with_agent. destruct (dget who (agents w)) as [a|]; [|places].
    destruct (150 <=? Agent.wallet a); places. }
  destruct (Py.startswith action "offer_trade").
  { unfold do_offer_trade, with_agent. destruct (dget who (agents w)) as [a|]; [|places].
    destruct (target_of action) as [tn|]; [|places].
    destruct (dget tn (agents w)) as [target|]; [|places].
    destruct (Agent.inventory a) as [|item rest]; [places|].
    destruct (30 <=? Agent.wallet target); [|places]. cbv zeta.
    destruct (_ <=? Agent.wallet target); [|places].
    unfold settle_trade. places. }
  destruct (Py.startswith action "challenge"); [|places].
  unfold do_challenge, with_agent. destruct (dget who (agents w)) as [a|]; [|places].
  destruct (target_of action) as [tn|]; [|places].
  destruct (dget tn (agents w)) as [target|]; [|places]. cbv zeta.
  destruct (_ <? _); places.
Qed.

Lemma bare_direction_no_move d : In d directions -> Py.startswith d "move" = false.
Proof. intros [<-|[<-|[<-|[<-|[]]]]]; reflexivity. Qed.

Lemma appended_no_move c pre rest :
  c <> "m"%char -> Py.startswith (String.append (String c pre) rest) "move" = false.
Proof. intros H. simpl. now apply startswith_head. Qed.

(** A settled agent never decides to move: it returns a bare
    direction, or one of the other actions. *)
Lemma settled_think_no_move e a w :
  settled a -> Py.startswith (think e a w) "move" = false.
Proof.
  intros (Hp & Hy & Hx). unfold think.
  pose proof (bare_direction_no_move _ (random_direction_bare e)) as Hr.
  pose proof (fun dx dy => bare_direction_no_move _ (toward_bare dx dy)) as Ht.
  destruct Hp as [<-|[<-|[<-|[<-|[<-|[]]]]]]; simpl.
  - replace (10 <? Agent.y a) with false by (symmetry; apply Z.ltb_ge; lia).
    replace (Agent.y a <? 2) with false by (symmetry; apply Z.ltb_ge; lia).
    replace (15 <? Agent.x a) with false by (symmetry; apply Z.ltb_ge; lia).
    exact Hr.
  - destruct (Qle_bool _ _); [|reflexivity].
    destruct (150 <=? Agent.wallet a); [reflexivity|exact Hr].
  - destruct (get_nearest_agent a w) as [n|]; [|exact Hr].
    destruct (adjacent _ _); [|apply Ht].
    destruct (Qle_bool _ _); apply appended_no_move; discriminate.
  - destruct (get_richest_agent (Agent.name a) w) as [n|]; [|exact Hr].
    destruct (_ && _); [apply appended_no_move; discriminate|apply Ht].
  - destruct (List.filter _ _) as [|first rest]; [exact Hr|].
    destruct (adjacent _ _); [apply appended_no_move; discriminate|apply Ht].
Qed.

Lemma settled_of_placement a a' :
  placement a' = placement a -> settled a -> settled a'.
Proof.
  unfold placement, settled. intros [= Hp Hx Hy]. now rewrite Hp, Hx, Hy.
Qed.

Lemma turns_keep_places te l w0 : forall w,
  (forall k a, dget k (agents w0) = Some a -> settled a) ->
  same_places w0 w ->
  same_places w0 (fold_left (agent_turn te) l w).
Proof.
  induction l as [|[i k] l IH]; intros w Hs Hw; simpl; [exact Hw|].
  apply IH; [exact Hs|]. unfold with_agent.
  destruct (dget k (agents w)) as [a|] eqn:Ea; [|exact Hw].
  eapply same_places_trans; [exact Hw|].
  apply other_actions_keep_places, settled_think_no_move.
  specialize (Hw k). rewrite Ea in Hw.
  destruct (dget k (agents w0)) as [a0|] eqn:E0; [|discriminate].
  simpl in Hw. assert (Hpl : placement a = placement a0) by congruence.
  eapply settled_of_placement; [exact Hpl|]. eapply Hs; exact E0.
Qed.

(** X2. When every agent has one of the five personalities and stands
    in rows 2 to 10 and left of column 16 (where every spawn puts it),
    a world tick moves nobody: whatever the draws, after the tick each
    agent has the position and personality it had.  What [think]
    returns for such an agent is a bare direction or a non-move
    action, and [execute_action] moves an agent only for an action
    that begins with move. *)
Theorem tick_world_moves_nobody (te : TickEnv) (w : World) :
  (forall k a, dget k (agents w) = Some a -> settled a) ->
  forall k, option_map placement (dget k (agents (tick_world te w)))
            = option_map placement (dget k (agents w)).
Proof.
  intros Hs. change (same_places w (tick_world te w)).
  unfold tick_world, fluctuate, world_event.
  set (l := combine _ _). clearbody l.
  assert (H1 : same_places w (fold_left (agent_turn te) l (set_tick (tick w + 1) w))).
  { apply turns_keep_places; [exact Hs|]. apply same_places_frame. reflexivity. }
  set (w1 := fold_left _ _ _) in *. clearbody w1.
  destruct (_ =? 0); destruct (Qle_bool _ _);
    (eapply same_places_trans; [exact H1|]; apply same_places_frame; reflexivity).
Qed.

Lemma tick_world_moves_nobody_witness :
  option_map placement
    (dget "Koolie" (agents (tick_world Cases.calm_tick Scenario.two_agents)))
  = option_map placement (dget "Koolie" (agents Scenario.two_agents)).
Proof.
  refine (tick_world_moves_nobody Cases.calm_tick Scenario.two_agents _
            "Koolie"%string).
  intros k a H. cbn in H.
  destruct (String.eqb k "Koolie"); [injection H as <-|].
  - unfold settled, personalities; simpl. intuition lia.
  - destruct (String.eqb k "Scout-7"); [injection H as <-|discriminate].
    unfold settled, personalities; simpl. intuition lia.
Defined.

End EnhancedTicks.

(** ** aether_enhanced.py: the tick counter and the territory tax *)

Module EnhancedCounters.
Import Enhanced EnhancedWorld EnhancedActions.

Lemma tick_execute_action e who action w :
  tick (execute_action e who action w) = tick w.
Proof.
  apply (EnhancedFrame.P_execute_action (fun w' => tick w' = tick w)); auto.
Qed.

Lemma tick_register_agent now sx sy sw name personality w :
  tick (register_agent now sx sy sw name personality w) = tick w.
Proof. reflexivity. Qed.

Lemma tick_tick_world te w : tick (tick_world te w) = tick w + 1.
Proof.
  unfold tick_world, fluctuate, world_event.
  set (l := combine _ _). clearbody l.
  assert (H : forall w0, tick (fold_left (agent_turn te) l w0) = tick w0).
  { induction l as [|[i k] l IH]; intros w0; simpl; [reflexivity|].
    rewrite IH. unfold with_agent. destruct (dget k (agents w0)); [|reflexivity].
    apply tick_execute_action. }
  set (w1 := fold_left _ _ _) in *.
  assert (H1 : tick w1 = tick w + 1) by (subst w1; rewrite H; reflexivity).
  clearbody w1.
  destruct (Qle_bool _ _); simpl; destruct (_ =? 0); simpl; exact H1.
Qed.

(** X3. The tick counter is moved by [tick_world] alone, and by one:
    after any sequence of registrations, actions and world ticks it
    has grown by the number of world ticks in the sequence. *)
Theorem tick_counts_world_ticks (ops : list Op) (w : World) :
  tick (run ops w) = tick w + ticks_in ops.
Proof.
  unfold run, ticks_in. revert w.
  induction ops as [|op ops IH]; intros w; [simpl; lia|].
  simpl fold_left. rewrite IH.
  destruct op; unfold apply_op; cbn [List.filter length];
    rewrite ?tick_register_agent, ?tick_execute_action, ?tick_tick_world; lia.
Qed.

Lemma total_gold_tax_step now who terr w :
  dget (Territory.owner terr) (agents w) <> None ->
  EnhancedWorld.total_gold (tax_step now who terr w) = total_gold w.
Proof.
  intros Ho. unfold tax_step, with_agent.
  destruct (dget who (agents w)) as [agent|] eqn:Ha; [|reflexivity].
  destruct (_ && _); [|reflexivity]. destruct (negb _); [|reflexivity].
  set (tax := Py.int_mul _ _).
  rewrite EnhancedEconomy.total_gold_chat.
  set (w1 := upd who (fun a => Agent.set_wallet (Agent.wallet a - tax) a) w).
  assert (H1 : dget (Territory.owner terr) (agents w1) <> None)
    by now apply EnhancedEconomy.upd_keeps_present.
  destruct (dget (Territory.owner terr) (agents w1)) eqn:E1; [|congruence].
  rewrite (EnhancedEconomy.total_gold_upd _ _ tax)
    by (first [rewrite E1; discriminate | intros; simpl; lia]).
  subst w1.
  rewrite (EnhancedEconomy.total_gold_upd _ _ (- tax))
    by (first [rewrite Ha; discriminate | intros; simpl; lia]).
  lia.
Qed.

Lemma tax_step_keeps_present now who terr k w :
  dget k (agents w) <> None -> dget k (agents (tax_step now who terr w)) <> None.
Proof.
  intros H. unfold tax_step, with_agent.
  destruct (dget who (agents w)); [|exact H].
  destruct (_ && _); [|exact H]. destruct (negb _); [|exact H].
  change (agents (chat ?n ?x ?m ?t ?w0)) with (agents w0).
  destruct (dget (Territory.owner terr) _);
    repeat apply EnhancedEconomy.upd_keeps_present; exact H.
Qed.

(** X4. The territory check moves gold and makes none: when the
    owner of every territory is registered, the sum of all wallets
    after [check_territory] is the sum before, however many
    territories tax the agent. *)
Theorem territory_tax_conserves_gold (now who : string) (w : World) :
  (forall terr, In terr (territories w) ->
                dget (Territory.owner terr) (agents w) <> None) ->
  total_gold (check_territory now who w) = total_gold w.
Proof.
  unfold check_territory. generalize (territories w) as l. intros l. revert w.
  induction l as [|t l IH]; intros w H; simpl; [reflexivity|].
  rewrite IH.
  - apply total_gold_tax_step. apply H. now left.
  - intros terr Hin. apply tax_step_keeps_present. apply H. now right.
Qed.

Lemma territory_tax_conserves_gold_witness :
  total_gold
    (check_territory "12:00:00" "Scout-7"
       (arrive Scenario.env "Scout-7" "move up" Scenario.scout_next_door))
  = total_gold (arrive Scenario.env "Scout-7" "move up" Scenario.scout_next_door).
Proof.
  refine (territory_tax_conserves_gold "12:00:00"%string "Scout-7"%string
            (arrive Scenario.env "Scout-7" "move up" Scenario.scout_next_door) _).
  intros terr Hin. vm_compute in Hin. destruct Hin as [<-|[]].
  vm_compute. discriminate.
Defined.

End EnhancedCounters.

(** ** aether_enhanced.py: nearest and richest agent *)

Module EnhancedSearch.
Import Enhanced EnhancedWorld.

Lemma fold_min_first_least {A : Type} (key : A -> Z) (rest : list A) :
  forall (seen : list A) (best : A),
    PyList.first_least key seen best ->
    PyList.first_least key (seen ++ rest)
      (fold_left (fun b c => if key c <? key b then c else b) rest best).
Proof.
  induction rest as [|c rest IH]; intros seen best H; simpl.
  - now rewrite app_nil_r.
  - replace (seen ++ c :: rest) with ((seen ++ [c]) ++ rest)
      by (rewrite <- app_assoc; reflexivity).
    apply IH. destruct H as (pre & post & E & Hpre & Hpost).
    destruct (key c <? key best) eqn:Ec.
    + apply Z.ltb_lt in Ec. exists seen, []. split; [reflexivity|]. split.
      * intros a Ha. rewrite E in Ha. apply in_app_or in Ha.
        destruct Ha as [Ha|[<-|Ha]]; [apply Hpre in Ha|..]; try lia.
        apply Hpost in Ha. lia.
      * intros a [].
    + apply Z.ltb_ge in Ec. exists pre, (post ++ [c]). split.
      * rewrite E, <- app_assoc. reflexivity.
      * split; [exact Hpre|]. intros a Ha. apply in_app_or in Ha.
        destruct Ha as [Ha|[<-|[]]]; [now apply Hpost|exact Ec].
Qed.

Lemma min_by_first_least {A : Type} (key : A -> Z) (l : list A) :
  match Py.min_by key l with
  | None => l = []
  | Some m => PyList.first_least key l m
  end.
Proof.
  destruct l as [|a l]; simpl; [reflexivity|].
  apply (fold_min_first_least key l [a] a).
  exists [], []. split; [reflexivity|]. split; intros x [].
Qed.

Lemma max_by_first_greatest {A : Type} (key : A -> Z) (l : list A) :
  match Py.max_by key l with
  | None => l = []
  | Some m => PyList.first_least (fun a => - key a) l m
  end.
Proof.
  pose proof (min_by_first_least (fun a => - key a) l) as H.
  destruct l as [|a l]; simpl in *; [reflexivity|].
  replace (fold_left (fun best c => if key best <? key c then c else best) l a)
    with (fold_left (fun b c => if - key c <? - key b then c else b) l a);
    [exact H|].
  clear H. revert a. induction l as [|c l IH]; intros b; simpl; [reflexivity|].
  rewrite IH. f_equal.
  destruct (key b <? key c) eqn:E1; destruct (- key c <? - key b) eqn:E2;
    try reflexivity;
    [apply Z.ltb_lt in E1; apply Z.ltb_ge in E2|
     apply Z.ltb_ge in E1; apply Z.ltb_lt in E2]; lia.
Qed.

(** X5. [get_nearest_agent] returns nothing exactly when no agent of
    another name is registered; otherwise it returns, among the agents
    of another name in registry order, the first one at the least
    Manhattan distance: those before it are strictly farther, those
    after it are not nearer. *)
Theorem nearest_agent_first_closest (agent : Agent.t) (w : World) :
  match get_nearest_agent agent w with
  | None => others agent w = []
  | Some n =>
      PyList.first_least (distance agent) (others agent w) n /\
      In n (dvalues (agents w)) /\
      Agent.name n <> Agent.name agent
  end.
Proof.
  unfold get_nearest_agent.
  change (List.filter _ (dvalues (agents w))) with (others agent w).
  pose proof (min_by_first_least (distance agent) (others agent w)) as H.
  change (Py.min_by _ (others agent w))
    with (Py.min_by (distance agent) (others agent w)).
  destruct (Py.min_by (distance agent) (others agent w)) as [n|]; [|exact H].
  split; [exact H|].
  destruct H as (pre & post & E & _).
  assert (Hin : In n (others agent w)) by (rewrite E; apply in_elt).
  apply List.filter_In in Hin as [Hin Hne]. split; [exact Hin|].
  apply negb_true_iff, String.eqb_neq in Hne. exact Hne.
Qed.

(** X6. [get_richest_agent] returns nothing exactly when it has no
    candidate (everybody for an empty [exclude], else the agents of
    another name); otherwise it returns the first candidate, in
    registry order, of the greatest wallet: those before it are
    strictly poorer, those after it are not richer. *)
Theorem richest_agent_first_wealthiest (exclude : string) (w : World) :
  match get_richest_agent exclude w with
  | None => candidates exclude w = []
  | Some m =>
      exists pre post,
        candidates exclude w = pre ++ m :: post /\
        (forall a, In a pre -> Agent.wallet a < Agent.wallet m) /\
        (forall a, In a post -> Agent.wallet a <= Agent.wallet m)
  end.
Proof.
  unfold get_richest_agent.
  change (if String.eqb exclude "" then _ else _) with (candidates exclude w).
  pose proof (max_by_first_greatest Agent.wallet (candidates exclude w)) as H.
  destruct (Py.max_by Agent.wallet (candidates exclude w)) as [m|]; [|exact H].
  destruct H as (pre & post & E & Hpre & Hpost).
  exists pre, post. split; [exact E|].
  split; intros a Ha; [apply Hpre in Ha|apply Hpost in Ha]; lia.
Qed.

End EnhancedSearch.

(** ** multi_agent_test.py: the log, the grid, and who speaks *)

Module OrchestratorLog.
Import Orchestrator OrchestratorRun OrchestratorFacts.

Lemma stamps_ordered_app l1 l2 t :
  stamps_ordered l1 -> stamps_ordered l2 ->
  Forall (fun en => Entry.tick en <= t) l1 ->
  Forall (fun en => t <= Entry.tick en) l2 ->
  stamps_ordered (l1 ++ l2).
Proof.
  intros H1 H2 Hb1 Hb2. induction l1 as [|e l1 IH]; simpl; [exact H2|].
  destruct H1 as [He H1]. inversion Hb1 as [|? ? Het Hb1']; subst.
  split; [|now apply IH].
  intros e' Hin. apply in_app_or in Hin. destruct Hin as [Hin|Hin]; [now apply He|].
  rewrite List.Forall_forall in Hb2. specialize (Hb2 _ Hin). lia.
Qed.

Lemma continues_refl o : continues o o.
Proof.
  split; [lia|]. exists []. rewrite app_nil_r. repeat split; constructor.
Qed.

Lemma continues_trans o1 o2 o3 :
  continues o1 o2 -> continues o2 o3 -> continues o1 o3.
Proof.
  intros [Ht1 (l1 & E1 & S1 & B1)] [Ht2 (l2 & E2 & S2 & B2)].
  split; [lia|]. exists (l1 ++ l2). split; [|split].
  - rewrite E2, E1, app_assoc. reflexivity.
  - apply (stamps_ordered_app l1 l2 (tick o2)); try assumption.
    + eapply List.Forall_impl; [|exact B1]. simpl. intros; lia.
    + eapply List.Forall_impl; [|exact B2]. simpl. intros; lia.
  - apply Forall_app. split; (eapply List.Forall_impl; [|eassumption]); simpl; intros; lia.
Qed.

Lemma continues_log_event now ev kw o : continues o (log_event now ev kw o).
Proof.
  split; [simpl; lia|]. exists [Entry.mk now (tick o) ev kw].
  split; [reflexivity|]. split.
  - simpl. split; [intros e' []|exact I].
  - constructor; [simpl; lia|constructor].
Qed.

Lemma continues_frame o o' :
  tick o' = tick o -> log o' = log o -> continues o o'.
Proof.
  intros Ht Hl. split; [lia|]. exists []. rewrite app_nil_r.
  repeat split; [exact Hl|constructor].
Qed.

Lemma continues_register_agent now name personality o :
  continues o (register_agent now name personality o).
Proof.
  unfold register_agent. eapply continues_trans; [|apply continues_log_event].
  now apply continues_frame.
Qed.

Lemma continues_execute_action now who action o :
  continues o (execute_action now who action o).
Proof.
  unfold execute_action. destruct (dget who (agents o)); [|apply continues_refl].
  destruct (Py.startswith action "move").
  { eapply continues_trans; [|apply continues_log_event]. now apply continues_frame. }
  destruct (Py.startswith action "say"); [apply continues_log_event|].
  destruct (String.eqb action "observe");
    [apply continues_log_event|apply continues_refl].
Qed.

Lemma meetings_stamps now t l :
  Forall (fun en => Entry.tick en = t) (meetings now t l).
Proof.
  induction l as [|a rest IH]; simpl; [constructor|].
  apply Forall_app. split; [|exact IH].
  clear IH. induction rest as [|b rest IH]; simpl; [constructor|].
  apply Forall_app. split; [|exact IH].
  unfold meeting. destruct (colocated a b); repeat constructor.
Qed.

Lemma same_stamp_ordered t l :
  Forall (fun en => Entry.tick en = t) l -> stamps_ordered l.
Proof.
  induction 1 as [|e l He Hl IH]; simpl; [exact I|]. split; [|exact IH].
  intros e' Hin. rewrite List.Forall_forall in Hl. rewrite (Hl _ Hin). lia.
Qed.

Lemma continues_check_interactions now o : continues o (check_interactions now o).
Proof.
  unfold check_interactions. rewrite interactions_log.
  split; [simpl; lia|]. exists (meetings now (tick o) (dvalues (agents o))). simpl.
  pose proof (meetings_stamps now (tick o) (dvalues (agents o))) as H.
  split; [reflexivity|]. split; [now apply (same_stamp_ordered (tick o))|].
  eapply List.Forall_impl; [|exact H]. simpl. intros; lia.
Qed.

Lemma continues_turns now decide keys : forall o,
  continues o (fold_left (turn now decide) keys o).
Proof.
  induction keys as [|k keys IH]; intros o; simpl; [apply continues_refl|].
  eapply continues_trans; [|apply IH].
  unfold turn. destruct (dget k (agents o)); [|apply continues_refl].
  apply continues_execute_action.
Qed.

Lemma continues_simulate_world now decide o :
  continues o (simulate_world now decide o).
Proof.
  unfold simulate_world. eapply continues_trans; [|apply continues_check_interactions].
  unfold act_all. eapply continues_trans; [|apply continues_turns].
  split; [simpl; lia|]. exists []. simpl. rewrite app_nil_r.
  repeat split; constructor.
Qed.

(** X7. The log of the orchestrator is append-only and stamped in
    order: whatever registrations, actions, interaction checks and
    ticks are run, the log afterwards is the log before followed by
    new entries, whose tick stamps never go down and lie between the
    tick counter before and the tick counter after, which itself
    never goes down. *)
Theorem log_is_append_only_and_ordered (ops : list Op) (o : State) :
  tick o <= tick (run ops o) /\
  exists added,
    log (run ops o) = log o ++ added /\
    stamps_ordered added /\
    Forall (fun en => tick o <= Entry.tick en <= tick (run ops o)) added.
Proof.
  change (continues o (run ops o)). unfold run. revert o.
  induction ops as [|op ops IH]; intros o; simpl; [apply continues_refl|].
  eapply continues_trans; [|apply IH].
  destruct op; simpl.
  - apply continues_register_agent.
  - apply continues_execute_action.
  - apply continues_check_interactions.
  - apply continues_simulate_world.
Qed.

Lemma Forall_dvalues_dset (P : Agent.t -> Prop) k v (d : dict Agent.t) :
  P v -> Forall P (dvalues d) -> Forall P (dvalues (dset k v d)).
Proof.
  intros Hv. unfold dvalues. induction d as [|[k0 v0] d IH]; simpl; intros H.
  - constructor; [exact Hv|constructor].
  - inversion H as [|? ? H0 Hd]; subst.
    destruct (String.eqb k k0); simpl; constructor; auto.
Qed.

Lemma on_grid_step_dir direction a : on_grid a -> on_grid (step_dir direction a).
Proof.
  unfold on_grid, step_dir. intros [Hx Hy].
  repeat destruct (String.eqb direction _); simpl; lia.
Qed.

Lemma on_grid_execute_action now who action o :
  Forall on_grid (dvalues (agents o)) ->
  Forall on_grid (dvalues (agents (execute_action now who action o))).
Proof.
  intros H. unfold execute_action.
  destruct (dget who (agents o)) as [agent|] eqn:E; [|exact H].
  destruct (Py.startswith action "move").
  - simpl. apply Forall_dvalues_dset; [|exact H].
    rewrite List.Forall_forall in H.
    pose proof (H _ (dget_value _ _ _ E)) as Ha.
    apply (on_grid_step_dir (List.last (Py.split action) EmptyString)) in Ha.
    exact Ha.
  - destruct (Py.startswith action "say"); [exact H|].
    destruct (String.eqb action "observe"); exact H.
Qed.

Lemma agents_check_interactions now o : agents (check_interactions now o) = agents o.
Proof. unfold check_interactions. now rewrite interactions_log. Qed.

Lemma on_grid_turns now decide keys : forall o,
  Forall on_grid (dvalues (agents o)) ->
  Forall on_grid (dvalues (agents (fold_left (turn now decide) keys o))).
Proof.
  induction keys as [|k keys IH]; intros o H; simpl; [exact H|].
  apply IH. unfold turn. destruct (dget k (agents o)); [|exact H].
  now apply on_grid_execute_action.
Qed.

Lemma on_grid_apply_op op o :
  Forall on_grid (dvalues (agents o)) ->
  Forall on_grid (dvalues (agents (apply_op o op))).
Proof.
  intros H. destruct op; simpl.
  - apply Forall_dvalues_dset; [|exact H]. unfold on_grid; simpl; lia.
  - now apply on_grid_execute_action.
  - now rewrite agents_check_interactions.
  - unfold simulate_world. rewrite agents_check_interactions.
    unfold act_all. now apply on_grid_turns.
Qed.

(** X8. Agents of the orchestrator never leave the 256 x 256 grid:
    if every registered agent has both coordinates in [0, 255], then
    so has every registered agent after any sequence of registrations
    (which place the agent on (0, 0)), actions, interaction checks
    and ticks, whatever the actions and the random draws are. *)
Theorem agents_stay_on_grid (ops : list Op) (o : State) :
  Forall on_grid (dvalues (agents o)) ->
  Forall on_grid (dvalues (agents (run ops o))).
Proof.
  unfold run. revert o. induction ops as [|op ops IH]; intros o H; simpl; [exact H|].
  apply IH. now apply on_grid_apply_op.
Qed.

Lemma agents_stay_on_grid_witness :
  Forall on_grid
    (dvalues (agents (run [OpAct "12:00:03" "Koolie" "move up";
                           OpAct "12:00:04" "Scout-7" "move left";
                           OpTick "12:00:05" (fun _ => 1%nat) s_name]
                        Scenario.two_at_origin))).
Proof.
  refine (agents_stay_on_grid
            [OpAct "12:00:03" "Koolie" "move up";
             OpAct "12:00:04" "Scout-7" "move left";
             OpTick "12:00:05" (fun _ => 1%nat) s_name]
            Scenario.two_at_origin _).
  vm_compute. repeat constructor; discriminate.
Defined.

Lemma execute_action_other now who action o k :
  k <> who -> dget k (agents (execute_action now who action o)) = dget k (agents o).
Proof.
  intros Hne. unfold execute_action.
  destruct (dget who (agents o)) as [agent|]; [|reflexivity].
  destruct (Py.startswith action "move").
  - simpl. rewrite dget_dset.
    destruct (String.eqb_spec k who); [contradiction|reflexivity].
  - destruct (Py.startswith action "say"); [reflexivity|].
    destruct (String.eqb action "observe"); reflexivity.
Qed.

Lemma seen_execute_action now who action o :
  seen (execute_action now who action o) = seen o.
Proof.
  unfold execute_action.
  destruct (dget who (agents o)) as [agent|]; [|reflexivity].
  destruct (Py.startswith action "move"); [reflexivity|].
  destruct (Py.startswith action "say"); [reflexivity|].
  destruct (String.eqb action "observe"); reflexivity.
Qed.

Lemma social_think pick show a s rest :
  Agent.personality a = "social"%string ->
  think pick show a (s :: rest) = ("say Hello to " ++ show s)%string.
Proof. intros H. unfold think. rewrite H. reflexivity. Qed.

Lemma social_turn now draws show o k a s rest :
  dget k (agents o) = Some a ->
  Agent.personality a = "social"%string ->
  seen o = s :: rest ->
  turn now (fun a seen => think (draws a) show a seen) o k =
  log_event now "AGENT_SPOKE"
    (Spoke (Agent.name a) (Py.drop 4 ("say Hello to " ++ show s)%string)) o.
Proof.
  intros Hk Hp Hs. unfold turn. rewrite Hk, Hs, (social_think _ _ _ _ _ Hp).
  unfold execute_action. rewrite Hk. reflexivity.
Qed.

Lemma social_turns now draws show k a s rest keys : forall o,
  dget k (agents o) = Some a ->
  Agent.personality a = "social"%string ->
  seen o = s :: rest ->
  dget k (agents (fold_left
                    (turn now (fun a seen => think (draws a) show a seen)) keys o))
  = Some a.
Proof.
  induction keys as [|k' keys IH]; intros o Hk Hp Hs; simpl; [exact Hk|].
  apply IH; [|exact Hp|].
  - destruct (String.eqb_spec k k') as [<-|Hne].
    + rewrite (social_turn now draws show o k a s rest Hk Hp Hs). exact Hk.
    + unfold turn. destruct (dget k' (agents o)); [|exact Hk].
      rewrite execute_action_other by exact Hne. exact Hk.
  - unfold turn. destruct (dget k' (agents o)); [|exact Hs].
    now rewrite seen_execute_action.
Qed.

(** X9. A social agent never moves.  The filter of its [think]
    compares the published sightings, which are dictionaries, with
    its own name, so it keeps them all, and the agent's own sighting
    is always among them: in every tick a registered agent of
    personality "social" takes the greeting branch, never the
    wandering one, and its record (position, action count, inventory)
    is after the tick what it was before. *)
Theorem social_agent_never_moves
    (now : string) (draws : Agent.t -> nat) (show : Sighting -> string)
    (o : State) (k : string) (a : Agent.t) :
  dget k (agents o) = Some a ->
  Agent.personality a = "social"%string ->
  dget k (agents (simulate_world now
                    (fun a seen => think (draws a) show a seen) o)) = Some a.
Proof.
  intros Hk Hp. unfold simulate_world. rewrite agents_check_interactions.
  unfold act_all. cbn [agents tick seen log running].
  pose proof (dget_value _ _ _ Hk) as Hin.
  destruct (dvalues (agents o)) as [|v vs] eqn:Ev; [destruct Hin|].
  eapply social_turns; [exact Hk|exact Hp|]. cbn [seen map]. reflexivity.
Qed.

Lemma social_agent_never_moves_witness :
  dget "SocialBot"
    (agents (simulate_world "12:00:05"
               (fun a seen => think ((fun _ => 1%nat) a) s_name a seen)
               three_registered))
  = Some (Agent.make "SocialBot" "social").
Proof.
  refine (social_agent_never_moves "12:00:05"%string (fun _ => 1%nat) s_name
            three_registered "SocialBot"%string
            (Agent.make "SocialBot" "social") _ _).
  - vm_compute. reflexivity.
  - reflexivity.
Defined.

Lemma colocated_refl a : colocated a a = true.
Proof. unfold colocated. apply Z.eqb_eq. lia. Qed.

Lemma one_tile_cons a rest :
  one_tile (a :: rest) <->
  (forall b, In b rest -> colocated a b = true) /\ one_tile rest.
Proof.
  unfold one_tile. split.
  - intros H. split.
    + intros b Hb. apply H; [now left|now right].
    + intros b c Hb Hc. apply H; now right.
  - intros [Ha Hr] b c [<-|Hb] [<-|Hc].
    + apply colocated_refl.
    + now apply Ha.
    + rewrite colocated_sym. now apply Ha.
    + now apply Hr.
Qed.

Lemma inner_meetings_length now t a rest :
  (length (flat_map (meeting now t a) rest) <= length rest)%nat /\
  (length (flat_map (meeting now t a) rest) = length rest <->
   forall b, In b rest -> colocated a b = true).
Proof.
  induction rest as [|b rest [IHle IHeq]]; simpl.
  - split; [lia|]. split; [intros _ b []|reflexivity].
  - rewrite length_app. unfold meeting at 1 3.
    destruct (colocated a b) eqn:E; simpl.
    + split; [lia|]. split.
      * intros H c [<-|Hc]; [exact E|]. apply IHeq; [lia|exact Hc].
      * intros H. f_equal. apply IHeq. intros c Hc. apply H. now right.
    + split; [lia|]. split; [lia|].
      intros H. rewrite (H b (or_introl eq_refl)) in E. discriminate.
Qed.

Lemma meetings_length now t l :
  2 * Z.of_nat (length (meetings now t l))
    <= Z.of_nat (length l) * (Z.of_nat (length l) - 1) /\
  (2 * Z.of_nat (length (meetings now t l))
     = Z.of_nat (length l) * (Z.of_nat (length l) - 1) <-> one_tile l).
Proof.
  induction l as [|a rest [IHle IHeq]].
  - simpl. split; [lia|]. split; [intros _ a b []|reflexivity].
  - cbn [meetings]. rewrite length_app. cbn [length].
    destruct (inner_meetings_length now t a rest) as [Hle Heq].
    rewrite one_tile_cons, <- IHeq, <- Heq.
    set (p := length (flat_map (meeting now t a) rest)) in *.
    set (q := length (meetings now t rest)) in *.
    set (m := length rest) in *.
    rewrite !Nat2Z.inj_add, Nat2Z.inj_succ. split; [lia|]. split; intros H.
    + assert (Z.of_nat p = Z.of_nat m) by lia. split; lia.
    + destruct H as [H1 H2]. rewrite H1. lia.
Qed.

Lemma meetings_events now t l :
  Forall (fun en => Entry.event en = "AGENT_INTERACTED"%string) (meetings now t l).
Proof.
  induction l as [|a rest IH]; simpl; [constructor|].
  apply Forall_app. split; [|exact IH].
  clear IH. induction rest as [|b rest IH]; simpl; [constructor|].
  apply Forall_app. split; [|exact IH].
  unfold meeting. destruct (colocated a b); repeat constructor.
Qed.

(** X10. One interaction check of an orchestrator with n registered
    agents appends only AGENT_INTERACTED entries, stamped with the
    current tick, and at most n (n - 1) / 2 of them, one per pair of
    registry positions; it appends exactly that many if and only if
    all the agents stand on one tile.  The registry and the tick
    counter are left as they are. *)
Theorem check_interactions_counts_pairs (now : string) (o : State) :
  let n := Z.of_nat (length (dvalues (agents o))) in
  exists added,
    log (check_interactions now o) = log o ++ added /\
    Forall (fun en => Entry.event en = "AGENT_INTERACTED"%string) added /\
    Forall (fun en => Entry.tick en = tick o) added /\
    2 * Z.of_nat (length added) <= n * (n - 1) /\
    (2 * Z.of_nat (length added) = n * (n - 1) <-> one_tile (dvalues (agents o))) /\
    agents (check_interactions now o) = agents o /\
    tick (check_interactions now o) = tick o.
Proof.
  intros n. exists (meetings now (tick o) (dvalues (agents o))).
  unfold check_interactions. rewrite interactions_log. simpl.
  split; [reflexivity|]. split; [apply meetings_events|].
  split; [apply meetings_stamps|].
  destruct (meetings_length now (tick o) (dvalues (agents o))) as [Hle Heq].
  split; [exact Hle|]. split; [exact Heq|]. split; reflexivity.
Qed.

Lemma choice_direction pick :
  In (Py.choice pick directions "up"%string) directions.
Proof.
  unfold Py.choice. apply nth_In. simpl length.
  apply Nat.mod_upper_bound. discriminate.
Qed.

Lemma think_cases pick show self sightings :
  (exists d, In d directions /\
     think pick show self sightings = ("move " ++ d)%string) \/
  (exists m, think pick show self sightings = ("say " ++ m)%string) \/
  think pick show self sightings = "observe"%string.
Proof.
  pose proof (choice_direction pick) as Hc.
  unfold think.
  destruct (String.eqb _ "explorer"); [left; eexists; split; [exact Hc|reflexivity]|].
  destruct (String.eqb _ "gatherer").
  { left.
    destruct (5 <? _); [exists "left"%string; split; [simpl; tauto|reflexivity]|].
    destruct (_ <? -5); [exists "right"%string; split; [simpl; tauto|reflexivity]|].
    destruct (5 <? _); [exists "up"%string; split; [simpl; tauto|reflexivity]|].
    destruct (_ <? -5); [exists "down"%string; split; [simpl; tauto|reflexivity]|].
    eexists; split; [exact Hc|reflexivity]. }
  destruct (String.eqb _ "social"); [|right; right; reflexivity].
  destruct (List.filter _ sightings).
  - left. exists "up"%string. split; [simpl; tauto|reflexivity].
  - right. left. eexists. reflexivity.
Qed.

(** X11. Every decision of [Agent.think] is an action that
    [execute_action] carries out: whatever the personality, the
    position, the random draw and the published sightings are, the
    decision of a registered agent appends exactly one entry to the
    log, an AGENT_MOVED, AGENT_SPOKE or AGENT_THOUGHT entry stamped
    with the current tick, and the agent stays registered. *)
Theorem every_decision_is_carried_out
    (now : string) (pick : nat) (show : Sighting -> string)
    (o : State) (k : string) (a : Agent.t) :
  dget k (agents o) = Some a ->
  let o' := execute_action now k (think pick show a (seen o)) o in
  (exists en,
     log o' = log o ++ [en] /\
     In (Entry.event en) action_events /\
     Entry.tick en = tick o) /\
  dget k (agents o') <> None.
Proof.
  intros Hk o'. subst o'. unfold execute_action. rewrite Hk.
  destruct (think_cases pick show a (seen o)) as [(d & Hd & ->)|[(m & ->)| ->]].
  - assert (Py.startswith ("move " ++ d) "move" = true) as ->
      by (simpl in Hd; destruct Hd as [<-|[<-|[<-|[<-|[]]]]]; reflexivity).
    cbv zeta. split.
    + eexists. split; [reflexivity|]. split; [simpl; tauto|reflexivity].
    + simpl. rewrite dget_dset, String.eqb_refl. discriminate.
  - change (Py.startswith ("say " ++ m) "move") with false.
    change (Py.startswith ("say " ++ m) "say") with true. cbv iota. split.
    + eexists. split; [reflexivity|]. split; [simpl; tauto|reflexivity].
    + simpl. rewrite Hk. discriminate.
  - change (Py.startswith "observe" "move") with false.
    change (Py.startswith "observe" "say") with false.
    change ("observe" =? "observe")%string with true. cbv iota. split.
    + eexists. split; [reflexivity|]. split; [simpl; tauto|reflexivity].
    + simpl. rewrite Hk. discriminate.
Qed.

Lemma every_decision_is_carried_out_witness :
  let o' := execute_action "12:00:05" "Scout-7"
              (think 2 s_name (Agent.make "Scout-7" "gatherer")
                 (seen three_registered)) three_registered in
  (exists en,
     log o' = log three_registered ++ [en] /\
     In (Entry.event en) action_events /\
     Entry.tick en = tick three_registered) /\
  dget "Scout-7" (agents o') <> None.
Proof.
  refine (every_decision_is_carried_out "12:00:05"%string 2%nat s_name
            three_registered "Scout-7"%string (Agent.make "Scout-7" "gatherer") _).
  vm_compute. reflexivity.
Defined.

End OrchestratorLog.

(** ** The emulator server *)

Module McpFacts.
Import Server Mcp.

Section OverAnyEmulator.
Context `{Emulator}.

Lemma register_spec now name m :
  register now name m =
  (set_registry (fst (register_agent now (_get_position (pyboy m)) name (registry m))) m,
   snd (register_agent now (_get_position (pyboy m)) name (registry m))).
Proof. reflexivity. Qed.

Lemma register_registers now name m :
  let m' := fst (register now name m) in
  pyboy m' = pyboy m /\
  tick_count (registry m') = tick_count (registry m) /\
  current_agent (registry m') = Some name /\
  state_files m' = state_files m /\ agent_files m' = agent_files m /\
  (exists a,
     agents (registry m') !! name = Some a /\
     Agent.last_seen a = now /\
     Agent.action_count a =
       match agents (registry m) !! name with
       | Some a0 => Agent.action_count a0
       | None => 0
       end) /\
  (forall k, k <> name -> agents (registry m') !! k = agents (registry m) !! k).
Proof.
  cbv zeta. rewrite register_spec. unfold register_agent. simpl.
  repeat split.
  - eexists. rewrite lookup_insert_eq. split; [reflexivity|]. split; [reflexivity|].
    simpl. destruct (agents (registry m) !! name) as [a0|] eqn:E.
    + rewrite E. reflexivity.
    + rewrite lookup_insert_eq. reflexivity.
  - intros k Hk. rewrite lookup_insert_ne by congruence.
    destruct (agents (registry m) !! name); [reflexivity|].
    rewrite lookup_insert_ne by congruence. reflexivity.
Qed.

Lemma truthy_Some name : name <> EmptyString -> truthy (Some name) = true.
Proof.
  intros Hn. unfold truthy. destruct (String.eqb_spec name ""); [contradiction|reflexivity].
Qed.

Lemma key_map_release direction :
  key_map direction = None <-> release_map direction = None.
Proof.
  unfold key_map, release_map.
  repeat destruct (String.eqb direction _); split; congruence.
Qed.

(** X12. A move in an unknown direction is refused, but not before
    the agent named in the request has been registered: the reply is
    the "Unknown direction" error, the emulator and the tick count are
    untouched, and yet the named agent is now in the registry (a new
    entry, or the old one with its action count kept), stamped with
    the time of the call, and is the current agent; the other entries
    are as before. *)
Theorem unknown_direction_still_registers
    (env : Env) (direction name : string) (m : Machine) :
  key_map direction = None ->
  name <> EmptyString ->
  exists m',
    move env direction (Some name) m =
      Return m' (Error ("Unknown direction: " ++ direction)) /\
    pyboy m' = pyboy m /\
    tick_count (registry m') = tick_count (registry m) /\
    current_agent (registry m') = Some name /\
    (exists a,
       agents (registry m') !! name = Some a /\
       Agent.last_seen a = reading env 0 /\
       Agent.action_count a =
         match agents (registry m) !! name with
         | Some a0 => Agent.action_count a0
         | None => 0
         end) /\
    (forall k, k <> name -> agents (registry m') !! k = agents (registry m) !! k).
Proof.
  intros Hd Hn. exists (fst (register (reading env 0) name m)).
  pose proof (register_registers (reading env 0) name m) as (Hp & Ht & Hc & _ & _ & Ha & Ho).
  split; [|repeat split; assumption].
  unfold move. rewrite (truthy_Some _ Hn). cbn [default from_option id fst snd].
  rewrite Hd. reflexivity.
Qed.

Lemma handle_step env request m :
  let o := handle_mcp_request env request m in
  tick_count (registry (machine_of o)) =
    tick_count (registry m) + (if is_moved (reply_of o) then 15 else 0).
Proof.
  cbv zeta. unfold handle_mcp_request.
  destruct (method request) as [meth|]; [|simpl; lia].
  destruct (String.eqb meth "initialize"); [simpl; lia|].
  destruct (String.eqb meth "register_agent"); [simpl; lia|].
  destruct (String.eqb meth "move").
  { unfold move.
    destruct (truthy (params request !! "agent"%string)).
    - cbn [fst snd]. destruct (key_map _); [|simpl; lia].
      destruct (release_map _); [|simpl; lia].
      destruct (agents _ !! _); simpl; lia.
    - destruct (truthy (current_agent (registry m))); cbn [negb]; [|simpl; lia].
      destruct (key_map _); [|simpl; lia].
      destruct (release_map _); [|simpl; lia].
      destruct (agents _ !! _); simpl; lia. }
  destruct (String.eqb meth "observe"); [simpl; lia|].
  destruct (String.eqb meth "save").
  { unfold save_state. destruct (negb _); [simpl; lia|].
    destruct (negb _); simpl; lia. }
  destruct (String.eqb meth "load").
  { unfold load_state. destruct (state_files m !! _); [|simpl; lia].
    cbn [machine_of reply_of is_moved]. simpl agent_files.
    destruct (agent_files m !! _); simpl; lia. }
  destruct (String.eqb meth "list_saves"); simpl; lia.
Qed.

(** X13. The tick count of the server counts moves, 15 ticks each:
    over any session, it grows by 15 times the number of requests
    answered with a move report.  Registrations, observations, saves
    (also those that fail) and loads leave it alone (a load does not
    bring back the tick count of the save), and so do refused and
    failed moves. *)
Theorem tick_count_counts_moves (requests : list (Env * Request)) (m : Machine) :
  tick_count (registry (fst (session requests m))) =
  tick_count (registry m)
  + 15 * Z.of_nat (length (List.filter is_moved (snd (session requests m)))).
Proof.
  revert m. induction requests as [|[env request] rest IH]; intros m.
  - simpl. lia.
  - cbn [session].
    pose proof (handle_step env request m) as Hs. cbv zeta in Hs.
    specialize (IH (machine_of (handle_mcp_request env request m))).
    destruct (session rest (machine_of (handle_mcp_request env request m)))
      as [m' replies].
    cbn [fst snd List.filter] in *.
    destruct (is_moved (reply_of (handle_mcp_request env request m)));
      cbn [length]; lia.
Qed.




(** X16. A load can leave the server with a current agent that is
    not in the registry, and the next move then raises.  If the
    registry of a save has no entry for the current agent, then after
    [load_state] of that save a move in a valid direction without an
    agent name does not return: [agents.get] yields [None] and the
    first assignment to it fails, after the emulator (the loaded one)
    has been driven through the 15 ticks of the move; the tick count
    is not advanced. *)
Theorem move_after_load_raises
    (env : Env) (name direction : string) (m : Machine)
    (e : Emu) (roster : gmap string Agent.t) (c : string)
    (press release : WindowEvent) :
  state_files m !! state_file name = Some e ->
  agent_files m !! agents_file name = Some roster ->
  current_agent (registry m) = Some c ->
  c <> EmptyString ->
  roster !! c = None ->
  key_map direction = Some press ->
  release_map direction = Some release ->
  let loaded := fst (load_state name m) in
  move env direction None loaded =
    Raise (set_pyboy
             (pyboy_send_input release (ticks 15 (pyboy_send_input press e)))
             loaded) /\
  tick_count (registry loaded) = tick_count (registry m).
Proof.
  intros Hs Ha Hc Hne Hr Hk Hrel loaded.
  assert (loaded =
          set_registry (mkState roster (Some c) (tick_count (registry m)))
            (set_pyboy e m)) as El.
  { unfold loaded, load_state. rewrite Hs. simpl agent_files. rewrite Ha.
    simpl. rewrite Hc. reflexivity. }
  rewrite El. split; [|reflexivity].
  unfold move. cbn [truthy]. simpl registry. cbn [current_agent].
  rewrite (truthy_Some _ Hne).
  cbn [negb default from_option id agents registry set_registry current_agent].
  rewrite Hk, Hrel, Hr. reflexivity.
Qed.

(** X17. An agent registered under the empty name cannot move as the
    current agent.  The empty string counts as false in the tests of
    [move]: after [register_agent] with that name, which registers the agent and
    makes it the current one, a move request without an agent name, or
    with the empty one, is answered "No agent registered" and changes
    nothing, whatever the direction. *)
Theorem empty_name_agent_cannot_move
    (now : string) (env : Env) (direction : string) (agent_name : option string)
    (m : Machine) :
  truthy agent_name = false ->
  let m' := fst (register now EmptyString m) in
  agents (registry m') !! EmptyString <> None /\
  current_agent (registry m') = Some EmptyString /\
  move env direction agent_name m' =
    Return m' (Error "No agent registered. Use register_agent first.").
Proof.
  intros Ht m'.
  pose proof (register_registers now EmptyString m)
    as (_ & _ & Hcur & _ & _ & (a & Ha & _) & _).
  fold m' in Hcur, Ha. split; [rewrite Ha; discriminate|]. split; [exact Hcur|].
  unfold move. rewrite Ht, Hcur. reflexivity.
Qed.

End OverAnyEmulator.

Lemma unknown_direction_still_registers_witness :
  exists m',
    move clock "north" (Some "Koolie"%string) fresh =
      Return m' (Error ("Unknown direction: " ++ "north")) /\
    pyboy m' = pyboy fresh /\
    tick_count (registry m') = tick_count (registry fresh) /\
    current_agent (registry m') = Some "Koolie"%string /\
    (exists a,
       agents (registry m') !! "Koolie"%string = Some a /\
       Agent.last_seen a = reading clock 0 /\
       Agent.action_count a =
         match agents (registry fresh) !! "Koolie"%string with
         | Some a0 => Agent.action_count a0
         | None => 0
         end) /\
    (forall k, k <> "Koolie"%string ->
       agents (registry m') !! k = agents (registry fresh) !! k).
Proof.
  refine (@unknown_direction_still_registers pad_emulator clock
            "north"%string "Koolie"%string fresh _ _).
  - reflexivity.
  - discriminate.
Defined.


Lemma move_after_load_raises_witness :
  let loaded := fst (load_state "quicksave" saved_then_registered) in
  move clock "up" None loaded =
    Raise (set_pyboy
             (pyboy_send_input RELEASE_ARROW_UP
                (ticks 15 (pyboy_send_input PRESS_ARROW_UP (pyboy fresh))))
             loaded) /\
  tick_count (registry loaded) = tick_count (registry saved_then_registered).
Proof.
  refine (@move_after_load_raises pad_emulator clock "quicksave"%string "up"%string
            saved_then_registered (pyboy fresh) ∅ "Koolie"%string
            PRESS_ARROW_UP RELEASE_ARROW_UP _ _ _ _ _ _ _).
  - vm_compute. reflexivity.
  - vm_compute. reflexivity.
  - vm_compute. reflexivity.
  - discriminate.
  - reflexivity.
  - reflexivity.
  - reflexivity.
Defined.

Lemma empty_name_agent_cannot_move_witness :
  let m' := fst (register "12:00:00" EmptyString fresh) in
  agents (registry m') !! EmptyString <> None /\
  current_agent (registry m') = Some EmptyString /\
  move clock "up" None m' =
    Return m' (Error "No agent registered. Use register_agent first.").
Proof.
  refine (@empty_name_agent_cannot_move pad_emulator "12:00:00"%string clock
            "up"%string None fresh _).
  reflexivity.
Defined.

End McpFacts.

(** ** The live showcase *)

Module LiveFacts.
Import Showcase Live.

Lemma types_say c who text ty s (P : string -> Prop) :
  P ty -> Forall P (message_types s) -> Forall P (message_types (say c who text ty s)).
Proof.
  intros Hty Hs. unfold message_types, say, add_message in *. cbn [chat messages].
  assert (Forall P (map Message.type
                      (messages (chat s) ++ [Message.mk (now c) who text ty (stamp c)])))
    as Hall.
  { rewrite map_app. apply Forall_app. split; [exact Hs|]. repeat constructor. exact Hty. }
  destruct (_ <? _); [|exact Hall].
  destruct (messages (chat s) ++ _) as [|m0 rest]; [constructor|].
  simpl in *. now inversion Hall.
Qed.

Lemma live_choice_direction pick : In (Py.choice pick directions "up"%string) directions.
Proof.
  unfold Py.choice. apply nth_In. simpl length.
  apply Nat.mod_upper_bound. discriminate.
Qed.

Lemma think_without_search pick self world :
  Agent.personality self <> "gatherer"%string ->
  In (think_and_act pick self world) directions \/
  think_and_act pick self world
    = ("say Hello! I'm " ++ Agent.name self ++ "!")%string \/
  think_and_act pick self world = "search_trade"%string.
Proof.
  intros Hp. pose proof (live_choice_direction pick) as Hc. unfold think_and_act.
  destruct (String.eqb _ "explorer").
  { left. repeat (destruct (_ <? _); [simpl; tauto|]). exact Hc. }
  destruct (String.eqb _ "social").
  { destruct (List.filter _ _) as [|first rest]; [left; exact Hc|].
    cbv zeta. destruct (_ && _); [right; left; reflexivity|].
    left. repeat (destruct (_ <? _)); simpl; tauto. }
  destruct (String.eqb_spec (Agent.personality self) "gatherer"); [contradiction|].
  destruct (String.eqb _ "merchant"); [right; right; reflexivity|].
  left. exact Hc.
Qed.

Lemma Forall_dset {V} (P : string * V -> Prop) k v v0 (d : dict V) :
  dget k d = Some v0 -> P (k, v) -> Forall P d -> Forall P (dset k v d).
Proof.
  intros Hk Hv. induction d as [|[k0 v1] d IH]; simpl in *; [discriminate|].
  intros Hall. inversion Hall as [|? ? H0 Hd]; subst.
  destruct (String.eqb_spec k k0) as [->|Hne].
  - constructor; assumption.
  - constructor; [exact H0|]. now apply IH.
Qed.

Lemma dget_Forall {V} (P : string * V -> Prop) k v (d : dict V) :
  dget k d = Some v -> Forall P d -> P (k, v).
Proof.
  intros Hk Hall. rewrite List.Forall_forall in Hall. apply Hall.
  now apply dget_In.
Qed.

Lemma untouched_execute_move direction k a :
  untouched (k, a) -> untouched (k, fst (execute_move direction a)).
Proof.
  unfold untouched, execute_move. cbn [snd]. intros H.
  destruct (negb _); [exact H|]. cbn [fst].
  repeat destruct (String.eqb direction _); exact H.
Qed.

Lemma calm_say names c who text ty s :
  no_deal ty -> calm names s -> calm names (say c who text ty s).
Proof.
  intros Hty (Hk & Hu & Ht). split; [exact Hk|]. split; [exact Hu|].
  now apply types_say.
Qed.

Lemma direction_guards d :
  In d directions ->
  Py.startswith d "say" = false /\
  String.eqb d "search" = false /\
  String.eqb d "search_trade" = false.
Proof.
  simpl. intros [<-|[<-|[<-|[<-|[]]]]]; repeat split.
Qed.

Lemma calm_turn names e world s k :
  calm names s -> calm names (turn e world s k).
Proof.
  intros Hcalm. pose proof Hcalm as (Hk & Hu & Ht). unfold turn.
  destruct (dget k (agents s)) as [agent|] eqn:Ek; [|exact Hcalm].
  pose proof (dget_Forall _ _ _ _ Ek Hu) as Hagent.
  pose proof Hagent as (Hw & Hi & Hp). cbn [snd] in Hw, Hi, Hp.
  destruct (think_without_search (pick_think e) agent world Hp) as [Hd|[-> | ->]].
  - destruct (direction_guards _ Hd) as (-> & -> & ->).
    pose proof (untouched_execute_move (think_and_act (pick_think e) agent world) k agent
                  Hagent) as Hmoved.
    destruct (execute_move _ agent) as [moved_agent moved]. cbn [fst] in Hmoved.
    assert (calm names (set_agents (dset k moved_agent (agents s)) s)) as Hcalm'.
    { split; [|split; [|exact Ht]]; cbn [agents set_agents].
      - rewrite (dkeys_dset_present _ _ _ _ Ek). exact Hk.
      - now apply (Forall_dset _ _ _ agent). }
    destruct (_ && _); [|exact Hcalm'].
    apply calm_say; [split; discriminate|exact Hcalm'].
  - change (Py.startswith ("say Hello! I'm " ++ Agent.name agent ++ "!") "say")
      with true.
    cbv iota. apply calm_say; [split; discriminate|exact Hcalm].
  - change (Py.startswith "search_trade" "say") with false.
    change ("search_trade" =? "search")%string with false.
    change ("search_trade" =? "search_trade")%string with true. cbv iota.
    destruct (List.filter _ (agents s)) as [|first rest]; [exact Hcalm|].
    set (tk := fst (Py.choice (pick_act e) (first :: rest) first)).
    unfold sell. rewrite Ek, Hi.
    destruct (dget tk (agents s)); [|exact Hcalm].
    cbn [length Nat.eqb negb]. rewrite andb_false_r. exact Hcalm.
Qed.

Lemma calm_turns names (te : TickEnv) world iks : forall s,
  calm names s ->
  calm names (fold_left (fun s '(i, k) => turn (turns te i) world s k) iks s).
Proof.
  induction iks as [|[i k] iks IH]; intros s Hs; simpl; [exact Hs|].
  apply IH. now apply calm_turn.
Qed.

Lemma calm_run_tick names te s : calm names s -> calm names (run_tick te s).
Proof.
  intros Hs. unfold run_tick. cbv zeta. cbn [agents].
  set (s1 := mkState (agents s) (chat s) (tick s + 1) (running s)).
  assert (calm names s1) as H1 by exact Hs.
  pose proof (calm_turns names te (get_world_state s1)
                (combine (seq 0 (length (dkeys (agents s)))) (dkeys (agents s)))
                s1 H1) as H2.
  destruct (Qle_bool _ _); [exact H2|].
  apply calm_say; [split; discriminate|exact H2].
Qed.

Lemma calm_ticks names tes : forall s, calm names s -> calm names (ticks tes s).
Proof.
  unfold ticks. induction tes as [|te tes IH]; intros s Hs; simpl; [exact Hs|].
  apply IH. now apply calm_run_tick.
Qed.

Lemma calm_opened spawn joined :
  calm ["Koolie"; "Scout-7"; "Merchant-X"; "HelpBot"]%string
    (register_agents spawn joined init).
Proof.
  unfold register_agents. cbn [agents init dset String.eqb Ascii.eqb Bool.eqb fold_left].
  repeat (apply calm_say; [split; discriminate|]).
  split; [reflexivity|]. split; [|constructor].
  repeat constructor; discriminate.
Qed.

(** X18. The showcase never trades.  Its four agents are an
    explorer, two social agents and a merchant: nobody searches, so
    nobody ever holds an item, and the merchant, who only sells, never
    has anything to sell.  Whatever the spawn positions, the random
    draws and the number of ticks of [LiveShowcase.run], at the end the
    registry holds the four agents in the order of registration, every
    wallet is the 100 gold of construction, every inventory is empty,
    and the overlay holds no trade or loot message. *)
Theorem showcase_never_trades
    (spawn : string -> Z * Z) (joined : string -> Clock) (tes : list TickEnv) :
  let s := run spawn joined tes init in
  dkeys (agents s) = ["Koolie"; "Scout-7"; "Merchant-X"; "HelpBot"]%string /\
  Forall (fun a => Agent.wallet a = 100 /\ Agent.inventory a = []) (dvalues (agents s)) /\
  Forall (fun t => t <> "trade"%string /\ t <> "loot"%string) (message_types s).
Proof.
  intros s.
  assert (calm ["Koolie"; "Scout-7"; "Merchant-X"; "HelpBot"]%string s)
    as (Hk & Hu & Ht) by (apply calm_ticks, calm_opened).
  split; [exact Hk|]. split; [|exact Ht].
  unfold dvalues. apply Forall_map.
  eapply List.Forall_impl; [|exact Hu]. intros [k a] (Hw & Hi & _). now split.
Qed.

Lemma on_screen_execute_move direction a :
  on_screen a -> on_screen (fst (execute_move direction a)).
Proof.
  unfold on_screen, execute_move. intros H.
  destruct (negb _); [exact H|]. cbn [fst].
  repeat destruct (String.eqb direction _); simpl; lia.
Qed.

Lemma Forall_dupd {V} (P : string * V -> Prop) k f (d : dict V) :
  (forall v, P (k, v) -> P (k, f v)) -> Forall P d -> Forall P (dupd k f d).
Proof.
  intros Hf Hall. unfold dupd. destruct (dget k d) as [v|] eqn:E; [|exact Hall].
  apply (Forall_dset P k (f v) v d E); [|exact Hall].
  apply Hf. now apply (dget_Forall P k v d).
Qed.

Lemma placed_upd (P : string * Agent.t -> Prop) k f s :
  (forall v, P (k, v) -> P (k, f v)) ->
  Forall P (agents s) -> Forall P (agents (upd k f s)).
Proof. intros Hf Hall. unfold upd. cbn [agents set_agents]. now apply Forall_dupd. Qed.

Lemma on_screen_turn e world s k :
  Forall (fun en => on_screen (snd en)) (agents s) ->
  Forall (fun en => on_screen (snd en)) (agents (turn e world s k)).
Proof.
  intros Hall. unfold turn.
  destruct (dget k (agents s)) as [agent|] eqn:Ek; [|exact Hall].
  destruct (Py.startswith _ "say"); [exact Hall|].
  destruct (String.eqb _ "search").
  { cbn [agents say]. apply placed_upd; [|exact Hall]. intros v Hv. exact Hv. }
  destruct (String.eqb _ "search_trade").
  { destruct (List.filter _ (agents s)) as [|first rest]; [exact Hall|].
    set (tk := fst (Py.choice (pick_act e) (first :: rest) first)).
    unfold sell. rewrite Ek.
    destruct (dget tk (agents s)); [|exact Hall].
    destruct (_ && _); [|exact Hall].
    cbn [agents say].
    repeat (apply placed_upd; [intros v Hv; exact Hv|]). exact Hall. }
  pose proof (on_screen_execute_move (think_and_act (pick_think e) agent world) agent
                (dget_Forall _ _ _ _ Ek Hall)) as Hm.
  destruct (execute_move _ agent) as [moved_agent moved]. cbn [fst] in Hm.
  assert (Forall (fun en => on_screen (snd en)) (dset k moved_agent (agents s))) as Hd
    by (apply (Forall_dset _ k moved_agent agent); assumption).
  destruct (_ && _); exact Hd.
Qed.

Lemma on_screen_run_tick te s :
  Forall (fun en => on_screen (snd en)) (agents s) ->
  Forall (fun en => on_screen (snd en)) (agents (run_tick te s)).
Proof.
  intros Hall. unfold run_tick. cbv zeta. cbn [agents].
  set (s1 := mkState (agents s) (chat s) (tick s + 1) (running s)).
  assert (Forall (fun en => on_screen (snd en)) (agents s1)) as H1 by exact Hall.
  generalize (combine (seq 0 (length (dkeys (agents s)))) (dkeys (agents s))).
  generalize (get_world_state s1). intros world iks.
  assert (Forall (fun en => on_screen (snd en))
            (agents (fold_left (fun s '(i, k) => turn (turns te i) world s k) iks s1)))
    as H2.
  { clear Hall. revert H1. generalize s1.
    induction iks as [|[i k] iks IH]; intros s0 H0; simpl; [exact H0|].
    apply IH. now apply on_screen_turn. }
  destruct (Qle_bool _ _); exact H2.
Qed.

(** X19. Showcase agents never leave the 20 x 18 screen: if every
    agent of the registry has its column in [0, 19] and its row in
    [0, 17], as the spawn draws of 4 to 10 make it, then the same
    holds after any number of ticks, whatever the agents decide and
    the draws are. *)
Theorem agents_stay_on_screen (tes : list TickEnv) (s : State) :
  Forall on_screen (dvalues (agents s)) ->
  Forall on_screen (dvalues (agents (ticks tes s))).
Proof.
  intros H0.
  assert (forall s0, Forall on_screen (dvalues (agents s0)) <->
                     Forall (fun en => on_screen (snd en)) (agents s0)) as Hiff.
  { intros s0. unfold dvalues. rewrite List.Forall_map. reflexivity. }
  apply Hiff. apply Hiff in H0. unfold ticks. revert s H0.
  induction tes as [|te tes IH]; intros s H0; simpl; [exact H0|].
  apply IH. now apply on_screen_run_tick.
Qed.

Lemma agents_stay_on_screen_witness :
  Forall on_screen (dvalues (agents (ticks [quiet; quiet; quiet] opened))).
Proof.
  refine (agents_stay_on_screen [quiet; quiet; quiet] opened _).
  vm_compute. repeat constructor; discriminate.
Defined.

Lemma last_n_spec {A} (n : Z) (l : list A) :
  exists pre kept,
    l = pre ++ kept /\
    PyList.last_n n l = kept /\
    Z.of_nat (length kept) =
      (if n =? 0 then Z.of_nat (length l)
       else if 0 <? n then Z.min n (Z.of_nat (length l))
       else Z.max 0 (Z.of_nat (length l) + n)).
Proof.
  unfold PyList.last_n, PyList.slice_from. cbv zeta.
  set (len := Z.of_nat (length l)).
  set (s := if - n <? 0 then Z.max 0 (len + - n) else Z.min len (- n)).
  exists (firstn (Z.to_nat s) l), (skipn (Z.to_nat s) l).
  split; [symmetry; apply firstn_skipn|]. split; [reflexivity|].
  rewrite length_skipn. fold len.
  assert (0 <= len) by (unfold len; lia).
  assert (Z.of_nat (length l) = len) as El by reflexivity.
  subst s.
  destruct (Z.eqb_spec n 0); destruct (Z.ltb_spec (- n) 0);
    destruct (Z.ltb_spec 0 n); lia.
Qed.

(** X20. The recent-message views are suffixes, and asking for zero
    messages gives them all.  [ChatOverlay.get_recent(n)] returns the
    formatted lines of a suffix of the overlay's messages, and
    [print_chat_history(n)] of the enhanced world prints a suffix of
    the chat history, both in order: the last n entries for a positive
    n (all of them if there are fewer), the whole list for n = 0
    (since [-0] is 0), and for a negative n what is left after
    dropping the first [-n] entries. *)
Theorem recent_messages_are_a_suffix (n : Z) :
  (forall c : ChatOverlay,
     exists pre kept,
       messages c = pre ++ kept /\
       get_recent n c =
         map (fun m => ("[" ++ Message.agent m ++ "] " ++ Message.text m)%string) kept /\
       Z.of_nat (length kept) =
         (if n =? 0 then Z.of_nat (length (messages c))
          else if 0 <? n then Z.min n (Z.of_nat (length (messages c)))
          else Z.max 0 (Z.of_nat (length (messages c)) + n))) /\
  (forall w : Enhanced.World,
     exists pre kept,
       Enhanced.chat_history w = pre ++ kept /\
       EnhancedWorld.recent n w = kept /\
       Z.of_nat (length kept) =
         (if n =? 0 then Z.of_nat (length (Enhanced.chat_history w))
          else if 0 <? n then Z.min n (Z.of_nat (length (Enhanced.chat_history w)))
          else Z.max 0 (Z.of_nat (length (Enhanced.chat_history w)) + n))).
Proof.
  split.
  - intros c. destruct (last_n_spec n (messages c)) as (pre & kept & E & Hk & Hl).
    exists pre, kept. split; [exact E|]. split; [|exact Hl].
    unfold get_recent. rewrite Hk. reflexivity.
  - intros w. unfold EnhancedWorld.recent. apply last_n_spec.
Qed.

End LiveFacts.

(** ** aether_enhanced.py: the run and its report *)

Module EnhancedReport.
Import Enhanced EnhancedWorld.

Lemma filter_disjoint_length {A} (f g h : A -> bool) (l : list A) :
  (forall a, f a = true -> g a = false /\ h a = false) ->
  (forall a, g a = true -> h a = false) ->
  (length (List.filter f l) + length (List.filter g l) + length (List.filter h l)
   <= length l)%nat.
Proof.
  intros Hf Hg. induction l as [|a l IH]; simpl; [lia|].
  destruct (f a) eqn:Ef.
  - destruct (Hf a Ef) as [-> ->]. simpl. lia.
  - destruct (g a) eqn:Eg.
    + rewrite (Hg a Eg). simpl. lia.
    + destruct (h a); simpl; lia.
Qed.

(** X21. The totals of the final report are those of the last 30
    chat entries, not of the run: the chat history is capped, so
    after the five registrations of [run] and any further actions and
    ticks, "Total events" is at most 30, and the counts of chat
    messages, trades and battles together do not exceed it, however
    many events, trades and battles the run has seen. *)
Theorem report_counts_at_most_thirty
    (now : string) (draw : string -> Z * Z * Z) (ops : list Op) :
  let w := run (opening now draw ++ ops) init in
  total_events w <= 30 /\
  0 <= count_type "chat" w /\ 0 <= count_type "trade" w /\ 0 <= count_type "battle" w /\
  count_type "chat" w + count_type "trade" w + count_type "battle" w <= total_events w.
Proof.
  intros w.
  assert (length (chat_history w) <= 30)%nat as Hcap
    by (apply ChatBuffer.chat_history_bounded_run; simpl; lia).
  unfold total_events, count_type.
  pose proof (filter_disjoint_length
                (fun m => String.eqb (ChatEntry.type m) "chat")
                (fun m => String.eqb (ChatEntry.type m) "trade")
                (fun m => String.eqb (ChatEntry.type m) "battle")
                (chat_history w)) as Hsum.
  assert (forall t1 t2 : string, t1 <> t2 ->
            forall m : ChatEntry.t,
              String.eqb (ChatEntry.type m) t1 = true ->
              String.eqb (ChatEntry.type m) t2 = false) as Hne.
  { intros t1 t2 Ht m E. apply String.eqb_eq in E. apply String.eqb_neq. congruence. }
  assert (length (List.filter (fun m => String.eqb (ChatEntry.type m) "chat")
                    (chat_history w))
          + length (List.filter (fun m => String.eqb (ChatEntry.type m) "trade")
                      (chat_history w))
          + length (List.filter (fun m => String.eqb (ChatEntry.type m) "battle")
                      (chat_history w))
          <= length (chat_history w))%nat as Hle.
  { apply Hsum.
    - intros m E. split; apply (Hne "chat"%string); try exact E; discriminate.
    - intros m E. apply (Hne "trade"%string); [discriminate|exact E]. }
  repeat split; lia.
Qed.

(** X22. Where the enhanced world keeps its agents.  In every world
    built from the empty one by registrations, actions and ticks with
    draws in their ranges, each agent is registered under its own name
    and stands in columns 4 to 11 and rows 3 to 11: registration
    spawns it in columns 4 to 8 and rows 3 to 7, and a move clamps the
    coordinate it changes to [4, 11]. *)
Theorem agents_stay_in_reach (ops : list Op) (k : string) (a : Agent.t) :
  Forall op_ok ops ->
  dget k (agents (run ops init)) = Some a ->
  Agent.name a = k /\ 4 <= Agent.x a <= 11 /\ 3 <= Agent.y a <= 11.
Proof.
  intros Hops Hk. split.
  - exact (EnhancedEntries.names_ok_run ops Hops k a Hk).
  - exact (EnhancedEntries.positions_in_reach_run ops Hops k a Hk).
Qed.

Lemma agents_stay_in_reach_witness :
  Agent.name koolie_after_demo = "Koolie"%string /\
  4 <= Agent.x koolie_after_demo <= 11 /\ 3 <= Agent.y koolie_after_demo <= 11.
Proof.
  refine (agents_stay_in_reach Scenario.demo_ops "Koolie"%string koolie_after_demo _ _).
  - unfold Scenario.demo_ops. repeat constructor; simpl; lia.
  - vm_compute. reflexivity.
Defined.

Lemma Inv_no_move w op : Inv w -> no_move op -> Inv (apply_op w op).
Proof.
  intros H Hop. destruct op; simpl in *.
  - now apply EnhancedFacts.Inv_register_agent.
  - destruct Hop as [He Hm]. now apply EnhancedFacts.Inv_execute_action.
  - contradiction.
Qed.

(** X29. In the enhanced world no trade, battle or purchase overdraws
    a wallet.  In a world whose wallets are all non-negative and whose
    market lists nothing below 10 (the floor of the fluctuation),
    every wallet is non-negative after each operation of any sequence
    of registrations and of actions other than moves (trade offers,
    challenges, land purchases, searches, speech, and strings that are
    no action), whoever acts on whomever and whatever the draws within
    their ranges are. *)
Theorem dealings_keep_wallets_nonnegative (ops : list Op) (w : World) :
  well_formed w -> wallets_nonneg w -> Forall no_move ops ->
  forall n, wallets_nonneg (run (firstn n ops) w).
Proof.
  intros Hwf Hw Hops n.
  assert (Forall no_move (firstn n ops)) as Hn.
  { rewrite <- (firstn_skipn n ops) in Hops. apply Forall_app in Hops. apply Hops. }
  assert (Inv w) as Hinv by (split; assumption).
  clear Hops Hwf Hw. unfold run. revert w Hinv.
  induction Hn as [|op l Hop _ IH]; intros w Hinv; simpl; [apply Hinv|].
  apply IH. now apply Inv_no_move.
Qed.

Lemma dealings_keep_wallets_nonnegative_witness :
  wallets_nonneg (run (firstn 6 dealings) init).
Proof.
  refine (dealings_keep_wallets_nonnegative dealings init _ _ _ 6%nat).
  - intros []; simpl; lia.
  - intros k a; discriminate.
  - unfold dealings. repeat constructor; simpl; lia.
Defined.

End EnhancedReport.


(** ** aether_full.py: the economy and the decisions *)

Module FullFacts.
Import Full FullWorld FullTrade.

Lemma full_sum_dset k (v a : Agent.t) (d : dict Agent.t) :
  dget k d = Some a ->
  PyList.sum (map Agent.wallet (dvalues (dset k v d))) =
  PyList.sum (map Agent.wallet (dvalues d)) - Agent.wallet a + Agent.wallet v.
Proof.
  unfold dvalues. induction d as [|[k0 v0] d IH]; simpl; [discriminate|].
  destruct (String.eqb k k0); simpl.
  - intros [= ->]. lia.
  - intros H. rewrite IH by exact H. lia.
Qed.

Lemma full_total_gold_upd k f c w :
  dget k (agents w) <> None ->
  (forall a, Agent.wallet (f a) = Agent.wallet a + c) ->
  total_gold (upd k f w) = total_gold w + c.
Proof.
  intros Ha Hf. unfold total_gold, upd, dupd; simpl.
  destruct (dget k (agents w)) as [a|] eqn:E; [|congruence].
  rewrite (full_sum_dset k (f a) a) by exact E. rewrite Hf. lia.
Qed.

Lemma full_total_gold_same k f w :
  (forall a, Agent.wallet (f a) = Agent.wallet a) ->
  total_gold (upd k f w) = total_gold w.
Proof.
  intros Hf. unfold total_gold, upd, dupd; simpl.
  destruct (dget k (agents w)) as [a|] eqn:E; [|reflexivity].
  rewrite (full_sum_dset k (f a) a) by exact E. rewrite Hf. lia.
Qed.

Lemma full_upd_keeps_present k k' f w :
  dget k' (agents w) <> None -> dget k' (agents (upd k f w)) <> None.
Proof.
  intros H. rewrite full_dget_upd. destruct (String.eqb_spec k' k) as [->|]; [|exact H].
  destruct (dget k (agents w)); [discriminate|congruence].
Qed.

Lemma check_territory_fold now who l : forall w,
  agents
    (fold_left
       (fun w terr =>
          with_agent who w (fun agent =>
            if (Territory.x terr =? Agent.x agent) && (Territory.y terr =? Agent.y agent)
               && negb (String.eqb (Territory.owner terr) (Agent.name agent))
            then broadcast now
                   ("⚠️ " ++ Agent.name agent ++ " entered " ++ Territory.owner terr
                      ++ "'s territory!") "warning" w
            else w))
       l w) = agents w /\
  territories
    (fold_left
       (fun w terr =>
          with_agent who w (fun agent =>
            if (Territory.x terr =? Agent.x agent) && (Territory.y terr =? Agent.y agent)
               && negb (String.eqb (Territory.owner terr) (Agent.name agent))
            then broadcast now
                   ("⚠️ " ++ Agent.name agent ++ " entered " ++ Territory.owner terr
                      ++ "'s territory!") "warning" w
            else w))
       l w) = territories w.
Proof.
  induction l as [|terr l IH]; intros w; simpl; [now split|].
  match goal with |- context [fold_left _ l ?w1] => destruct (IH w1) as [E1 E2] end.
  rewrite E1, E2. unfold with_agent.
  destruct (dget who (agents w)); [|now split].
  destruct (_ && _); now split.
Qed.

Lemma check_territory_frame now who w :
  agents (check_territory now who w) = agents w /\
  territories (check_territory now who w) = territories w.
Proof. apply check_territory_fold. Qed.

Lemma step_dir_wallet d a : Agent.wallet (step_dir d a) = Agent.wallet a.
Proof. unfold step_dir. repeat destruct (String.eqb d _); reflexivity. Qed.

Ltac full_present :=
  repeat apply full_upd_keeps_present;
  match goal with H : dget _ _ = Some _ |- _ <> None => rewrite H; discriminate end.

Lemma execute_action_balance e who action w :
  total_gold (execute_action e who action w) + land_paid (execute_action e who action w)
  = total_gold w + land_paid w.
Proof.
  unfold execute_action.
  destruct (Py.startswith action "move").
  { unfold do_move. cbv zeta.
    match goal with |- context [check_territory ?n ?k ?w1] =>
      destruct (check_territory_frame n k w1) as [E1 E2] end.
    unfold total_gold, land_paid. rewrite E1, E2.
    fold (land_paid w).
    match goal with |- context [with_agent who ?w1 ?f] =>
      assert (agents (with_agent who w1 f) = agents w1 /\
              territories (with_agent who w1 f) = territories w1) as [E3 E4]
        by (unfold with_agent; destruct (dget who (agents w1)); [|now split];
            destruct (_ =? 0); now split)
    end.
    rewrite E3, E4.
    change (total_gold
              (upd who (fun a => Agent.set_actions (Agent.actions a + 1) a)
                 (upd who (step_dir (List.last (Py.split action) EmptyString)) w))
            + land_paid w = total_gold w + land_paid w).
    rewrite full_total_gold_same by reflexivity.
    rewrite full_total_gold_same by (intros; apply step_dir_wallet). reflexivity. }
  destruct (Py.startswith action "say").
  { unfold do_say, with_agent. destruct (dget who (agents w)); [|reflexivity].
    cbv zeta.
    change (total_gold (upd who (fun a => Agent.set_messages
                                   (Agent.messages a ++ [Py.drop 4 action]) a) w)
            + land_paid w = total_gold w + land_paid w).
    rewrite full_total_gold_same by reflexivity. reflexivity. }
  destruct (String.eqb action "gather").
  { unfold do_gather, with_agent. destruct (dget who (agents w)) as [agent|]; [|reflexivity].
    cbv zeta.
    match goal with |- context [upd who ?f w] =>
      change (total_gold (upd who f w) + land_paid w = total_gold w + land_paid w)
    end.
    rewrite full_total_gold_same by reflexivity. reflexivity. }
  destruct (String.eqb action "buy_land").
  { unfold do_buy_land, with_agent.
    destruct (dget who (agents w)) as [agent|] eqn:Ha; [|reflexivity].
    destruct (100 <=? Agent.wallet agent); [|reflexivity]. cbv zeta.
    match goal with |- context [upd who ?f w] =>
      change (total_gold (upd who f w)
              + 100 * Z.of_nat (length (territories w ++
                    [Territory.make (Agent.x agent) (Agent.y agent) (Agent.name agent)
                       (Agent.name agent ++ "'s Land")]))
              = total_gold w + land_paid w)
    end.
    rewrite (full_total_gold_upd who _ (-100))
      by (first [full_present | intros; simpl; lia]).
    unfold land_paid. rewrite length_app. simpl length. lia. }
  destruct (Py.startswith action "offer_trade"); [|reflexivity].
  unfold do_offer_trade, with_agent.
  destruct (dget who (agents w)) as [agent|] eqn:Ha; [|reflexivity].
  destruct (target_of action) as [tn|]; [|reflexivity].
  destruct (dget tn (agents w)) as [target|] eqn:Ht; [|reflexivity].
  destruct (Agent.inventory agent) as [|item rest]; [reflexivity|]. cbv zeta.
  set (price := market w (Item.type item) + trade_delta e).
  destruct (price <=? Agent.wallet target); [|reflexivity].
  unfold settle_trade. cbv zeta.
  match goal with |- total_gold (broadcast ?n ?m ?t ?w1) + land_paid _ = _ =>
    change (total_gold w1 + land_paid w = total_gold w + land_paid w)
  end.
  rewrite full_total_gold_same by reflexivity.
  rewrite full_total_gold_same by reflexivity.
  rewrite (full_total_gold_upd who _ price)
    by (first [full_present | intros; simpl; lia]).
  rewrite (full_total_gold_upd tn _ (- price))
    by (first [full_present | intros; simpl; lia]).
  lia.
Qed.

(** X23. In the full world gold leaves the economy only for land.
    Over any sequence of actions (moves, speech, gathering, land
    purchases, trade offers, and strings that are no action), by
    whomever and with whatever draws, the sum of all wallets plus 100
    for each territory on the map stays what it was: a trade moves
    its price from one wallet to another, even to the same one, and a
    land purchase turns 100 gold into one territory. *)
Theorem gold_leaves_only_for_land (l : list (Env * string * string)) (w : World) :
  total_gold (acts l w) + land_paid (acts l w) = total_gold w + land_paid w.
Proof.
  unfold acts. revert w. induction l as [|[[e who] action] l IH]; intros w; simpl.
  - reflexivity.
  - rewrite IH. apply execute_action_balance.
Qed.

(** X24. In the full world a gold nugget can sell at a negative
    price.  The market lists gold at 1 and the price of an offer is
    the market price plus a draw from -5 to 10: with a draw of -2 or
    less the price is negative, every registered target with a
    non-negative wallet can afford it, and the sale goes through with
    the seller paying the buyer.  The seller's wallet goes down by the
    absolute price, below zero if it held less, the buyer's goes up
    by it, and the nugget changes hands. *)
Theorem gold_sells_at_negative_price
    (e : Env) (who tn action : string) (w : World)
    (agent target : Agent.t) (item : Item.t) (rest : list Item.t) :
  Py.startswith action "offer_trade" = true ->
  target_of action = Some tn ->
  who <> tn ->
  dget who (agents w) = Some agent ->
  dget tn (agents w) = Some target ->
  Agent.inventory agent = item :: rest ->
  Item.type item = GOLD ->
  market w GOLD = 1 ->
  -5 <= trade_delta e <= -2 ->
  0 <= Agent.wallet target ->
  let w' := execute_action e who action w in
  let price := 1 + trade_delta e in
  price < 0 /\
  dget who (agents w') =
    Some (Agent.set_inventory rest (Agent.set_wallet (Agent.wallet agent + price) agent)) /\
  dget tn (agents w') =
    Some (Agent.set_inventory
            (Agent.inventory target ++ [Item.set_owner (Agent.name target) item])
            (Agent.set_wallet (Agent.wallet target - price) target)) /\
  (Agent.wallet agent < - price ->
   option_map Agent.wallet (dget who (agents w')) = Some (Agent.wallet agent + price) /\
   Agent.wallet agent + price < 0).
Proof.
  intros Hpre Htok Hne Ha Ht Hinv Hty Hm Hd Hw w' price.
  destruct (full_offer_trade_sells e who tn action w agent target Hpre Htok Hne Ha Ht)
    as [Hiff _].
  assert (affordable e agent target w) as Haff.
  { exists item. rewrite Hinv. split; [reflexivity|].
    unfold quote. rewrite Hty, Hm. lia. }
  apply Hiff in Haff. destruct Haff as (item' & Hhd & Hwho & Htn & _).
  rewrite Hinv in Hhd. injection Hhd as <-.
  unfold quote in Hwho, Htn. rewrite Hty, Hm in Hwho, Htn. rewrite Hinv in Hwho.
  fold w' in Hwho, Htn. fold price in Hwho, Htn. cbn [tl] in Hwho.
  split; [unfold price; lia|]. split; [exact Hwho|]. split; [exact Htn|].
  intros Hlow. rewrite Hwho. split; [reflexivity|lia].
Qed.

Lemma gold_sells_at_negative_price_witness :
  let w' := execute_action (mkEnv "12:00:03" 0 (-5)) "Scout-7" "offer_trade Koolie"
              gold_found in
  let price := 1 + trade_delta (mkEnv "12:00:03" 0 (-5)) in
  price < 0 /\
  dget "Scout-7" (agents w') =
    Some (Agent.set_inventory []
            (Agent.set_wallet (Agent.wallet scout_with_nugget + price) scout_with_nugget)) /\
  dget "Koolie" (agents w') =
    Some (Agent.set_inventory
            (Agent.inventory koolie_nearby
               ++ [Item.set_owner (Agent.name koolie_nearby) nugget])
            (Agent.set_wallet (Agent.wallet koolie_nearby - price) koolie_nearby)) /\
  (Agent.wallet scout_with_nugget < - price ->
   option_map Agent.wallet (dget "Scout-7" (agents w'))
     = Some (Agent.wallet scout_with_nugget + price) /\
   Agent.wallet scout_with_nugget + price < 0).
Proof.
  refine (gold_sells_at_negative_price (mkEnv "12:00:03" 0 (-5))
            "Scout-7"%string "Koolie"%string "offer_trade Koolie"%string gold_found
            scout_with_nugget koolie_nearby nugget [] _ _ _ _ _ _ _ _ _ _).
  - reflexivity.
  - reflexivity.
  - discriminate.
  - vm_compute. reflexivity.
  - vm_compute. reflexivity.
  - reflexivity.
  - reflexivity.
  - reflexivity.
  - simpl. lia.
  - simpl. lia.
Defined.

Lemma full_choice_direction i : In (Py.choice i directions "up"%string) directions.
Proof.
  unfold Py.choice. apply nth_In. simpl length.
  apply Nat.mod_upper_bound. discriminate.
Qed.

(** X25. Every decision of the full world's [Agent.think] is an
    action its [execute_action] recognises: whatever the personality,
    the position, the wallet, the other agents and the draws, the
    decision is "move" followed by one of the four directions, a
    greeting ("say ..."), "gather", "buy_land", or "offer_trade"
    followed by the name of the richest agent, and it passes one of
    the guards of [execute_action]. *)
Theorem full_decisions_are_recognized (e : ThinkEnv) (self : Agent.t) (w : World) :
  recognized (think e self w) = true /\
  ((exists d, In d directions /\ think e self w = ("move " ++ d)%string) \/
   (exists n, think e self w = ("say Hello " ++ n ++ "! Want to trade?")%string) \/
   think e self w = "gather"%string \/
   think e self w = "buy_land"%string \/
   (exists richest,
      get_richest_agent w = Some richest /\
      think e self w = ("offer_trade " ++ Agent.name richest)%string)).
Proof.
  pose proof (full_choice_direction (pick e)) as Hc.
  assert (forall d, In d directions ->
            recognized ("move " ++ d) = true /\
            ((exists d', In d' directions /\ ("move " ++ d = "move " ++ d')%string) \/
             (exists n, ("move " ++ d)%string
                        = ("say Hello " ++ n ++ "! Want to trade?")%string) \/
             ("move " ++ d)%string = "gather"%string \/
             ("move " ++ d)%string = "buy_land"%string \/
             (exists richest,
                get_richest_agent w = Some richest /\
                ("move " ++ d)%string = ("offer_trade " ++ Agent.name richest)%string)))
    as Hmove.
  { intros d Hd. split; [reflexivity|]. left. exists d. now split. }
  unfold think.
  destruct (String.eqb _ "explorer").
  { cbv zeta. apply Hmove.
    destruct (10 <? _); [simpl; tauto|]. destruct (_ <? -10); [simpl; tauto|]. exact Hc. }
  destruct (String.eqb _ "gatherer").
  { destruct (200 <? _); [split; [reflexivity|tauto]|].
    destruct (negb _); [split; [reflexivity|tauto]|]. now apply Hmove. }
  destruct (String.eqb _ "social").
  { destruct (get_nearest_agent self w) as [nearest|]; [|now apply Hmove].
    cbv zeta. destruct (_ && _).
    - split; [reflexivity|]. right. left. eexists. reflexivity.
    - apply Hmove. repeat destruct (_ <? _); simpl; tauto. }
  destruct (String.eqb _ "merchant").
  { destruct (get_richest_agent w) as [richest|] eqn:Er; [|now apply Hmove].
    destruct (negb _); [|now apply Hmove]. cbv zeta.
    destruct (_ && _).
    - split; [reflexivity|]. right. right. right. right.
      exists richest. now split.
    - apply Hmove. repeat destruct (_ <? _); simpl; tauto. }
  apply (Hmove "up"%string). simpl; tauto.
Qed.

End FullFacts.

(** ** aether_final.py: moves and turns *)

Module FinalRunFacts.
Import Final FinalRun.

Lemma bisect_le cum x : forall hi, (bisect cum x hi <= hi)%nat.
Proof.
  induction cum as [|c t IH]; intros [|hi]; simpl; try lia.
  destruct (Qle_bool _ _); [|lia]. specialize (IH hi). lia.
Qed.

Lemma choices_direction x ws : In (choices x directions ws) directions.
Proof.
  unfold choices. cbv zeta. apply nth_In.
  match goal with
  | |- (bisect ?c ?y ?h < _)%nat => pose proof (bisect_le c y h) as H
  end.
  simpl length in *. lia.
Qed.

Lemma perpendicular_directions d i :
  In (Py.choice i (perpendicular d) EmptyString) directions.
Proof.
  assert (forall l, l <> [] -> incl l directions ->
                    In (Py.choice i l EmptyString) directions) as Hc.
  { intros l Hl Hincl. apply Hincl. unfold Py.choice. apply nth_In.
    apply Nat.mod_upper_bound. destruct l; [contradiction|discriminate]. }
  unfold perpendicular.
  repeat (destruct (String.eqb d _);
          [apply Hc; [discriminate|intros x Hx; simpl in *; tauto]|]).
  apply Hc; [discriminate|intros x Hx; exact Hx].
Qed.

Lemma index_direction d : In d directions -> index d directions <> None.
Proof. simpl. intros [<-|[<-|[<-|[<-|[]]]]]; discriminate. Qed.

Lemma truthy_direction d : In d directions -> truthy (Some d) = true.
Proof. simpl. intros [<-|[<-|[<-|[<-|[]]]]]; reflexivity. Qed.

Lemma last_cons_default {A} (l : list A) : forall x d,
  List.last (x :: l) d = List.last l x.
Proof.
  induction l as [|y l IH]; intros x d; [reflexivity|].
  change (List.last (y :: l) d = List.last (y :: l) x).
  rewrite !IH. reflexivity.
Qed.

Lemma smart_move_returns e a :
  heading_ok a ->
  exists a' d,
    smart_move e a = Some (a', d) /\
    In d directions /\
    last_direction a' = Some d /\
    name a' = name a /\ role a' = role a /\ actions a' = actions a.
Proof.
  unfold heading_ok, smart_move. intros Hok.
  destruct (last_direction a) as [d0|] eqn:El.
  - rewrite (truthy_direction d0 Hok). cbn [andb default from_option id].
    destruct (3 <? stuck_count a).
    + eexists. eexists. split; [reflexivity|].
      split; [apply perpendicular_directions|]. repeat split.
    + destruct (index d0 directions) as [idx|] eqn:Ei;
        [|now apply index_direction in Hok].
      cbn [option_map]. eexists. eexists. split; [reflexivity|].
      split; [apply choices_direction|]. repeat split.
  - cbn [truthy andb]. eexists. eexists. split; [reflexivity|].
    split; [apply choices_direction|]. repeat split.
Qed.

(** X26. [smart_move] always returns, and always one of the four
    directions.  From a new agent, any number of calls, with whatever
    the random generator yields, raises nothing (the look-up of the
    last direction among the directions always finds it) and returns
    one direction per call, each of them up, down, left or right; the
    agent's last direction is then the direction returned last. *)
Theorem smart_move_always_returns_a_direction (es : list Env) (name role : string) :
  exists a ds,
    moves es (new name role) = Some (a, ds) /\
    length ds = length es /\
    Forall (fun d => In d directions) ds /\
    last_direction a = List.last (map Some ds) None.
Proof.
  assert (forall es a0, heading_ok a0 ->
            exists a ds,
              moves es a0 = Some (a, ds) /\
              length ds = length es /\
              Forall (fun d => In d directions) ds /\
              last_direction a = List.last (map Some ds) (last_direction a0)) as Hgen.
  { clear es. induction es as [|e es IH]; intros a0 Hok.
    - exists a0, []. repeat split. constructor.
    - destruct (smart_move_returns e a0 Hok) as (a1 & d & Hm & Hd & Hl & _).
      assert (heading_ok a1) as Hok1 by (unfold heading_ok; rewrite Hl; exact Hd).
      destruct (IH a1 Hok1) as (a2 & ds & Hms & Hlen & Hall & Hlast).
      exists a2, (d :: ds). simpl moves. rewrite Hm, Hms.
      split; [reflexivity|]. split; [simpl; lia|]. split; [now constructor|].
      rewrite Hlast, Hl. cbn [map]. symmetry. apply last_cons_default. }
  apply (Hgen es (new name role)). exact I.
Qed.

Ltac band_cases :=
  repeat match goal with
         | |- context [Z.leb ?a ?b] => destruct (Z.leb_spec a b)
         end;
  cbn [nth];
  (split;
   [ intros Hd; try discriminate Hd; split; lia
   | intros [Hlo Hhi]; try reflexivity; exfalso; lia ]).

(** X27. How seldom [smart_move] repeats a direction.  For an agent
    that has a last direction and is not counted as stuck, the
    weights are 5 for that direction and 25 for each other one, 80 in
    all: with the value [u] of the generator in [0, 1), the direction
    returned is the last one exactly when [u] falls in a band of
    width 5/80 = 1/16, which starts at 0 for up, 25/80 for down, 50/80
    for left and 75/80 for right. *)
Theorem smart_move_repeats_in_a_sixteenth (e : Env) (a : SmartAgent) (d : string) :
  last_direction a = Some d ->
  In d directions ->
  stuck_count a <= 3 ->
  (0 <= u e)%Q -> (u e < 1)%Q ->
  exists a' d',
    smart_move e a = Some (a', d') /\
    (d' = d <-> (band_start d <= u e)%Q /\ (u e < band_start d + (5 # 80))%Q).
Proof.
  intros Hl Hd Hs H0 H1. rewrite (FinalFacts.weighted_branch_taken e a Hs), Hl.
  destruct e as [pk [p q]]. cbn [u] in *.
  unfold Qle, Qlt in H0, H1. cbn [Qnum Qden] in H0, H1.
  simpl in Hd. destruct Hd as [<-|[<-|[<-|[<-|[]]]]].
  - eexists. eexists. split; [reflexivity|].
    unfold choices, band_start, Qle, Qlt. simpl.
    unfold Qle_bool. cbn [Qnum Qden Qmult inject_Z]. band_cases.
  - eexists. eexists. split; [reflexivity|].
    unfold choices, band_start, Qle, Qlt. simpl.
    unfold Qle_bool. cbn [Qnum Qden Qmult inject_Z]. band_cases.
  - eexists. eexists. split; [reflexivity|].
    unfold choices, band_start, Qle, Qlt. simpl.
    unfold Qle_bool. cbn [Qnum Qden Qmult inject_Z]. band_cases.
  - eexists. eexists. split; [reflexivity|].
    unfold choices, band_start, Qle, Qlt. simpl.
    unfold Qle_bool. cbn [Qnum Qden Qmult inject_Z]. band_cases.
Qed.

Lemma smart_move_repeats_in_a_sixteenth_witness :
  exists a' d',
    smart_move (mkEnv 0 (2 # 3)) went_left = Some (a', d') /\
    (d' = "left"%string <->
     (band_start "left" <= u (mkEnv 0 (2 # 3)))%Q /\
     (u (mkEnv 0 (2 # 3)) < band_start "left" + (5 # 80))%Q).
Proof.
  refine (smart_move_repeats_in_a_sixteenth (mkEnv 0 (2 # 3)) went_left "left"%string
            _ _ _ _ _).
  - reflexivity.
  - simpl. tauto.
  - simpl. lia.
  - vm_compute. discriminate.
  - vm_compute. reflexivity.
Defined.

Lemma moves_sum_dset k (v n : Z) (d : dict Z) :
  dget k d = Some n ->
  PyList.sum (dvalues (dset k v d)) = PyList.sum (dvalues d) - n + v.
Proof.
  unfold dvalues. induction d as [|[k0 v0] d IH]; simpl; [discriminate|].
  destruct (String.eqb k k0); simpl.
  - intros [= ->]. lia.
  - intros H. rewrite IH by exact H. lia.
Qed.

Lemma count_counts action (moves : dict Z) :
  (forall d, In d directions -> dget d moves <> None) ->
  In action directions ->
  exists moves',
    count action moves = Some moves' /\
    (forall d, In d directions -> dget d moves' <> None) /\
    PyList.sum (dvalues moves') = PyList.sum (dvalues moves) + 1.
Proof.
  intros Hkeys Ha. unfold count.
  destruct (dget action moves) as [n|] eqn:E; [|now apply Hkeys in Ha].
  eexists. split; [reflexivity|]. split.
  - intros d Hd. rewrite dget_dset. destruct (String.eqb d action); [discriminate|].
    now apply Hkeys.
  - rewrite (moves_sum_dset action (n + 1) n moves E). lia.
Qed.

Lemma act_each_counts draws n : forall l i moves,
  Forall (fun a => heading_ok a /\ actions a = n) l ->
  (forall d, In d directions -> dget d moves <> None) ->
  exists l' moves',
    act_each draws i l moves = Some (l', moves') /\
    Forall (fun a => heading_ok a /\ actions a = n + 1) l' /\
    map name l' = map name l /\
    (forall d, In d directions -> dget d moves' <> None) /\
    PyList.sum (dvalues moves') = PyList.sum (dvalues moves) + Z.of_nat (length l).
Proof.
  induction l as [|a rest IH]; intros i moves Hall Hkeys.
  - exists [], moves. simpl. repeat split; [constructor|exact Hkeys|lia].
  - inversion Hall as [|? ? [Hok Hn] Hrest]; subst.
    destruct (smart_move_returns (draws i) a Hok)
      as (a1 & d & Hm & Hd & Hl & Hname & _ & Hact).
    destruct (count_counts d moves Hkeys Hd) as (moves1 & Hc & Hkeys1 & Hsum1).
    destruct (IH (S i) moves1 Hrest Hkeys1) as (rest' & moves2 & Hr & Hall' & Hnames & Hkeys2 & Hsum2).
    cbn [act_each]. unfold execute. rewrite Hm, Hc, Hr.
    eexists. eexists. split; [reflexivity|]. split; [|split; [|split]].
    + constructor; [|exact Hall']. split; [|simpl; lia].
      unfold heading_ok. cbn [last_direction]. rewrite Hl. exact Hd.
    + cbn [map name]. rewrite Hname, Hnames. reflexivity.
    + exact Hkeys2.
    + rewrite Hsum2, Hsum1. cbn [length]. lia.
Qed.

(** X28. Every turn counts four moves.  After [spawn_agents], any
    number of [run_turn] calls, with whatever the random generator
    yields, goes through without an exception (each action is a key
    of the move statistics), and after n turns the tick and
    [total_turns] are n, each of the four agents, still in the order
    of spawning, has n actions, and the four move counters add up to
    4 n. *)
Theorem every_turn_counts_four_moves (start : string) (turns : list (nat -> Env)) :
  let n := Z.of_nat (length turns) in
  exists s,
    run_turns turns (spawn_agents (create start)) = Some s /\
    tick s = n /\
    total_turns (stats s) = n /\
    map name (agents s) = ["Koolie"; "Scout-7"; "Merchant-X"; "HelpBot"]%string /\
    Forall (fun a => actions a = n) (agents s) /\
    total_moves s = 4 * n.
Proof.
  intros n.
  assert (forall turns s0 n0,
            tick s0 = n0 -> total_turns (stats s0) = n0 ->
            Forall (fun a => heading_ok a /\ actions a = n0) (agents s0) ->
            (forall d, In d directions -> dget d (stat_moves (stats s0)) <> None) ->
            exists s,
              run_turns turns s0 = Some s /\
              tick s = n0 + Z.of_nat (length turns) /\
              total_turns (stats s) = n0 + Z.of_nat (length turns) /\
              map name (agents s) = map name (agents s0) /\
              Forall (fun a => actions a = n0 + Z.of_nat (length turns)) (agents s) /\
              total_moves s =
                total_moves s0
                + Z.of_nat (length (agents s0)) * Z.of_nat (length turns)) as Hgen.
  { clear. induction turns as [|draws turns IH]; intros s0 n0 Ht Htt Hall Hkeys.
    - exists s0. simpl. repeat split; try lia.
      eapply List.Forall_impl; [|exact Hall]. simpl. intros a [_ Ha]. lia.
    - destruct (act_each_counts draws n0 (agents s0) 0%nat (stat_moves (stats s0))
                  Hall Hkeys) as (l' & moves' & Hr & Hall' & Hnames & Hkeys' & Hsum).
      cbn [run_turns]. unfold run_turn. rewrite Hr.
      set (s1 := mkSync l' (tick s0 + 1)
                   (mkStats (tick s0 + 1) moves' (start_time (stats s0)))).
      assert (length l' = length (agents s0)) as Hlen
        by (rewrite <- (length_map name l'), Hnames, length_map; reflexivity).
      assert (total_moves s1 = total_moves s0 + Z.of_nat (length (agents s0))) as E1
        by exact Hsum.
      assert (length (agents s1) = length (agents s0)) as E2 by exact Hlen.
      assert (map name (agents s1) = map name (agents s0)) as E3 by exact Hnames.
      destruct (IH s1 (n0 + 1)) as (s & Hs & Hti & Htu & Hna & Hac & Htm);
        try (simpl; lia); try assumption.
      exists s. split; [exact Hs|].
      rewrite E1, E2 in Htm. rewrite E3 in Hna.
      cbn [length]. rewrite Nat2Z.inj_succ.
      split; [lia|]. split; [lia|]. split; [exact Hna|]. split.
      + eapply List.Forall_impl; [|exact Hac]. simpl. intros a Ha. lia.
      + lia. }
  destruct (Hgen turns (spawn_agents (create start)) 0) as (s & Hs & Hti & Htu & Hna & Hac & Htm).
  - reflexivity.
  - reflexivity.
  - repeat constructor.
  - simpl. intros d [<-|[<-|[<-|[<-|[]]]]]; discriminate.
  - exists s. fold n in Hti, Htu, Hac, Htm.
    split; [exact Hs|]. split; [lia|]. split; [lia|]. split; [exact Hna|].
    split; [|exact Htm].
    eapply List.Forall_impl; [|exact Hac]. simpl. intros a Ha. lia.
Qed.

End FinalRunFacts.
